(** * Request/response correlation and completion detection of the
      Claude Desktop bridge: a shallow embedding and its properties

    The development follows the JavaScript sources:
    - [AnchorService]            (anchor-service.js): anchor ids and the registry;
    - [WebSocketExtractor]       (websocket-extractor.js): content hashing,
      extraction queries, completion probe and the streaming monitor;
    - [SimpleExtraction]         (simple-extraction.js): the text based
      completion check and the parsing of the page text;
    - [MessageService]           (message-service.js): [injectMessage],
      [extractResponse] and [streamResponse];
    - [ClaudeDesktopAPIServer]   (the HTTP server): proactive monitoring.

    JavaScript strings are modelled by [string] (code units below 256),
    numbers that the code keeps integral by [Z], [Date.now()] and the
    other observations of the outside world by explicit arguments.  A
    promise that is never settled is an outcome of its own: [Unsettled]
    for a call of [executeJavaScript], [Pending] for the [async]
    function that awaits it. *)

From Stdlib Require Import ZArith Lia Bool Ascii String.
From stdpp Require Import gmap strings list.

Local Open Scope Z_scope.

(* ===================================================================== *)
(** * JavaScript string and number primitives used by the sources        *)
(* ===================================================================== *)

Module Js.

(** [c.charCodeAt(0)] *)
Definition charCode (c : ascii) : Z := Z.of_nat (nat_of_ascii c).

Definition in_range (lo hi : Z) (c : ascii) : bool :=
  (lo <=? charCode c) && (charCode c <=? hi).

(** The regular-expression classes [\d], [[a-z]], [[A-Z]], [\w], [\s]. *)
Definition is_digit (c : ascii) : bool := in_range 48 57 c.
Definition is_lower (c : ascii) : bool := in_range 97 122 c.
Definition is_upper (c : ascii) : bool := in_range 65 90 c.
Definition is_word (c : ascii) : bool :=
  is_digit c || is_lower c || is_upper c || (charCode c =? 95).
Definition is_space (c : ascii) : bool :=
  in_range 9 13 c || (charCode c =? 32) || (charCode c =? 160).

(** [s.length] *)
Definition length (s : string) : Z := Z.of_nat (String.length s).

(** [s.substring(from, to)] for [from <= to]; both ends are clamped
    to the length of [s]. *)
Definition substring (from to : nat) (s : string) : string :=
  String.substring from (to - from) s.

(** [s.startsWith(p)], returning the rest of [s] after [p]. *)
Fixpoint strip_prefix (p s : string) : option string :=
  match p, s with
  | EmptyString, _ => Some s
  | String a p', String b s' =>
      if Ascii.eqb a b then strip_prefix p' s' else None
  | String _ _, EmptyString => None
  end.

(** [s.includes(p)] *)
Fixpoint includes (p s : string) : bool :=
  match strip_prefix p s with
  | Some _ => true
  | None =>
      match s with
      | EmptyString => false
      | String _ s' => includes p s'
      end
  end.

(** The longest prefix of [s] whose characters satisfy [cls], and the
    rest of [s]: what a greedy [cls*] consumes. *)
Fixpoint span (cls : ascii -> bool) (s : string) : string * string :=
  match s with
  | EmptyString => (EmptyString, EmptyString)
  | String c s' =>
      if cls c then let '(a, b) := span cls s' in (String c a, b)
      else (EmptyString, s)
  end.

(** Exactly [n] characters of the class [cls]; the rest is returned. *)
Fixpoint repeat_cls (n : nat) (cls : ascii -> bool) (s : string)
  : option string :=
  match n with
  | O => Some s
  | S n' =>
      match s with
      | String c s' => if cls c then repeat_cls n' cls s' else None
      | EmptyString => None
      end
  end.

Fixpoint all (cls : ascii -> bool) (s : string) : bool :=
  match s with
  | EmptyString => true
  | String c s' => cls c && all cls s'
  end.

(** [s.trim()]: whitespace removed at both ends. *)
Fixpoint trimEnd (s : string) : string :=
  match s with
  | EmptyString => EmptyString
  | String c s' =>
      match trimEnd s' with
      | EmptyString => if is_space c then EmptyString else String c EmptyString
      | t => String c t
      end
  end.

Definition trimStart (s : string) : string := snd (span is_space s).

Definition trim (s : string) : string := trimEnd (trimStart s).

(** Decimal rendering of an integer, as the template literal
    [`${n}`] and [n.toString()] give it for integral [n] of magnitude
    below 1e21. *)
Definition digit_char (d : Z) : ascii := ascii_of_nat (48 + Z.to_nat d).

Fixpoint decimal_loop (fuel : nat) (n : Z) (acc : string) : string :=
  match fuel with
  | O => acc
  | S fuel' =>
      let acc' := String (digit_char (n mod 10)) acc in
      if n / 10 =? 0 then acc' else decimal_loop fuel' (n / 10) acc'
  end.

Definition decimal (n : Z) : string :=
  decimal_loop (S (Z.to_nat (Z.log2 n))) n EmptyString.

Definition toString (n : Z) : string :=
  if n <? 0 then String "-"%char (decimal (- n)) else decimal n.

(** [parseInt(s)] for a string [s] matched by [\d+]. *)
Fixpoint parse_digits (s : string) (acc : Z) : Z :=
  match s with
  | EmptyString => acc
  | String c s' => parse_digits s' (acc * 10 + (charCode c - 48))
  end.

Definition parseInt (s : string) : Z := parse_digits s 0.

(** [ToInt32], the conversion behind [<<] and [&]. *)
Definition toInt32 (z : Z) : Z := (z + 2 ^ 31) mod 2 ^ 32 - 2 ^ 31.

End Js.

(* ===================================================================== *)
(** * anchor-service.js: class AnchorService                             *)
(* ===================================================================== *)

Module AnchorService.

Record Config := {
  enableLogging : bool;
  cleanupInterval : Z;
  maxAgeHours : Z
}.

(** The constructor's defaults: a sweep every 5 minutes, 24 hours
    of maximum age. *)
Definition defaultConfig : Config :=
  {| enableLogging := true; cleanupInterval := 300000; maxAgeHours := 24 |}.

(** The tracking data of one anchor.  [injectionResult] and
    [extractionResult] start as [null] and are read by none of the
    operations below; they are left out. *)
Record AnchorRecord := {
  anchor : string;
  createdAt : Z;
  status : string;
  contextId : option string;
  lastActivity : Z
}.

(** The [metadata] argument of [trackAnchor] and the [updates]
    argument of [updateAnchor]: an object spread over the record, so
    each field it carries overrides the record's. *)
Record Fields := {
  f_anchor : option string;
  f_createdAt : option Z;
  f_status : option string;
  f_contextId : option (option string);
  f_lastActivity : option Z
}.

Definition noFields : Fields :=
  {| f_anchor := None; f_createdAt := None; f_status := None;
     f_contextId := None; f_lastActivity := None |}.

(** [{ ...r, ...f }] *)
Definition spread (r : AnchorRecord) (f : Fields) : AnchorRecord :=
  {| anchor := default (anchor r) (f_anchor f);
     createdAt := default (createdAt r) (f_createdAt f);
     status := default (status r) (f_status f);
     contextId := default (contextId r) (f_contextId f);
     lastActivity := default (lastActivity r) (f_lastActivity f) |}.

Record Statistics := {
  totalGenerated : Z;
  totalTracked : Z;
  totalCleaned : Z;
  oldestAnchor : option string;
  newestAnchor : option string
}.

Record Service := {
  config : Config;
  anchors : gmap string AnchorRecord;
  statistics : Statistics
}.

(** [new AnchorService(config)] *)
Definition create (c : Config) : Service :=
  {| config := c;
     anchors := ∅;
     statistics := {| totalGenerated := 0; totalTracked := 0;
                      totalCleaned := 0; oldestAnchor := None;
                      newestAnchor := None |} |}.

(** One attempt of the regular expression [/msg_(\d+)_/] at the start
    of [s]; the result is the capture group.  The digits are matched
    greedily, and no shorter run can be followed by [_]. *)
Definition match_msg_here (s : string) : option string :=
  match Js.strip_prefix "msg_" s with
  | Some r =>
      match Js.span Js.is_digit r with
      | (String d ds, String "_"%char _) => Some (String d ds)
      | _ => None
      end
  | None => None
  end.

(** [anchor.match(/msg_(\d+)_/)]: the leftmost match. *)
Fixpoint match_msg (s : string) : option string :=
  match match_msg_here s with
  | Some ds => Some ds
  | None =>
      match s with
      | EmptyString => None
      | String _ s' => match_msg s'
      end
  end.

(** [extractTimestamp(anchor)]; [None] stands for [null]. *)
Definition extractTimestamp (a : string) : option Z :=
  Js.parseInt <$> match_msg a.

(** [/^msg_\d{13}_/], returning what follows. *)
Definition valid_head (s : string) : option string :=
  match Js.strip_prefix "msg_" s with
  | Some r =>
      match Js.repeat_cls 13 Js.is_digit r with
      | Some (String "_"%char suffix) => Some suffix
      | _ => None
      end
  | None => None
  end.

(** [/^msg_\d{13}_[a-z0-9]{6}$/] *)
Definition newFormat (s : string) : bool :=
  match valid_head s with
  | Some suffix =>
      match Js.repeat_cls 6 (fun c => Js.is_lower c || Js.is_digit c) suffix with
      | Some EmptyString => true
      | _ => false
      end
  | None => false
  end.

(** [/^msg_\d{13}_[a-zA-Z0-9]+$/] *)
Definition legacyFormat (s : string) : bool :=
  match valid_head s with
  | Some (String c cs) =>
      Js.all (fun c => Js.is_lower c || Js.is_upper c || Js.is_digit c)
             (String c cs)
  | _ => false
  end.

(** [isValidAnchor(anchor)] on a string argument. *)
Definition isValidAnchor (a : string) : bool :=
  newFormat a || legacyFormat a.

(** A value used as a condition: [null] and the empty string are falsy. *)
Definition truthy (o : option string) : bool :=
  match o with
  | Some (String _ _) => true
  | _ => false
  end.

(** A timestamp or [null] as an operand of [<] and [>]. *)
Definition toNumber (o : option Z) : Z := default 0 o.

(** [_updateStatistics(anchor)] *)
Definition updateStatistics (a : string) (st : Statistics) : Statistics :=
  let timestamp := extractTimestamp a in
  let oldest :=
    if negb (truthy (oldestAnchor st))
       || (toNumber timestamp
             <? toNumber (extractTimestamp (default "" (oldestAnchor st))))
    then Some a else oldestAnchor st in
  let newest :=
    if negb (truthy (newestAnchor st))
       || (toNumber (extractTimestamp (default "" (newestAnchor st)))
             <? toNumber timestamp)
    then Some a else newestAnchor st in
  {| totalGenerated := totalGenerated st;
     totalTracked := totalTracked st;
     totalCleaned := totalCleaned st;
     oldestAnchor := oldest;
     newestAnchor := newest |}.

(** The id built by [generateAnchor] from [now = Date.now()] and
    [rnd = Math.random().toString(36)]. *)
Definition anchorId (now : Z) (rnd : string) : string :=
  "msg_" +:+ Js.toString now +:+ "_" +:+ Js.substring 2 8 rnd.

(** [generateAnchor()] *)
Definition generateAnchor (now : Z) (rnd : string) (svc : Service)
  : string * Service :=
  let a := anchorId now rnd in
  let st := statistics svc in
  let st1 := {| totalGenerated := totalGenerated st + 1;
                totalTracked := totalTracked st;
                totalCleaned := totalCleaned st;
                oldestAnchor := oldestAnchor st;
                newestAnchor := newestAnchor st |} in
  (a, {| config := config svc;
         anchors := anchors svc;
         statistics := updateStatistics a st1 |}).

(** [trackAnchor(anchor, metadata)]; [now1] and [now2] are the two
    readings of [Date.now()], for [createdAt] and [lastActivity]. *)
Definition trackAnchor (now1 now2 : Z) (a : string) (metadata : Fields)
    (svc : Service) : AnchorRecord * Service :=
  let trackingData :=
    spread {| anchor := a; createdAt := now1; status := "created";
              contextId := None; lastActivity := now2 |} metadata in
  let st := statistics svc in
  (trackingData,
   {| config := config svc;
      anchors := <[a := trackingData]> (anchors svc);
      statistics := {| totalGenerated := totalGenerated st;
                       totalTracked := totalTracked st + 1;
                       totalCleaned := totalCleaned st;
                       oldestAnchor := oldestAnchor st;
                       newestAnchor := newestAnchor st |} |}).

(** [updateAnchor(anchor, updates)]; [None] is the [null] returned
    for an unknown anchor. *)
Definition updateAnchor (now : Z) (a : string) (updates : Fields)
    (svc : Service) : option AnchorRecord * Service :=
  match anchors svc !! a with
  | None => (None, svc)
  | Some existing =>
      let merged := spread existing updates in
      let updated :=
        {| anchor := anchor merged; createdAt := createdAt merged;
           status := status merged; contextId := contextId merged;
           lastActivity := now |} in
      (Some updated,
       {| config := config svc;
          anchors := <[a := updated]> (anchors svc);
          statistics := statistics svc |})
  end.

(** [getAnchor(anchor)] *)
Definition getAnchor (a : string) (svc : Service) : option AnchorRecord :=
  anchors svc !! a.

(** The cutoff of the sweep: [Date.now() - maxAgeHours * 60 * 60 * 1000]. *)
Definition cutoff (now : Z) (svc : Service) : Z :=
  now - maxAgeHours (config svc) * 60 * 60 * 1000.

(** The entries the loop of [cleanupOldAnchors] deletes. *)
Definition expired (c : Z) (kv : string * AnchorRecord) : Prop :=
  lastActivity kv.2 < c.

#[global] Instance expired_dec c kv : Decision (expired c kv) :=
  decide (lastActivity kv.2 < c).

(** [cleanupOldAnchors()]: the number of deleted entries and the
    service afterwards. *)
Definition cleanupOldAnchors (now : Z) (svc : Service) : Z * Service :=
  let c := cutoff now svc in
  let cleanedCount := Z.of_nat (size (filter (expired c) (anchors svc))) in
  let st := statistics svc in
  (cleanedCount,
   {| config := config svc;
      anchors := filter (fun kv => ¬ expired c kv) (anchors svc);
      statistics := {| totalGenerated := totalGenerated st;
                       totalTracked := totalTracked st;
                       totalCleaned := totalCleaned st + cleanedCount;
                       oldestAnchor := oldestAnchor st;
                       newestAnchor := newestAnchor st |} |}).

(** [getAnchorAge(anchor)] at [now = Date.now()]:
    [timestamp ? Date.now() - timestamp : null], a timestamp [0]
    being falsy. *)
Definition getAnchorAge (now : Z) (a : string) : option Z :=
  match extractTimestamp a with
  | Some timestamp => if timestamp =? 0 then None else Some (now - timestamp)
  | None => None
  end.

End AnchorService.


(* ===================================================================== *)
(** * The page as the probes see it                                      *)
(* ===================================================================== *)

Module Surface.

(** An entry of the list served by the debugger at [/json]; a missing
    [url] or [title] is the empty string, as [page.url || ''] makes it. *)
Record Page := {
  url : string;
  title : string;
  type : string;
  webSocketDebuggerUrl : string
}.

(** What the scripts read from an element: [el.hidden], the computed
    [display] and [visibility], and [el.disabled]. *)
Record Element := {
  hidden : bool;
  display : string;
  visibility : string;
  disabled : bool
}.

(** The properties of a script's value that [extractContent] reads.
    [ed_complete] is the property [complete] when it holds a boolean,
    [None] when the object has no such property; a falsy [content] is
    the empty string. *)
Record ExtractedData := {
  ed_content : string;
  ed_complete : option bool;
  ed_messageCount : option Z;
  ed_selector : option string;
  ed_source : option string;
  ed_element : option string
}.

(** The document at the moment a script runs in it. *)
Record Dom := {
  (** [document.querySelector('[aria-label*="Stop"]')] *)
  stopButton : option Element;
  (** whether [div[contenteditable="true"]] exists *)
  textInput : bool;
  (** the rightmost small button near the text input whose label does
      not contain [Stop], when there is one *)
  sendCandidate : option Element;
  (** for each of the nine message selectors, in order, the texts
      ([innerText || textContent || '']) of the elements it matches *)
  selectorMatches : list (list string);
  (** the texts of the children of the conversation container *)
  conversationContainer : option (list string);
  (** text and [tagName] of the elements matched by the fallback
      message selector; a falsy text is the empty string *)
  latestMessages : list (string * string);
  (** [document.body.innerText] *)
  bodyText : string;
  (** [generateExtractionQueries] pastes the anchor between single
      quotes without escaping it.  For an anchor that does not stay
      inside the quotes the text sent is another program, or none:
      [pasted i a] is the value of the anchor script number [i] with
      [a] pasted in, [None] when the evaluation gives no truthy value
      (a syntax error among others).  It is consulted for the anchors
      whose effect is not worked out in [returnsEarly] *)
  pasted : nat -> string -> option ExtractedData
}.

(** How a call of [executeJavaScript] ends: the promise is rejected
    (timeout, socket error, unparsable answer), the answer carries no
    truthy [result.result.value], the script ran on a document, or
    the promise is never settled: the timer is cleared when the socket
    closes and when a message with another [id] arrives, and neither
    resolves nor rejects. *)
Inductive Exec (A : Type) : Type :=
| Rejected
| NoValue
| Returned (a : A)
| Unsettled.

Arguments Rejected {A}.
Arguments NoValue {A}.
Arguments Returned {A} a.
Arguments Unsettled {A}.

(** How a call ends: it throws (for an [async] function, the promise
    is rejected), it returns, or, for an [async] function that awaits
    a promise that is never settled, it stays pending for ever. *)
Inductive Completion (A : Type) : Type :=
| Throws (msg : string)
| Returns (a : A)
| Pending.

Arguments Throws {A} msg.
Arguments Returns {A} a.
Arguments Pending {A}.

(** An element is displayed: the test both completion scripts apply. *)
Definition shown (e : Element) : bool :=
  negb (hidden e)
  && negb (String.eqb (display e) "none")
  && negb (String.eqb (visibility e) "hidden").

(** The value of the scripts' variable [sendButton]: [null] without a
    text input, [undefined] when no button qualifies. *)
Inductive SendButton :=
| SendNull
| SendUndefined
| SendElement (e : Element).

Definition sendButton (d : Dom) : SendButton :=
  if textInput d then
    match sendCandidate d with
    | Some e => SendElement e
    | None => SendUndefined
    end
  else SendNull.

End Surface.

(* ===================================================================== *)
(** * websocket-extractor.js: class WebSocketExtractor                   *)
(* ===================================================================== *)

Module WebSocketExtractor.
Import Surface.

(** The two maps of the extractor that the monitor reads and writes. *)
Record State := {
  injectionTimestamps : gmap string Z;
  lastContentHashes : gmap string string
}.

(** [new WebSocketExtractor(port)] *)
Definition create : State :=
  {| injectionTimestamps := ∅; lastContentHashes := ∅ |}.

(** One round of the loop of [hashContent]:
    [hash = ((hash << 5) - hash) + char; hash = hash & hash]. *)
Definition hashStep (hash : Z) (c : ascii) : Z :=
  Js.toInt32 ((Js.toInt32 (hash * 2 ^ 5) - hash) + Js.charCode c).

Fixpoint hashLoop (content : string) (hash : Z) : Z :=
  match content with
  | EmptyString => hash
  | String c rest => hashLoop rest (hashStep hash c)
  end.

(** [hashContent(content)] *)
Definition hashContent (content : string) : string :=
  Js.toString (hashLoop content 0).

(** [trackInjection(anchorHash)] at [now = Date.now()]. *)
Definition trackInjection (now : Z) (a : string) (st : State) : Z * State :=
  (now,
   {| injectionTimestamps := <[a := now]> (injectionTimestamps st);
      lastContentHashes := <[a := ""]> (lastContentHashes st) |}).

(** [isContentNew(anchorHash, content)] *)
Definition isContentNew (a content : string) (st : State) : bool * State :=
  match injectionTimestamps st !! a with
  | None => (false, st)
  | Some injectionTime =>
      if injectionTime =? 0 then (false, st)
      else
        let contentHash := hashContent content in
        if decide (lastContentHashes st !! a = Some contentHash)
        then (false, st)
        else (true,
              {| injectionTimestamps := injectionTimestamps st;
                 lastContentHashes :=
                   <[a := contentHash]> (lastContentHashes st) |})
  end.

(** The loop of [findClaudePage]. *)
Fixpoint findChatPage (pages : list Page) : option Page :=
  match pages with
  | [] => None
  | page :: rest =>
      if Js.includes "claude.ai" (url page)
         && negb (Js.includes "login" (url page))
      then Some page
      else if Js.includes "Claude" (title page)
              && String.eqb (type page) "page"
      then Some page
      else findChatPage rest
  end.

(** [findClaudePage(pages)]; [pages = None] is the [null] that
    [getPages] returns when the debugger cannot be reached. *)
Definition findClaudePage (pages : option (list Page)) : option Page :=
  match pages with
  | None => None
  | Some ps =>
      match findChatPage ps with
      | Some page => Some page
      | None => head ps
      end
  end.

(** The object returned by the script [completionCheck]. *)
Record CompletionData := {
  cd_complete : bool;
  cd_indicator : string;
  cd_stopButtonFound : bool;
  cd_stopButtonVisible : bool;
  cd_sendButtonFound : bool;
  cd_sendButtonDisabled : option bool
}.

(** [claudeStillResponding] of the script: a stop button exists and
    is displayed. *)
Definition claudeStillResponding (d : Dom) : bool :=
  match stopButton d with
  | Some b => shown b
  | None => false
  end.

(** The script [completionCheck] evaluated in a document. *)
Definition completionCheck (d : Dom) : CompletionData :=
  let responseComplete := negb (claudeStillResponding d) in
  {| cd_complete := responseComplete;
     cd_indicator :=
       if responseComplete then "stop_button_disappeared"
       else "still_responding";
     cd_stopButtonFound := bool_decide (stopButton d ≠ None);
     cd_stopButtonVisible := claudeStillResponding d;
     cd_sendButtonFound :=
       match sendButton d with SendNull => false | _ => true end;
     cd_sendButtonDisabled :=
       match sendButton d with
       | SendElement e => Some (disabled e)
       | _ => None
       end |}.

(** [detectResponseCompletion(anchorHash)]: [pages] is what [getPages]
    returns, [exec] how the call of [executeJavaScript] ends.  Every
    failure inside the [try] gives [false]; the function never throws,
    and it stays pending when [executeJavaScript] is never settled. *)
Definition detectResponseCompletion (pages : option (list Page))
    (exec : Exec Dom) : Completion bool :=
  match findClaudePage pages with
  | None => Returns false
  | Some _ =>
      match exec with
      | Returned d => Returns (cd_complete (completionCheck d))
      | NoValue => Returns false
      | Rejected => Returns false
      | Unsettled => Pending
      end
  end.

(** The extraction scripts built by [generateExtractionQueries].  In
    the two anchor scripts [anchorId] is the value of the literal
    [const anchorId = '${anchorHash}']; [Pasted i a] is the text of
    anchor script number [i] when the anchor [a] written between the
    quotes is not a string literal of that value. *)
Inductive Query :=
| SequentialAfterAnchor (anchorId : string)
| ConversationTurns (anchorId : string)
| LatestMessage
| BodyText
| Pasted (index : nat) (anchorHash : string).

(** A character that stands for itself in a string literal between
    single quotes: no quote, no backslash, no line break. *)
Definition literalChar (c : ascii) : bool :=
  negb ((Js.charCode c =? 39) || (Js.charCode c =? 92)
        || (Js.charCode c =? 10) || (Js.charCode c =? 13)).

(** A string that, written between single quotes, is the literal of
    itself. *)
Definition quotable (anchorHash : string) : bool :=
  Js.all literalChar anchorHash.

(** The anchors [s'; return {content:'c', complete:false}; '] with
    [s] and [c] made of literal characters.  Pasted into
    [const anchorId = '${anchorHash}';] they make the script begin
    [const anchorId = 's'; return {content:'c', complete:false}; '';]
    so that it returns the object written in the anchor, whatever the
    document; the result is the content [c] of that object. *)
Definition returnsEarly (anchorHash : string) : option string :=
  match Js.strip_prefix "'; return {content:'"
          (snd (Js.span literalChar anchorHash)) with
  | Some rest =>
      let '(c, closing) := Js.span literalChar rest in
      if String.eqb closing "', complete:false}; '" then Some c else None
  | None => None
  end.

(** [generateExtractionQueries(anchorHash)]: the two anchor scripts
    for a truthy anchor, the two fallback scripts otherwise. *)
Definition generateExtractionQueries (anchorHash : option string)
  : list Query :=
  match anchorHash with
  | Some (String c s) =>
      if quotable (String c s)
      then [SequentialAfterAnchor (String c s);
            ConversationTurns (String c s)]
      else [Pasted 0 (String c s); Pasted 1 (String c s)]
  | _ => [LatestMessage; BodyText]
  end.

(** The objects the scripts build carry [content], [anchor], [debug],
    [timestamp] and, on some paths, one of the properties below. *)
Definition scriptValue (text : string) (count : option Z)
    (src elt : option string) : ExtractedData :=
  {| ed_content := text; ed_complete := None; ed_messageCount := count;
     ed_selector := None; ed_source := src; ed_element := elt |}.

Definition emptyValue : ExtractedData := scriptValue "" None None None.

(** [allMessages]: the elements of the first message selector that
    matches anything. *)
Definition allMessages (d : Dom) : list string :=
  default [] (List.find (fun els => negb (Nat.eqb (List.length els) 0))
                        (take 9 (selectorMatches d))).

(** The messages that follow the first one containing [marker]. *)
Fixpoint afterAnchored (marker : string) (messages : list string)
  : option (list string) :=
  match messages with
  | [] => None
  | m :: rest =>
      if Js.includes marker m then Some rest else afterAnchored marker rest
  end.

(** The first message that is neither short nor a bridge message. *)
Fixpoint firstResponse (marker : string) (messages : list string)
  : option string :=
  match messages with
  | [] => None
  | m :: rest =>
      if Js.length m <? 10 then firstResponse marker rest
      else if Js.includes marker m || Js.includes "[BRIDGE:" m
      then firstResponse marker rest
      else Some m
  end.

(** A script evaluated in a document; [None] is the [null] the
    fallback scripts return. *)
Definition runQuery (q : Query) (d : Dom) : option ExtractedData :=
  match q with
  | SequentialAfterAnchor anchorId =>
      match AnchorService.match_msg anchorId with
      | None => Some emptyValue
      | Some _ =>
          let messages := allMessages d in
          match afterAnchored ("ANCHOR: " +:+ anchorId) messages with
          | None => Some emptyValue
          | Some rest =>
              match firstResponse ("ANCHOR: " +:+ anchorId) rest with
              | Some responseText =>
                  Some (scriptValue responseText
                          (Some (Z.of_nat (List.length messages))) None None)
              | None => Some emptyValue
              end
          end
      end
  | ConversationTurns anchorId =>
      match conversationContainer d with
      | None => Some emptyValue
      | Some turns =>
          match afterAnchored ("ANCHOR: " +:+ anchorId) turns with
          | Some (responseText :: _) =>
              if (5 <? Js.length responseText)
                 && negb (Js.includes "ANCHOR: " responseText)
                 && negb (Js.includes "[BRIDGE:" responseText)
              then Some (scriptValue responseText None None None)
              else Some emptyValue
          | _ => Some emptyValue
          end
      end
  | LatestMessage =>
      match last (latestMessages d) with
      | None => None
      | Some (text, tagName) =>
          Some (scriptValue text None None (Some tagName))
      end
  | BodyText =>
      if 50 <? Js.length (bodyText d)
      then Some (scriptValue (bodyText d) None (Some "body") None)
      else None
  | Pasted index anchorHash =>
      match returnsEarly anchorHash with
      | Some c =>
          Some {| ed_content := c; ed_complete := Some false;
                  ed_messageCount := None; ed_selector := None;
                  ed_source := None; ed_element := None |}
      | None => pasted d index anchorHash
      end
  end.

(** The answer of [executeJavaScript] for a script, from the way the
    call ends on the page. *)
Definition evaluate (q : Query) (e : Exec Dom) : Exec ExtractedData :=
  match e with
  | Rejected => Rejected
  | NoValue => NoValue
  | Returned d =>
      match runQuery q d with
      | Some v => Returned v
      | None => NoValue
      end
  | Unsettled => Unsettled
  end.

Record ExtractionMetadata := {
  em_queryIndex : Z;
  em_attempt : Z;
  em_messageCount : option Z;
  em_selector : option string;
  em_source : option string;
  em_element : option string
}.

(** The object returned by [extractContent] (without [timestamp]). *)
Record Extraction := {
  ex_success : bool;
  ex_content : string;
  ex_complete : bool;
  ex_anchor : option string;
  ex_metadata : option ExtractionMetadata;
  ex_message : option string
}.

(** The object built when a script's value has more than ten
    characters of content. *)
Definition extracted (anchorHash : option string) (queryIndex attempt : nat)
    (v : ExtractedData) : Extraction :=
  {| ex_success := true;
     ex_content := ed_content v;
     ex_complete := negb (bool_decide (ed_complete v = Some false));
     ex_anchor := anchorHash;
     ex_metadata :=
       Some {| em_queryIndex := Z.of_nat queryIndex;
               em_attempt := Z.of_nat attempt + 1;
               em_messageCount := ed_messageCount v;
               em_selector := ed_selector v;
               em_source := ed_source v;
               em_element := ed_element v |};
     ex_message := None |}.

Definition allFailed (anchorHash : option string) : Extraction :=
  {| ex_success := false; ex_content := ""; ex_complete := false;
     ex_anchor := anchorHash; ex_metadata := None;
     ex_message := Some "All extraction queries failed" |}.

(** How the loops of [extractContent] end: with the [return] inside
    them, by running out of attempts, or not at all, waiting for an
    [executeJavaScript] that is never settled. *)
Inductive LoopEnd :=
| Found (r : Extraction)
| Exhausted
| Waiting.

(** The inner loop of [extractContent]: [remaining] more attempts of
    one query, [probe n] being the answer to attempt [n]. *)
Fixpoint attempts (anchorHash : option string) (queryIndex : nat)
    (probe : nat -> Exec ExtractedData) (attempt remaining : nat)
  : LoopEnd :=
  match remaining with
  | O => Exhausted
  | S remaining' =>
      match probe attempt with
      | Returned v =>
          if 10 <? Js.length (ed_content v)
          then Found (extracted anchorHash queryIndex attempt v)
          else attempts anchorHash queryIndex probe (S attempt) remaining'
      | Unsettled => Waiting
      | _ => attempts anchorHash queryIndex probe (S attempt) remaining'
      end
  end.

(** The outer loop of [extractContent] over [remaining] more queries. *)
Fixpoint queriesFrom (anchorHash : option string) (retries : nat)
    (probe : nat -> nat -> Exec ExtractedData) (queryIndex remaining : nat)
  : LoopEnd :=
  match remaining with
  | O => Exhausted
  | S remaining' =>
      match attempts anchorHash queryIndex (probe queryIndex) 0 retries with
      | Found r => Found r
      | Exhausted =>
          queriesFrom anchorHash retries probe (S queryIndex) remaining'
      | Waiting => Waiting
      end
  end.

(** The two loops of [extractContent] over the answers [probe] of the
    page to [count] queries, and the [return] after them. *)
Definition extractWith (anchorHash : option string) (retries : nat)
    (probe : nat -> nat -> Exec ExtractedData) (count : nat)
  : Completion Extraction :=
  match queriesFrom anchorHash retries probe 0 count with
  | Found r => Returns r
  | Exhausted => Returns (allFailed anchorHash)
  | Waiting => Pending
  end.

(** What one call of [extractContent] meets: the page list and, for
    each query and attempt, how [executeJavaScript] ends. *)
Record View := {
  pages : option (list Page);
  scripts : nat -> nat -> Exec Dom
}.

(** The answers of the page to the generated queries. *)
Definition answers (queries : list Query) (v : View)
    (queryIndex attempt : nat) : Exec ExtractedData :=
  match queries !! queryIndex with
  | Some q => evaluate q (scripts v queryIndex attempt)
  | None => Rejected
  end.

(** [extractContent(anchorHash, { retries })] *)
Definition extractContent (anchorHash : option string) (retries : nat)
    (v : View) : Completion Extraction :=
  match pages v with
  | None => Throws "Could not connect to Chrome Debug Protocol"
  | Some _ =>
      match findClaudePage (pages v) with
      | None => Throws "Could not find Claude page"
      | Some _ =>
          let queries := generateExtractionQueries anchorHash in
          extractWith anchorHash retries (answers queries v)
                      (List.length queries)
      end
  end.

(** The object passed to [streamCallback] (without [timestamp]). *)
Record StreamUpdate := {
  su_success : bool;
  su_content : string;
  su_complete : bool;
  su_anchor : string
}.

(** The object [monitorForResponse] resolves with (without
    [timestamp]); [mr_message] is absent on completion. *)
Record MonitorResult := {
  mr_success : bool;
  mr_content : string;
  mr_complete : bool;
  mr_anchor : string;
  mr_message : option string;
  mr_elapsed : Z
}.

(** What one run of [streamMonitor] observes: the clock, the answer
    of [detectResponseStart], the page as the extraction, the
    completion probe and the final extraction meet it, and whether the
    caller's callback throws on the update and on the final update. *)
Record Tick := {
  now : Z;
  responding : bool;
  extraction : View;
  completionPages : option (list Page);
  completionExec : Exec Dom;
  finalExtraction : View;
  updateThrows : bool;
  finalThrows : bool
}.

(** The variables of [monitorForResponse] that outlive a run of
    [streamMonitor], and the extractor's maps. *)
Record Loop := {
  lastContent : string;
  responseStarted : bool;
  extractor : State
}.

Definition setExtractor (l : Loop) (st : State) : Loop :=
  {| lastContent := lastContent l; responseStarted := responseStarted l;
     extractor := st |}.

Definition setLastContent (l : Loop) (c : string) : Loop :=
  {| lastContent := c; responseStarted := responseStarted l;
     extractor := extractor l |}.

Definition setStarted (l : Loop) : Loop :=
  {| lastContent := lastContent l; responseStarted := true;
     extractor := extractor l |}.

Definition timeoutResult (a : string) (l : Loop) (elapsed : Z)
  : MonitorResult :=
  {| mr_success := false; mr_content := lastContent l; mr_complete := false;
     mr_anchor := a; mr_message := Some "Response monitoring timeout";
     mr_elapsed := elapsed |}.

Definition completeResult (a : string) (l : Loop) (elapsed : Z)
  : MonitorResult :=
  {| mr_success := true; mr_content := lastContent l; mr_complete := true;
     mr_anchor := a; mr_message := None; mr_elapsed := elapsed |}.

Definition update (a : string) (l : Loop) (isComplete : bool)
  : StreamUpdate :=
  {| su_success := true; su_content := lastContent l;
     su_complete := isComplete; su_anchor := a |}.

(** The outcome of one run of [streamMonitor]: the calls made to the
    callback, the variables afterwards, the value the promise is
    resolved with, if this run resolves it, and whether the run stays
    at an [await] that is never settled.  A run that neither resolves
    nor stalls ends in [setTimeout(streamMonitor, checkInterval)]; a
    run that stalls sets no timer, so no run follows it. *)
Record Run := {
  emitted : list StreamUpdate;
  after : Loop;
  resolved : option MonitorResult;
  stalled : bool
}.

Definition again (ups : list StreamUpdate) (l : Loop) : Run :=
  {| emitted := ups; after := l; resolved := None; stalled := false |}.

Definition stall (ups : list StreamUpdate) (l : Loop) : Run :=
  {| emitted := ups; after := l; resolved := None; stalled := true |}.

(** The block "Extract current content" of [streamMonitor]: the
    update sent, the variables afterwards, and whether the callback
    threw. *)
Definition newContent (a : string) (callback : bool) (tk : Tick)
    (result : Extraction) (l : Loop) : list StreamUpdate * Loop * bool :=
  if ex_success result && negb (String.eqb (ex_content result) "") then
    let '(isNew, st) := isContentNew a (ex_content result) (extractor l) in
    let l1 := setExtractor l st in
    if isNew && (Js.length (lastContent l) <? Js.length (ex_content result))
    then
      let l2 := setLastContent l1 (ex_content result) in
      if callback then ([update a l2 false], l2, updateThrows tk)
      else ([], l2, false)
    else ([], l1, false)
  else ([], l, false).

(** The block "Check if response is complete", entered when the
    completion probe answered [true]. *)
Definition finish (a : string) (callback : bool) (tk : Tick) (elapsed : Z)
    (ups : list StreamUpdate) (l : Loop) : Run :=
  match extractContent (Some a) 2 (finalExtraction tk) with
  | Throws _ => again ups l
  | Pending => stall ups l
  | Returns finalResult =>
      let l1 :=
        if ex_success finalResult
           && (Js.length (lastContent l) <? Js.length (ex_content finalResult))
        then setLastContent l (ex_content finalResult)
        else l in
      if callback then
        if finalThrows tk then again (ups ++ [update a l1 true]) l1
        else {| emitted := ups ++ [update a l1 true]; after := l1;
                resolved := Some (completeResult a l1 elapsed);
                stalled := false |}
      else {| emitted := ups; after := l1;
              resolved := Some (completeResult a l1 elapsed);
              stalled := false |}
  end.

(** One run of [streamMonitor].  [callback] tells whether a
    [streamCallback] was given.  An exception inside the [try] is
    logged and the run ends like one that found nothing; [elapsed] is
    read once, when the run begins. *)
Definition streamMonitor (a : string) (timeout startTime : Z)
    (callback : bool) (tk : Tick) (l : Loop) : Run :=
  let elapsed := now tk - startTime in
  if timeout <=? elapsed then
    {| emitted := []; after := l;
       resolved := Some (timeoutResult a l elapsed); stalled := false |}
  else if negb (responseStarted l) && negb (responding tk) then again [] l
  else
    let l1 := setStarted l in
    match extractContent (Some a) 1 (extraction tk) with
    | Throws _ => again [] l1
    | Pending => stall [] l1
    | Returns result =>
        let '(ups, l2, thrown) := newContent a callback tk result l1 in
        if thrown then again ups l2
        else
          match detectResponseCompletion (completionPages tk)
                                         (completionExec tk) with
          | Returns true => finish a callback tk elapsed ups l2
          | Returns false => again ups l2
          | Throws _ => again ups l2
          | Pending => stall ups l2
          end
    end.

(** The runs of [streamMonitor] over the observations [ticks], one
    per timer period, until the promise is resolved or a run stalls:
    the observations left are then never made. *)
Fixpoint monitorLoop (a : string) (timeout startTime : Z) (callback : bool)
    (ticks : list Tick) (l : Loop) : Run :=
  match ticks with
  | [] => again [] l
  | tk :: rest =>
      let r := streamMonitor a timeout startTime callback tk l in
      match resolved r with
      | Some _ => r
      | None =>
          if stalled r then r
          else
            let r' :=
              monitorLoop a timeout startTime callback rest (after r) in
            {| emitted := emitted r ++ emitted r'; after := after r';
               resolved := resolved r'; stalled := stalled r' |}
      end
  end.

(** [monitorForResponse(anchorHash, timeout, streamCallback)], begun
    at [startTime] with the extractor in state [st]. *)
Definition monitorForResponse (a : string) (timeout startTime : Z)
    (callback : bool) (ticks : list Tick) (st : State) : Run :=
  monitorLoop a timeout startTime callback ticks
    {| lastContent := ""; responseStarted := false; extractor := st |}.

(** What the script [responseStartCheck] reads from the document:
    the submit button, the number of loading indicators, and
    [disabled] and [readOnly] of the input field. *)
Record StartDom := {
  submitButton : option Element;
  loadingIndicators : nat;
  inputField : option (bool * bool)
}.

(** The object returned by [responseStartCheck]. *)
Record StartData := {
  sd_responding : bool;
  sd_indicator : string
}.

(** The script [responseStartCheck] evaluated in a document at the
    page's clock reading [pageNow]; [injectionTime] is the number
    written into the script. *)
Definition responseStartCheck (injectionTime pageNow : Z) (d : StartDom)
  : StartData :=
  if match submitButton d with Some b => disabled b | None => false end
  then {| sd_responding := true; sd_indicator := "submit_disabled" |}
  else if negb (Nat.eqb (loadingIndicators d) 0)
  then {| sd_responding := true; sd_indicator := "loading_indicators" |}
  else if match inputField d with
          | Some (isDisabled, isReadOnly) => isDisabled || isReadOnly
          | None => false
          end
  then {| sd_responding := true; sd_indicator := "input_disabled" |}
  else if 2000 <? pageNow - injectionTime
  then {| sd_responding := true; sd_indicator := "time_elapsed" |}
  else {| sd_responding := false; sd_indicator := "none" |}.

(** The number written into the script:
    [this.injectionTimestamps.get(anchorHash) || Date.now()]. *)
Definition scriptInjectionTime (nodeNow : Z) (a : string) (st : State) : Z :=
  match injectionTimestamps st !! a with
  | Some t => if t =? 0 then nodeNow else t
  | None => nodeNow
  end.

(** [detectResponseStart(anchorHash)]: [pages] is what [getPages]
    returns, [nodeNow] the clock when the socket opens, and [exec] how
    the evaluation ends: the socket fails, the answer has no value,
    the script ran at the page's clock reading [pageNow], or no
    answer arrives, and the timer of five seconds resolves the promise
    with [false]. *)
Definition detectResponseStart (nodeNow pageNow : Z) (a : string)
    (st : State) (pages : option (list Page)) (exec : Exec StartDom) : bool :=
  match findClaudePage pages with
  | None => false
  | Some _ =>
      match exec with
      | Returned d =>
          sd_responding
            (responseStartCheck (scriptInjectionTime nodeNow a st) pageNow d)
      | NoValue => false
      | Rejected => false
      | Unsettled => false
      end
  end.

End WebSocketExtractor.


(* ===================================================================== *)
(** * simple-extraction.js: completion check and text parsing            *)
(* ===================================================================== *)

Module SimpleExtraction.
Import Surface.

(** The class [[\w-]]. *)
Definition is_word_or_dash (c : ascii) : bool :=
  Js.is_word c || (Js.charCode c =? 45).

(** [cls+], greedy; in the pattern below no shorter run can be
    followed by what comes next, so nothing is tried again. *)
Definition many1 (cls : ascii -> bool) (s : string) : option string :=
  match Js.span cls s with
  | (String _ _, rest) => Some rest
  | _ => None
  end.

(** [cls*] *)
Definition many (cls : ascii -> bool) (s : string) : string :=
  snd (Js.span cls s).

Definition digits (n : nat) (s : string) : option string :=
  Js.repeat_cls n Js.is_digit s.

(** The optional group [(?:\s*\|\s*ANCHOR:\s*[\w_]+)]. *)
Definition anchorGroup (s : string) : option string :=
  s1 ← Js.strip_prefix "|" (many Js.is_space s);
  s2 ← Js.strip_prefix "ANCHOR:" (many Js.is_space s1);
  many1 Js.is_word (many Js.is_space s2).

(** One attempt of the bridge pattern
    [\[BRIDGE: #[\w-]+ \| User: [\w-]+ \| \d{4}-\d{2}-\d{2} \d{2}:\d{2}:\d{2}(?:...)?\]]
    at the start of [s]; the result is what follows the match. *)
Definition bridgeHere (s : string) : option string :=
  s ← Js.strip_prefix "[BRIDGE: #" s;
  s ← many1 is_word_or_dash s;
  s ← Js.strip_prefix " | User: " s;
  s ← many1 is_word_or_dash s;
  s ← Js.strip_prefix " | " s;
  s ← digits 4 s;
  s ← Js.strip_prefix "-" s;
  s ← digits 2 s;
  s ← Js.strip_prefix "-" s;
  s ← digits 2 s;
  s ← Js.strip_prefix " " s;
  s ← digits 2 s;
  s ← Js.strip_prefix ":" s;
  s ← digits 2 s;
  s ← Js.strip_prefix ":" s;
  s ← digits 2 s;
  match anchorGroup s ≫= Js.strip_prefix "]" with
  | Some rest => Some rest
  | None => Js.strip_prefix "]" s
  end.

(** The loop [while ((match = anchorPattern.exec(bodyText)) !== null)]
    over the text from position [pos] on: [skip] characters still
    belong to the previous match, [found] is the index of that match. *)
Fixpoint lastMatch (s : string) (pos : Z) (skip : nat) (found : Z) : Z :=
  match s with
  | EmptyString => found
  | String _ s' =>
      match skip with
      | S k => lastMatch s' (pos + 1) k found
      | O =>
          match bridgeHere s with
          | Some rest =>
              lastMatch s' (pos + 1)
                (String.length s - String.length rest - 1)%nat pos
          | None => lastMatch s' (pos + 1) O found
          end
      end
  end.

(** [lastAnchorPosition] after the loop; [-1] when nothing matched. *)
Definition lastAnchorPosition (bodyText : string) : Z :=
  lastMatch bodyText 0 O (-1).

(** The properties of the object built by [domInspectionCode] that
    the check reads; a property missing from [{ found: false }] is
    [false], as it is falsy. *)
Record DomState := {
  isResponding : bool;
  stop_found : bool;
  stop_visible : bool;
  send_found : bool;
  send_disabled : bool;
  send_visible : bool
}.

(** The script [domInspectionCode] evaluated in a document. *)
Definition domInspectionCode (d : Dom) : DomState :=
  {| isResponding := bool_decide (stopButton d ≠ None);
     stop_found := bool_decide (stopButton d ≠ None);
     stop_visible :=
       match stopButton d with Some b => shown b | None => false end;
     send_found :=
       match sendButton d with SendElement _ => true | _ => false end;
     send_disabled :=
       match sendButton d with SendElement e => disabled e | _ => false end;
     send_visible :=
       match sendButton d with SendElement e => shown e | _ => false end |}.

(** [getDOMCompletionState()]: [None] is the [null] returned when the
    inspection throws or yields no value; the call stays pending when
    [executeJavaScript] is never settled. *)
Definition getDOMCompletionState (exec : Exec Dom)
  : Completion (option DomState) :=
  match exec with
  | Returned d => Returns (Some (domInspectionCode d))
  | NoValue => Returns None
  | Rejected => Returns None
  | Unsettled => Pending
  end.

(** [checkResponseCompletion(bodyText, extractedContent,
    getDOMCompletionState)], [exec] being how the inspection ends when
    the check calls it. *)
Definition checkResponseCompletion (bodyText extractedContent : string)
    (exec : Exec Dom) : Completion bool :=
  if String.eqb extractedContent "" || (Js.length extractedContent <? 20)
  then Returns false
  else if lastAnchorPosition bodyText =? -1 then Returns false
  else
    match getDOMCompletionState exec with
    | Throws msg => Throws msg
    | Pending => Pending
    | Returns None => Returns false
    | Returns (Some domState) =>
        let hasAnyContent := 10 <? Js.length (Js.trim extractedContent) in
        let claudeStillResponding :=
          isResponding domState && stop_visible domState in
        let responseComplete := negb claudeStillResponding && hasAnyContent in
        let sendButtonAvailable :=
          send_found domState && negb (send_disabled domState)
          && send_visible domState in
        if responseComplete then Returns true else Returns false
    end.

(** The line feed. *)
Definition lineFeed : ascii := ascii_of_nat 10.

(** [s.split('\n')] *)
Fixpoint splitLines (s : string) : list string :=
  match s with
  | EmptyString => [EmptyString]
  | String c rest =>
      if Ascii.eqb c lineFeed then EmptyString :: splitLines rest
      else
        match splitLines rest with
        | line :: lines => String c line :: lines
        | [] => [String c EmptyString]
        end
  end.

(** [lines.join('\n')] *)
Fixpoint joinLines (lines : list string) : string :=
  match lines with
  | [] => EmptyString
  | [line] => line
  | line :: rest => line +:+ String lineFeed (joinLines rest)
  end.

(** [s.startsWith(p)] *)
Definition startsWith (p s : string) : bool :=
  match Js.strip_prefix p s with
  | Some _ => true
  | None => false
  end.

(** [bridgeMessagePattern.test(line)] *)
Definition isBridgeMessage (line : string) : bool :=
  match bridgeHere line with
  | Some _ => true
  | None => false
  end.

(** [/^\d+\.\s*$/] *)
Definition isNumbering (line : string) : bool :=
  match many1 Js.is_digit line with
  | Some rest =>
      match Js.strip_prefix "." rest with
      | Some spaces => Js.all Js.is_space spaces
      | None => false
      end
  | None => false
  end.

(** [/^[A-Z]{1,3}$/] *)
Definition isShortCaps (line : string) : bool :=
  (1 <=? Js.length line) && (Js.length line <=? 3)
  && Js.all Js.is_upper line.

(** [/^[\-=]+$/] *)
Definition isSeparator (line : string) : bool :=
  negb (String.eqb line "")
  && Js.all (fun c => (Js.charCode c =? 45) || (Js.charCode c =? 61)) line.

(** [isUIContent(line)] *)
Definition isUIContent (line : string) : bool :=
  String.eqb line "New chat"
  || String.eqb line "Chats"
  || String.eqb line "Projects"
  || String.eqb line "Artifacts"
  || String.eqb line "Recents"
  || startsWith "Claude can make mistakes" line
  || startsWith "Smart, efficient model" line
  || startsWith "Add images, PDFs" line
  || isNumbering line
  || isShortCaps line
  || isSeparator line.

(** [isNavigationOrUI(line)] *)
Definition isNavigationOrUI (line : string) : bool :=
  isUIContent line
  || Js.includes "console.log" line
  || Js.includes "function(" line
  || Js.includes "Error:" line
  || startsWith "ben@oum:" line
  || startsWith "npm run" line
  || (startsWith "[" line && Js.includes "PM]" line).

(** The loop of [extractResponseAfterBridge] over the lines that
    follow the bridge message: the lines it pushes. *)
Fixpoint responseLines (lines : list string) : list string :=
  match lines with
  | [] => []
  | line :: rest =>
      if isBridgeMessage line then []
      else if Js.includes "Claude can make mistakes" line then []
      else if isUIContent line then responseLines rest
      else if (3 <? Js.length line) && negb (isNavigationOrUI line)
      then line :: responseLines rest
      else responseLines rest
  end.

(** [extractResponseAfterBridge(lines, bridgeLineIndex)]; the loop
    stops before index [bridgeLineIndex + 1000]. *)
Definition extractResponseAfterBridge (lines : list string)
    (bridgeLineIndex : nat) : string :=
  let response :=
    Js.trim (joinLines
               (responseLines (take 999 (drop (S bridgeLineIndex) lines)))) in
  if 20 <? Js.length response then response else EmptyString.

(** [extractRecentConversationContent(lines)] *)
Definition extractRecentConversationContent (lines : list string) : string :=
  let substantialLines :=
    List.filter (fun line => (20 <? Js.length line)
                             && negb (isNavigationOrUI line)
                             && negb (isUIContent line)) lines in
  Js.trim (joinLines (drop (List.length substantialLines - 10)
                           substantialLines)).

(** The index of the last bridge message among [lines], counted from
    [index]. *)
Fixpoint lastBridge (lines : list string) (index : nat) (found : option nat)
  : option nat :=
  match lines with
  | [] => found
  | line :: rest =>
      lastBridge rest (S index)
        (if isBridgeMessage line then Some index else found)
  end.

(** The lines of [parseConversationFromText]: trimmed, the empty ones
    dropped. *)
Definition textLines (bodyText : string) : list string :=
  List.filter (fun line => 0 <? Js.length line)
              (List.map Js.trim (splitLines bodyText)).

(** [parseConversationFromText(bodyText)] *)
Definition parseConversationFromText (bodyText : string) : string :=
  let lines := textLines bodyText in
  match lastBridge lines 0 None with
  | None => extractRecentConversationContent lines
  | Some lineIndex => extractResponseAfterBridge lines lineIndex
  end.

(** The object returned by [extractContentSimple] (without
    [timestamp]); [sr_complete] is absent from the failures. *)
Record SimpleResult := {
  sr_success : bool;
  sr_error : option string;
  sr_content : string;
  sr_contentLength : Z;
  sr_complete : option bool
}.

Definition simpleFailure (msg : string) : SimpleResult :=
  {| sr_success := false; sr_error := Some msg; sr_content := EmptyString;
     sr_contentLength := 0; sr_complete := None |}.

(** The page chosen by the search of [extractContentSimple]; its loop
    is the one of [findClaudePage], then the first page is taken. *)
Definition claudePage (pages : list Page) : option Page :=
  match WebSocketExtractor.findChatPage pages with
  | Some page => Some page
  | None => head pages
  end.

(** [extractContentSimple(chromeDebugPort)]: [pages] is the page list
    or the error thrown while fetching it, [bodyExec] how reading
    [document.body.innerText] ends, [domExec] how the inspection of
    the completion state ends.  The function catches what is thrown;
    it stays pending when one of its calls of [executeJavaScript] is
    never settled. *)
Definition extractContentSimple
    (pages : Completion (list Page))
    (bodyExec : Exec string) (domExec : Exec Dom)
  : Completion SimpleResult :=
  match pages with
  | Throws msg => Returns (simpleFailure msg)
  | Pending => Pending
  | Returns ps =>
      match claudePage ps with
      | None => Returns (simpleFailure "No Claude page found")
      | Some _ =>
          match bodyExec with
          | Returned (String c text) =>
              let conversationContent :=
                parseConversationFromText (String c text) in
              match checkResponseCompletion (String c text)
                      conversationContent domExec with
              | Returns isComplete =>
                  Returns
                    {| sr_success := true;
                       sr_error := None;
                       sr_content := conversationContent;
                       sr_contentLength := Js.length conversationContent;
                       sr_complete := Some isComplete |}
              | Throws _ => Returns (simpleFailure "Text extraction failed")
              | Pending => Pending
              end
          | Unsettled => Pending
          | _ => Returns (simpleFailure "Text extraction failed")
          end
      end
  end.

End SimpleExtraction.

(* ===================================================================== *)
(** * message-service.js: class MessageService                           *)
(* ===================================================================== *)

Module MessageService.
Import Surface.

(** The service between two turns of the event loop: its fields
    [initialized] and [activeExtractions] (each entry reduced to its
    [startTime]), and [monitors], the anchors of the calls of
    [webSocketExtractor.monitorForResponse] that have not resolved yet,
    one entry per call. *)
Record Service := {
  initialized : bool;
  activeExtractions : gmap string Z;
  monitors : list string
}.

(** [streamResponse(anchor, callback, options)] up to its [await];
    [callback] tells whether [typeof callback === 'function'].  The
    call throws when the service is not initialized and when the
    callback is no function; otherwise the anchor is recorded and the
    monitor is started. *)
Definition streamResponse (now : Z) (a : string) (callback : bool)
    (s : Service) : Completion Service :=
  if initialized s then
    if callback then
      Returns {| initialized := true;
                 activeExtractions := <[a := now]> (activeExtractions s);
                 monitors := a :: monitors s |}
    else Throws "Callback function required for streaming"
  else Throws "MessageService is not initialized".

(** One occurrence of [a] less. *)
Fixpoint removeOne (a : string) (l : list string) : list string :=
  match l with
  | [] => []
  | b :: rest => if String.eqb a b then rest else b :: removeOne a rest
  end.

(** The rest of [streamResponse], when a monitor of [a] resolves. *)
Definition streamResponseDone (a : string) (s : Service) : Service :=
  {| initialized := initialized s;
     activeExtractions := delete a (activeExtractions s);
     monitors := removeOne a (monitors s) |}.

(** The number of monitor loops running for [a]. *)
Definition running (a : string) (s : Service) : nat :=
  List.length (List.filter (String.eqb a) (monitors s)).

(** The counters of [this.statistics]; [averageResponseTime], a
    floating-point mean, is left out. *)
Record Counters := {
  injectionsCount : Z;
  extractionsCount : Z;
  successfulInjections : Z;
  successfulExtractions : Z
}.

(** The fields of the service that [injectMessage] and
    [extractResponse] read and write: [initialized], the counters and
    the maps of its [webSocketExtractor]. *)
Record Messaging := {
  ready : bool;
  counters : Counters;
  extractorState : WebSocketExtractor.State
}.

(** [new MessageService(config)] *)
Definition newMessaging : Messaging :=
  {| ready := false;
     counters := {| injectionsCount := 0; extractionsCount := 0;
                    successfulInjections := 0; successfulExtractions := 0 |};
     extractorState := WebSocketExtractor.create |}.

(** How [domInjector.injectMessage] ends: it throws, or it returns an
    object with the given [success] and [method]. *)
Inductive Injection :=
| InjectionThrows (msg : string)
| InjectionReturns (success : bool) (method : string).

(** The object returned by [injectMessage] (without [timestamp]). *)
Record Injected := {
  in_success : bool;
  in_anchor : string;
  in_method : string
}.

(** [injectMessage(content, anchor, options)]: the outcome and the
    service afterwards; [now] is the clock reading of
    [trackInjection]. *)
Definition injectMessage (now : Z) (a : string) (injection : Injection)
    (m : Messaging)
  : Completion Injected * Messaging :=
  if ready m then
    let c := counters m in
    let counted :=
      {| injectionsCount := injectionsCount c + 1;
         extractionsCount := extractionsCount c;
         successfulInjections := successfulInjections c;
         successfulExtractions := successfulExtractions c |} in
    match injection with
    | InjectionThrows msg =>
        (Throws msg,
         {| ready := true; counters := counted;
            extractorState := extractorState m |})
    | InjectionReturns false _ =>
        (Throws "DOM injection failed",
         {| ready := true; counters := counted;
            extractorState := extractorState m |})
    | InjectionReturns true method =>
        (Returns
           {| in_success := true; in_anchor := a; in_method := method |},
         {| ready := true;
            counters :=
              {| injectionsCount := injectionsCount counted;
                 extractionsCount := extractionsCount counted;
                 successfulInjections := successfulInjections counted + 1;
                 successfulExtractions := successfulExtractions counted |};
            extractorState :=
              (WebSocketExtractor.trackInjection now a (extractorState m)).2 |})
    end
  else (Throws "MessageService is not initialized", m).

(** The object returned by [extractResponse] (without [timestamp]). *)
Record Extracted := {
  er_success : bool;
  er_content : string;
  er_complete : bool;
  er_metadata : option WebSocketExtractor.ExtractionMetadata
}.

(** [extractResponse(anchor, { retries })]: the outcome and the
    service afterwards; the call stays pending when the extraction
    does, the attempt already counted. *)
Definition extractResponse (a : string) (retries : nat)
    (view : WebSocketExtractor.View) (m : Messaging)
  : Completion Extracted * Messaging :=
  if ready m then
    let c := counters m in
    let counted :=
      {| injectionsCount := injectionsCount c;
         extractionsCount := extractionsCount c + 1;
         successfulInjections := successfulInjections c;
         successfulExtractions := successfulExtractions c |} in
    match WebSocketExtractor.extractContent (Some a) retries view with
    | Throws msg =>
        (Throws msg,
         {| ready := true; counters := counted;
            extractorState := extractorState m |})
    | Pending =>
        (Pending,
         {| ready := true; counters := counted;
            extractorState := extractorState m |})
    | Returns result =>
        if WebSocketExtractor.ex_success result then
          (Returns
             {| er_success := true;
                er_content := WebSocketExtractor.ex_content result;
                er_complete := WebSocketExtractor.ex_complete result;
                er_metadata := WebSocketExtractor.ex_metadata result |},
           {| ready := true;
              counters :=
                {| injectionsCount := injectionsCount counted;
                   extractionsCount := extractionsCount counted;
                   successfulInjections := successfulInjections counted;
                   successfulExtractions :=
                     successfulExtractions counted + 1 |};
              extractorState := extractorState m |})
        else
          (Throws
             ("Extraction failed: "
              +:+ match WebSocketExtractor.ex_message result with
                  | Some (String c msg) => String c msg
                  | _ => "Unknown error"
                  end),
           {| ready := true; counters := counted;
              extractorState := extractorState m |})
    end
  else (Throws "MessageService is not initialized", m).

End MessageService.

(* ===================================================================== *)
(** * The API server: ClaudeDesktopAPIServer.startProactiveMonitoring    *)
(* ===================================================================== *)

Module ClaudeDesktopAPIServer.

(** The server between two turns of the event loop: the field
    [activeMonitoring] ([None] until the first call creates the set),
    the intervals set and not cleared, each with the anchor it polls
    for, the pending auto-cleanup timers, each with the interval and
    the anchor it closes over, and the next timer id. *)
Record Server := {
  activeMonitoring : option (gset string);
  intervals : list (nat * string);
  cleanups : list (nat * string);
  nextId : nat
}.

Definition create : Server :=
  {| activeMonitoring := None; intervals := []; cleanups := []; nextId := O |}.

(** [startProactiveMonitoring(anchor)] *)
Definition startProactiveMonitoring (a : string) (s : Server) : Server :=
  match activeMonitoring s with
  | Some active =>
      if decide (a ∈ active) then s
      else
        {| activeMonitoring := Some ({[a]} ∪ active);
           intervals := (nextId s, a) :: intervals s;
           cleanups := (nextId s, a) :: cleanups s;
           nextId := S (nextId s) |}
  | None =>
      {| activeMonitoring := Some {[a]};
         intervals := (nextId s, a) :: intervals s;
         cleanups := (nextId s, a) :: cleanups s;
         nextId := S (nextId s) |}
  end.

Definition clearInterval (i : nat) (l : list (nat * string))
  : list (nat * string) :=
  List.filter (fun e => negb (Nat.eqb (fst e) i)) l.

(** The interval [i] of anchor [a] sees a complete response:
    [clearInterval(monitorInterval); this.activeMonitoring.delete(anchor)]. *)
Definition responseComplete (i : nat) (a : string) (s : Server) : Server :=
  {| activeMonitoring := (fun m => m ∖ {[a]}) <$> activeMonitoring s;
     intervals := clearInterval i (intervals s);
     cleanups := cleanups s;
     nextId := nextId s |}.

(** The auto-cleanup timer of interval [i] and anchor [a] fires. *)
Definition autoCleanup (i : nat) (a : string) (s : Server) : Server :=
  {| activeMonitoring := (fun m => m ∖ {[a]}) <$> activeMonitoring s;
     intervals := clearInterval i (intervals s);
     cleanups := clearInterval i (cleanups s);
     nextId := nextId s |}.

(** The number of polling intervals running for [a]. *)
Definition polling (a : string) (s : Server) : nat :=
  List.length (List.filter (fun e => String.eqb a (snd e)) (intervals s)).

End ClaudeDesktopAPIServer.

(* ===================================================================== *)
(** * Notions used to state the properties, and sample data              *)
(* ===================================================================== *)

Section RegistryNotions.
Import AnchorService.

(** What [decimal_loop] produces: a non-empty run of digits in front
    of the accumulator, which reads back as [n] and has as many digits
    as [n] needs. *)
Record rendering (n : Z) (ds : string) : Prop := {
  rd_digits : Js.all Js.is_digit ds = true;
  rd_nonempty : ds <> EmptyString;
  rd_value : forall acc, Js.parse_digits ds acc
                         = acc * 10 ^ Z.of_nat (String.length ds) + n;
  rd_upper : n < 10 ^ Z.of_nat (String.length ds);
  rd_lower : n = 0 \/ 10 ^ (Z.of_nat (String.length ds) - 1) <= n
}.

(** A service in which one anchor was tracked and then marked as
    streaming, and the record it holds. *)
Definition streamingFields : Fields :=
  {| f_anchor := None; f_createdAt := None; f_status := Some "streaming";
     f_contextId := None; f_lastActivity := None |}.

Definition streamingService : Service :=
  (updateAnchor 1700000001000 "msg_1700000000000_abc123" streamingFields
     (trackAnchor 1700000000000 1700000000000 "msg_1700000000000_abc123"
        noFields (create defaultConfig)).2).2.

Definition streamingRecord : AnchorRecord :=
  {| anchor := "msg_1700000000000_abc123"; createdAt := 1700000000000;
     status := "streaming"; contextId := None;
     lastActivity := 1700000001000 |}.

End RegistryNotions.

Section MonitorNotions.
Import Surface WebSocketExtractor.

(** The length of the content of an update, and of [lastContent]. *)
Definition size_of (u : StreamUpdate) : Z := Js.length (su_content u).
Definition gathered (l : Loop) : Z := Js.length (lastContent l).

(** [lo <= size u1 <= size u2 <= ... <= hi] *)
Fixpoint chain (lo : Z) (ups : list StreamUpdate) (hi : Z) : Prop :=
  match ups with
  | [] => lo <= hi
  | u :: rest => lo <= size_of u /\ chain (size_of u) rest hi
  end.

(** The content of the last update, [dflt] when there is none. *)
Definition latest (dflt : string) (ups : list StreamUpdate) : string :=
  default dflt (su_content <$> last ups).

(** A run of the monitor: the injected message carries the anchor,
    the response grows over three polls, and the stop button is gone
    at the third. *)
Definition demoAnchor : string := "msg_1700000000000_abc123".

Definition demoPages : option (list Page) :=
  Some [{| url := "https://claude.ai/chat/1"; title := "Claude";
           type := "page"; webSocketDebuggerUrl := "ws://localhost:9223/1" |}].

Definition stopShown : Element :=
  {| hidden := false; display := "flex"; visibility := "visible";
     disabled := false |}.

Definition demoDom (busy : bool) (response : string) : Dom :=
  {| stopButton := if busy then Some stopShown else None;
     textInput := true;
     sendCandidate := None;
     selectorMatches :=
       [["[BRIDGE: #town | User: ben | 2025-08-09 12:34:56 | ANCHOR: msg_1700000000000_abc123] hello";
         response]];
     conversationContainer := None;
     latestMessages := [];
     bodyText := "";
     pasted := fun _ _ => None |}.

Definition demoView (d : Dom) : View :=
  {| pages := demoPages; scripts := fun _ _ => Returned d |}.

Definition demoTick (t : Z) (busy : bool) (response : string) : Tick :=
  {| now := t;
     responding := true;
     extraction := demoView (demoDom busy response);
     completionPages := demoPages;
     completionExec := Returned (demoDom busy response);
     finalExtraction := demoView (demoDom busy response);
     updateThrows := false;
     finalThrows := false |}.

Definition demoState : State :=
  (trackInjection 1700000000000 demoAnchor WebSocketExtractor.create).2.

Definition demoTicks : list Tick :=
  [demoTick 1700000001000 true "Hello! How can";
   demoTick 1700000002000 true "Hello! How can I help";
   demoTick 1700000003000 false "Hello! How can I help you today?"].

(** The loop has neither resolved the promise nor stalled: the timer
    of the next run is set. *)
Definition waiting (r : Run) : Prop :=
  resolved r = None /\ stalled r = false.

(** In the run that observes [tk], begun with the variables [l], the
    completion probe is consulted and answers [true]: the response
    has started, the extraction returns, and the callback does not
    throw on the update. *)
Definition fires (a : string) (callback : bool) (tk : Tick) (l : Loop)
  : Prop :=
  (responseStarted l = true \/ responding tk = true)
  /\ (exists result,
        extractContent (Some a) 1 (extraction tk) = Returns result
        /\ (newContent a callback tk result (setStarted l)).2 = false)
  /\ detectResponseCompletion (completionPages tk) (completionExec tk)
     = Returns true.

(** A run that finds the whole response and an idle page, but cannot
    reach the debugger for the final extraction. *)
Definition unreachable : View :=
  {| pages := None; scripts := fun _ _ => Rejected |}.

Definition lostFinalTick : Tick :=
  {| now := 1700000001000;
     responding := true;
     extraction := demoView (demoDom false "Hello! How can I help you today?");
     completionPages := demoPages;
     completionExec :=
       Returned (demoDom false "Hello! How can I help you today?");
     finalExtraction := unreachable;
     updateThrows := false;
     finalThrows := false |}.

Definition demoResult : MonitorResult :=
  {| mr_success := true; mr_content := "Hello! How can I help you today?";
     mr_complete := true; mr_anchor := demoAnchor; mr_message := None;
     mr_elapsed := 3000 |}.

End MonitorNotions.

Section CompletionNotions.
Import Surface WebSocketExtractor SimpleExtraction.

(** A document that differs from [d] in the text input and the send
    button only. *)
Definition withInput (d : Dom) (input : bool) (candidate : option Element)
  : Dom :=
  {| stopButton := stopButton d; textInput := input;
     sendCandidate := candidate; selectorMatches := selectorMatches d;
     conversationContainer := conversationContainer d;
     latestMessages := latestMessages d; bodyText := bodyText d;
     pasted := pasted d |}.

Definition idleDom : Dom :=
  {| stopButton := None; textInput := true; sendCandidate := None;
     selectorMatches := []; conversationContainer := None;
     latestMessages := []; bodyText := "";
     pasted := fun _ _ => None |}.

End CompletionNotions.

Section ExtractionNotions.
Import Surface WebSocketExtractor.

Definition answeringDom : Dom :=
  {| stopButton := Some stopShown; textInput := true; sendCandidate := None;
     selectorMatches :=
       [["[BRIDGE: #town | User: ben | 2025-08-09 12:34:56 | ANCHOR: msg_1700000000000_abc123] hello";
         "Hello! How can I help you today?"]];
     conversationContainer := None; latestMessages := [];
     bodyText := ""; pasted := fun _ _ => None |}.

Definition answeringView : View :=
  {| pages := Some [{| url := "https://claude.ai/chat/1"; title := "Claude";
                       type := "page";
                       webSocketDebuggerUrl := "ws://localhost:9223/1" |}];
     scripts := fun _ _ => Returned answeringDom |}.

(** No anchor, or an anchor that the scripts hold as a string
    literal of its own value. *)
Definition plainAnchor (anchorHash : option string) : bool :=
  match anchorHash with
  | Some a => quotable a
  | None => true
  end.

(** An anchor that closes the quotes it is pasted into.  The first
    anchor script then begins
    [const anchorId = 'x'; return {content:'0123456789ab', complete:false}; '';]
    and what follows is never run. *)
Definition craftedAnchor : string :=
  "x'; return {content:'0123456789ab', complete:false}; '".

End ExtractionNotions.

Section SingleFlightNotions.
Import MessageService ClaudeDesktopAPIServer.

(** A message service after [initialize], nothing streaming. *)
Definition idleService : Service :=
  {| initialized := true; activeExtractions := ∅; monitors := [] |}.

End SingleFlightNotions.

Section ValidatorNotions.
Import AnchorService.

(** The class [[a-zA-Z0-9]] of the legacy format. *)
Definition is_alnum (c : ascii) : bool :=
  Js.is_lower c || Js.is_upper c || Js.is_digit c.

(** The service after the calls of [generateAnchor] that meet the
    clock readings and random strings [draws], in order. *)
Fixpoint generateAll (draws : list (Z * string)) (svc : Service) : Service :=
  match draws with
  | [] => svc
  | (now, rnd) :: rest => generateAll rest (generateAnchor now rnd svc).2
  end.

(** The statistics after some calls of [generateAnchor]: nothing
    generated yet, or the oldest and the newest id are generated ids
    whose timestamps bracket all the clock readings met. *)
Definition bracketed (st : Statistics) (seen : list (Z * string)) : Prop :=
  (seen = [] /\ oldestAnchor st = None /\ newestAnchor st = None)
  \/ exists lo rlo hi rhi,
       oldestAnchor st = Some (anchorId lo rlo)
       /\ newestAnchor st = Some (anchorId hi rhi)
       /\ (lo, rlo) ∈ seen /\ (hi, rhi) ∈ seen
       /\ forall d, d ∈ seen -> lo <= d.1 <= hi.

End ValidatorNotions.

Section ExtractorNotions.
Import Surface WebSocketExtractor.

(** [s[0]*31^(n-1) + s[1]*31^(n-2) + ... + s[n-1]] *)
Fixpoint polynomial (s : string) : Z :=
  match s with
  | EmptyString => 0
  | String c rest =>
      Js.charCode c * 31 ^ Z.of_nat (String.length rest) + polynomial rest
  end.

(** The test of the loop of [findClaudePage]. *)
Definition isChatPage (page : Page) : bool :=
  (Js.includes "claude.ai" (url page) && negb (Js.includes "login" (url page)))
  || (Js.includes "Claude" (title page) && String.eqb (type page) "page").

End ExtractorNotions.

Section AttemptNotions.
Import Surface WebSocketExtractor.

(** An answer that ends the loops of [extractContent]: a value with
    more than ten characters of content. *)
Definition usable (e : Exec ExtractedData) : bool :=
  match e with
  | Returned v => 10 <? Js.length (ed_content v)
  | _ => false
  end.

(** An answer after which the loops go on to the next attempt: it
    arrived, and it is not usable. *)
Definition passes (e : Exec ExtractedData) : Prop :=
  usable e = false /\ e <> Unsettled.

End AttemptNotions.

Section StreamNotions.
Import Surface WebSocketExtractor.

(** Like [chain], but an update that is not final is strictly longer
    than what precedes it. *)
Fixpoint steps (lo : Z) (ups : list StreamUpdate) (hi : Z) : Prop :=
  match ups with
  | [] => lo <= hi
  | u :: rest =>
      (if su_complete u then lo <= size_of u else lo < size_of u)
      /\ steps (size_of u) rest hi
  end.

End StreamNotions.

Section MarkerNotions.
Import Surface SimpleExtraction.

(** [s.substring(p)]: [s] without its first [p] characters. *)
Fixpoint suffixFrom (p : nat) (s : string) : string :=
  match p, s with
  | O, _ => s
  | S p', String _ s' => suffixFrom p' s'
  | S _, EmptyString => EmptyString
  end.

End MarkerNotions.

Section ServerNotions.
Import ClaudeDesktopAPIServer.

(** What happens to the server between two turns of the event loop: a
    request to monitor an anchor, an interval seeing a complete
    response, the auto-cleanup timer of an interval firing. *)
Inductive Event :=
| Request (a : string)
| Completes (i : nat) (a : string)
| CleansUp (i : nat) (a : string).

Definition step (e : Event) (s : Server) : Server :=
  match e with
  | Request a => startProactiveMonitoring a s
  | Completes i a => responseComplete i a s
  | CleansUp i a => autoCleanup i a s
  end.

Fixpoint run (events : list Event) (s : Server) : Server :=
  match events with
  | [] => s
  | e :: rest => run rest (step e s)
  end.

(** Every completion and every auto-cleanup in [events] belongs to an
    interval that is running when it happens. *)
Fixpoint live (events : list Event) (s : Server) : Prop :=
  match events with
  | [] => True
  | e :: rest =>
      match e with
      | Request _ => True
      | Completes i a => (i, a) ∈ intervals s
      | CleansUp i a => (i, a) ∈ intervals s
      end
      /\ live rest (step e s)
  end.

(** The anchors in [activeMonitoring]. *)
Definition active (s : Server) : gset string :=
  default ∅ (activeMonitoring s).

(** The invariant: at most one interval per anchor, the anchors
    polled are those in [activeMonitoring], and the ids of the
    intervals are distinct and below [nextId]. *)
Definition single_flight (s : Server) : Prop :=
  (forall a, (polling a s <= 1)%nat)
  /\ (forall a, a ∈ active s <-> exists i, (i, a) ∈ intervals s)
  /\ (forall i a, (i, a) ∈ intervals s -> (i < nextId s)%nat)
  /\ (forall i a b, (i, a) ∈ intervals s -> (i, b) ∈ intervals s -> a = b).

End ServerNotions.

Section MessagingNotions.
Import Surface WebSocketExtractor MessageService.

(** A call of the service, with what it meets. *)
Inductive Call :=
| Inject (now : Z) (a : string) (injection : Injection)
| Extract (a : string) (retries : nat) (view : View).

Definition call (c : Call) (m : Messaging) : Messaging :=
  match c with
  | Inject now a injection => (injectMessage now a injection m).2
  | Extract a retries view => (extractResponse a retries view m).2
  end.

Fixpoint calls (cs : list Call) (m : Messaging) : Messaging :=
  match cs with
  | [] => m
  | c :: rest => calls rest (call c m)
  end.

(** The calls that count as attempts: those made on an initialized
    service. *)
Definition injections (cs : list Call) : list Call :=
  List.filter (fun c => match c with Inject _ _ _ => true | _ => false end) cs.

Definition extractions (cs : list Call) : list Call :=
  List.filter (fun c => match c with Extract _ _ _ => true | _ => false end) cs.

End MessagingNotions.

Section TextNotions.
Import Surface SimpleExtraction.

(** A line at which the loop of [extractResponseAfterBridge] stops. *)
Definition boundary (line : string) : bool :=
  isBridgeMessage line || Js.includes "Claude can make mistakes" line.

Definition demoBridge : string :=
  "[BRIDGE: #town | User: ben | 2025-08-09 12:34:56 | ANCHOR: msg_1700000000000_abc123] hello".

Definition demoFooter : string :=
  "Claude can make mistakes. Please double-check responses.".

Definition demoBody : string :=
  "New chat" +:+ String lineFeed
  ("  " +:+ demoBridge +:+ String lineFeed
  (String lineFeed
  ("Hello there, this is the answer." +:+ String lineFeed
  ("OK" +:+ String lineFeed
  ("Second line of the answer" +:+ String lineFeed
  (demoFooter +:+ String lineFeed "trailing")))))).

End TextNotions.

(* ===================================================================== *)
(** * Properties                                                         *)
(* ===================================================================== *)

Section JsFacts.

Lemma digit_char_spec d :
  0 <= d <= 9 ->
  Js.is_digit (Js.digit_char d) = true /\ Js.charCode (Js.digit_char d) - 48 = d.
Proof.
  intros Hd.
  assert (Hcases : d = 0 \/ d = 1 \/ d = 2 \/ d = 3 \/ d = 4 \/ d = 5 \/
                   d = 6 \/ d = 7 \/ d = 8 \/ d = 9) by lia.
  repeat destruct Hcases as [-> | Hcases]; try subst d; split; reflexivity.
Qed.

Lemma append_cons x (a b : string) : String x a +:+ b = String x (a +:+ b).
Proof. reflexivity. Qed.

Lemma append_nil_l (b : string) : EmptyString +:+ b = b.
Proof. reflexivity. Qed.

Lemma append_nil_r (a : string) : a +:+ EmptyString = a.
Proof. induction a as [|x a IH]; [reflexivity | by rewrite append_cons, IH]. Qed.

Lemma append_assoc (a b c : string) : (a +:+ b) +:+ c = a +:+ (b +:+ c).
Proof.
  induction a as [|x a IH]; [reflexivity |].
  by rewrite !append_cons, IH.
Qed.

Lemma length_append (a b : string) :
  String.length (a +:+ b) = (String.length a + String.length b)%nat.
Proof.
  induction a as [|x a IH]; [reflexivity |].
  rewrite append_cons. cbn [String.length]. by rewrite IH.
Qed.

Lemma all_append cls (a b : string) :
  Js.all cls (a +:+ b) = Js.all cls a && Js.all cls b.
Proof.
  induction a as [|x a IH]; [reflexivity |].
  rewrite append_cons. cbn [Js.all]. by rewrite IH, andb_assoc.
Qed.

Lemma parse_digits_append (a b : string) acc :
  Js.parse_digits (a +:+ b) acc = Js.parse_digits b (Js.parse_digits a acc).
Proof.
  revert acc; induction a as [|x a IH]; intros acc; [reflexivity |].
  rewrite append_cons. cbn [Js.parse_digits]. apply IH.
Qed.

Lemma rendering_single n :
  0 <= n -> n / 10 = 0 ->
  rendering n (String (Js.digit_char (n mod 10)) EmptyString).
Proof.
  intros Hn Hq.
  pose proof (Z.mod_pos_bound n 10 ltac:(lia)) as Hmod.
  destruct (digit_char_spec (n mod 10) ltac:(lia)) as [Hdig Hcode].
  pose proof (Z.div_mod n 10 ltac:(lia)) as Hdm.
  assert (n mod 10 = n) as Hsame by lia.
  split.
  - cbn [Js.all]. by rewrite Hdig.
  - done.
  - intros a. cbn [Js.parse_digits String.length]. rewrite Hcode.
    change (10 ^ Z.of_nat 1) with 10. lia.
  - cbn [String.length]. change (10 ^ Z.of_nat 1) with 10. lia.
  - cbn [String.length]. change (10 ^ (Z.of_nat 1 - 1)) with 1. lia.
Qed.

Lemma rendering_snoc n ds :
  0 <= n -> n / 10 <> 0 -> rendering (n / 10) ds ->
  rendering n (ds +:+ String (Js.digit_char (n mod 10)) EmptyString).
Proof.
  intros Hn Hq [Hd Hne Hv Hu Hl].
  pose proof (Z.mod_pos_bound n 10 ltac:(lia)) as Hmod.
  destruct (digit_char_spec (n mod 10) ltac:(lia)) as [Hdig Hcode].
  pose proof (Z.div_mod n 10 ltac:(lia)) as Hdm.
  assert (Hlen : Z.of_nat (String.length
             (ds +:+ String (Js.digit_char (n mod 10)) EmptyString))
           = Z.of_nat (String.length ds) + 1).
  { rewrite length_append. cbn [String.length]. lia. }
  split.
  - rewrite all_append, Hd. cbn [Js.all andb]. by rewrite Hdig.
  - destruct ds; done.
  - intros a. rewrite parse_digits_append, Hv, Hlen.
    cbn [Js.parse_digits].
    rewrite Hcode, Z.pow_add_r by lia. lia.
  - rewrite Hlen, Z.pow_add_r by lia. lia.
  - right. rewrite Hlen.
    replace (Z.of_nat (String.length ds) + 1 - 1)
      with (Z.of_nat (String.length ds) - 1 + 1) by lia.
    destruct Hl as [Hz | Hl]; [lia |].
    assert (0 <= Z.of_nat (String.length ds) - 1).
    { destruct ds; [done | cbn [String.length]; lia]. }
    rewrite Z.pow_add_r by lia. lia.
Qed.

Lemma decimal_loop_step fuel n acc :
  Js.decimal_loop (S fuel) n acc
  = if n / 10 =? 0 then String (Js.digit_char (n mod 10)) acc
    else Js.decimal_loop fuel (n / 10) (String (Js.digit_char (n mod 10)) acc).
Proof. reflexivity. Qed.

Lemma decimal_loop_rendering fuel : forall n acc,
  0 <= n < 2 ^ Z.of_nat (S fuel) ->
  exists ds, Js.decimal_loop (S fuel) n acc = ds +:+ acc /\ rendering n ds.
Proof.
  induction fuel as [|fuel IH]; intros n acc Hn;
    rewrite decimal_loop_step; destruct (n / 10 =? 0) eqn:Hq.
  - apply Z.eqb_eq in Hq.
    exists (String (Js.digit_char (n mod 10)) EmptyString).
    split; [reflexivity |]. apply rendering_single; lia.
  - apply Z.eqb_neq in Hq. exfalso. apply Hq.
    apply Z.div_small. change (2 ^ Z.of_nat 1) with 2 in Hn. lia.
  - apply Z.eqb_eq in Hq.
    exists (String (Js.digit_char (n mod 10)) EmptyString).
    split; [reflexivity |]. apply rendering_single; lia.
  - apply Z.eqb_neq in Hq.
    assert (0 <= n / 10 < 2 ^ Z.of_nat (S fuel)) as Hn'.
    { split; [apply Z.div_pos; lia |].
      apply Z.div_lt_upper_bound; [lia |].
      rewrite (Nat2Z.inj_succ (S fuel)), Z.pow_succ_r in Hn by lia. lia. }
    destruct (IH (n / 10) (String (Js.digit_char (n mod 10)) acc) Hn')
      as (ds & Heq & Hr).
    exists (ds +:+ String (Js.digit_char (n mod 10)) EmptyString).
    split.
    + rewrite Heq, append_assoc. reflexivity.
    + apply rendering_snoc; [lia | done | done].
Qed.

Lemma decimal_rendering n : 0 <= n -> rendering n (Js.decimal n).
Proof.
  intros Hn. unfold Js.decimal.
  destruct (decimal_loop_rendering (Z.to_nat (Z.log2 n)) n EmptyString)
    as (ds & Heq & Hr).
  - split; [lia |].
    destruct (Z.eq_dec n 0) as [-> | Hnz]; [by vm_compute |].
    rewrite Nat2Z.inj_succ, Z2Nat.id by apply Z.log2_nonneg.
    apply Z.log2_spec. lia.
  - rewrite Heq.
    by rewrite append_nil_r.
Qed.

Lemma strip_prefix_append (p s : string) :
  Js.strip_prefix p (p +:+ s) = Some s.
Proof.
  induction p as [|c p IH]; [reflexivity |].
  rewrite append_cons. cbn [Js.strip_prefix].
  by rewrite Ascii.eqb_refl.
Qed.

Lemma span_append cls (ds rest : string) :
  Js.all cls ds = true ->
  match rest with String c _ => cls c = false | EmptyString => True end ->
  Js.span cls (ds +:+ rest) = (ds, rest).
Proof.
  intros Hall Hrest. induction ds as [|c ds IH].
  - rewrite append_nil_l. destruct rest as [|c r]; [reflexivity |].
    cbn [Js.span]. by rewrite Hrest.
  - cbn [Js.all] in Hall. apply andb_true_iff in Hall as [Hc Hds].
    rewrite append_cons. cbn [Js.span]. by rewrite Hc, (IH Hds).
Qed.

End JsFacts.

Section AnchorIds.
Import AnchorService.

(** The pattern [/msg_(\d+)_/] finds the digits of an id laid out as
    [msg_<digits>_<suffix>]. *)
Lemma match_msg_layout (ds suffix : string) :
  Js.all Js.is_digit ds = true -> ds <> EmptyString ->
  match_msg ("msg_" +:+ ds +:+ "_" +:+ suffix) = Some ds.
Proof.
  intros Hd Hne.
  assert (Hhere : match_msg_here ("msg_" +:+ ds +:+ "_" +:+ suffix) = Some ds).
  { unfold match_msg_here. rewrite strip_prefix_append.
    rewrite (span_append Js.is_digit ds ("_" +:+ suffix) Hd)
      by reflexivity.
    destruct ds; [done | reflexivity]. }
  destruct ("msg_" +:+ ds +:+ "_" +:+ suffix) eqn:E; cbn [match_msg];
    by rewrite Hhere.
Qed.

Lemma toString_nonneg n : 0 <= n -> Js.toString n = Js.decimal n.
Proof.
  intros Hn. unfold Js.toString.
  destruct (n <? 0) eqn:E; [apply Z.ltb_lt in E; lia | reflexivity].
Qed.

Lemma extractTimestamp_anchorId now rnd :
  0 <= now -> extractTimestamp (anchorId now rnd) = Some now.
Proof.
  intros Hn. unfold extractTimestamp, anchorId.
  rewrite toString_nonneg by done.
  destruct (decimal_rendering now Hn) as [Hd Hne Hv _ _].
  rewrite match_msg_layout by done.
  cbn [fmap option_fmap option_map]. unfold Js.parseInt. rewrite Hv. f_equal; lia.
Qed.

(** C8: [extractTimestamp] applied to the id that [generateAnchor]
    builds at the clock reading [now] returns [now], for every
    reading from the epoch on ([Date.now()] is never negative on a
    clock set after 1970) and every random suffix. *)
Theorem extractTimestamp_generateAnchor now rnd svc :
  0 <= now ->
  extractTimestamp (generateAnchor now rnd svc).1 = Some now.
Proof. intros Hn. apply extractTimestamp_anchorId, Hn. Qed.

Lemma extractTimestamp_generateAnchor_witness :
  extractTimestamp
    (generateAnchor 1700000000000 "0.4fzyo82mvyr" (create defaultConfig)).1
  = Some 1700000000000.
Proof. apply extractTimestamp_generateAnchor. lia. Defined.

Lemma repeat_cls_append cls (ds rest : string) :
  Js.all cls ds = true ->
  Js.repeat_cls (String.length ds) cls (ds +:+ rest) = Some rest.
Proof.
  induction ds as [|c ds IH]; intros Hall; [reflexivity |].
  cbn [Js.all] in Hall. apply andb_true_iff in Hall as [Hc Hds].
  rewrite append_cons. cbn [String.length Js.repeat_cls].
  rewrite Hc. by apply IH.
Qed.

Lemma decimal_13_digits now :
  10 ^ 12 <= now < 10 ^ 13 -> String.length (Js.decimal now) = 13%nat.
Proof.
  intros Hn.
  destruct (decimal_rendering now ltac:(lia)) as [_ _ _ Hu Hl].
  destruct Hl as [Hz | Hl]; [lia |].
  set (L := Z.of_nat (String.length (Js.decimal now))) in *.
  assert (12 < L).
  { apply (Z.pow_lt_mono_r_iff 10); lia. }
  assert (L - 1 < 13).
  { apply (Z.pow_lt_mono_r_iff 10); lia. }
  lia.
Qed.

(** With a clock of thirteen digits, the validator accepts an id
    whose suffix is a non-empty run of base-36 digits. *)
Lemma isValidAnchor_anchorId now rnd :
  10 ^ 12 <= now < 10 ^ 13 ->
  Js.substring 2 8 rnd <> EmptyString ->
  Js.all (fun c => Js.is_lower c || Js.is_digit c) (Js.substring 2 8 rnd) = true ->
  isValidAnchor (anchorId now rnd) = true.
Proof.
  intros Hn Hne Hall. unfold isValidAnchor.
  apply orb_true_iff. right.
  unfold legacyFormat, valid_head, anchorId.
  rewrite toString_nonneg by lia.
  rewrite strip_prefix_append.
  destruct (decimal_rendering now ltac:(lia)) as [Hd _ _ _ _].
  rewrite <- (decimal_13_digits now Hn).
  rewrite repeat_cls_append by done.
  rewrite append_cons, append_nil_l.
  destruct (Js.substring 2 8 rnd) as [|c cs] eqn:E; [done |].
  clear -Hall. revert Hall. generalize (String c cs). intros s.
  induction s as [|x s IH]; [done |].
  cbn [Js.all]. intros H. apply andb_true_iff in H as [Hx Hs].
  rewrite (IH Hs), andb_true_r.
  apply orb_true_iff in Hx as [Hx | Hx]; rewrite Hx; by rewrite ?orb_true_r.
Qed.

End AnchorIds.

Section Registry.
Import AnchorService.

(** What the sweep leaves of an entry: it stays exactly when its
    [lastActivity] is not below the cutoff. *)
Lemma cleanupOldAnchors_lookup now svc a r :
  anchors (cleanupOldAnchors now svc).2 !! a = Some r
  <-> anchors svc !! a = Some r /\ cutoff now svc <= lastActivity r.
Proof.
  unfold cleanupOldAnchors. cbn [snd anchors].
  rewrite map_lookup_filter_Some. unfold expired. cbn [snd].
  split; intros [Hr Hle]; (split; [exact Hr | lia]).
Qed.

Lemma cleanupOldAnchors_lookup_None now svc a r :
  anchors svc !! a = Some r -> lastActivity r < cutoff now svc ->
  anchors (cleanupOldAnchors now svc).2 !! a = None.
Proof.
  intros Hr Hold.
  destruct (anchors (cleanupOldAnchors now svc).2 !! a) as [r'|] eqn:E;
    [| reflexivity].
  apply cleanupOldAnchors_lookup in E as [E Hle].
  rewrite Hr in E. injection E as ->. lia.
Qed.

(** C1, as stated, fails: a streaming record whose last activity is
    older than the cutoff is removed by the sweep. *)
Lemma cleanupOldAnchors_removes_streaming :
  ~ (forall (svc : Service) (now : Z) (a : string) (r : AnchorRecord),
        anchors svc !! a = Some r ->
        status r = "responding" \/ status r = "streaming" ->
        anchors (cleanupOldAnchors now svc).2 !! a = Some r).
Proof.
  intros H.
  specialize (H streamingService 1700090001001 "msg_1700000000000_abc123"
                streamingRecord).
  assert (Hgone : anchors (cleanupOldAnchors 1700090001001 streamingService).2
                    !! "msg_1700000000000_abc123" = None)
    by (vm_compute; reflexivity).
  rewrite Hgone in H. discriminate H.
  - vm_compute; reflexivity.
  - right; reflexivity.
Qed.

(** C1, amended: the sweep keeps a record in status [responding] or
    [streaming] exactly when its [lastActivity] is not older than the
    cutoff [now - maxAgeHours * 3600000]; an older one is removed, as
    the status is not consulted. *)
Theorem cleanupOldAnchors_in_flight now svc a r :
  anchors svc !! a = Some r ->
  status r = "responding" \/ status r = "streaming" ->
  (anchors (cleanupOldAnchors now svc).2 !! a = Some r
     <-> cutoff now svc <= lastActivity r)
  /\ (lastActivity r < cutoff now svc ->
      anchors (cleanupOldAnchors now svc).2 !! a = None).
Proof.
  intros Hr _. split.
  - rewrite cleanupOldAnchors_lookup. tauto.
  - by apply cleanupOldAnchors_lookup_None.
Qed.

Lemma cleanupOldAnchors_in_flight_witness :
  (anchors (cleanupOldAnchors 1700000002000 streamingService).2
     !! "msg_1700000000000_abc123" = Some streamingRecord
     <-> cutoff 1700000002000 streamingService <= lastActivity streamingRecord)
  /\ (lastActivity streamingRecord < cutoff 1700000002000 streamingService ->
      anchors (cleanupOldAnchors 1700000002000 streamingService).2
        !! "msg_1700000000000_abc123" = None).
Proof.
  apply (cleanupOldAnchors_in_flight 1700000002000 streamingService
           "msg_1700000000000_abc123" streamingRecord).
  - vm_compute; reflexivity.
  - right; reflexivity.
Defined.

(** C4, as stated, fails: tracking an id again gives the record a new
    [createdAt]. *)
Lemma trackAnchor_resets_createdAt :
  ~ (forall (svc : Service) (t1 t1' t2 t2' : Z) (a : string)
            (md1 md2 : Fields),
        createdAt <$> getAnchor a
          (trackAnchor t2 t2' a md2 (trackAnchor t1 t1' a md1 svc).2).2
        = createdAt <$> getAnchor a (trackAnchor t1 t1' a md1 svc).2).
Proof.
  intros H.
  specialize (H (create defaultConfig) 1000 1000 2000 2000
                "msg_1700000000000_abc123" noFields noFields).
  vm_compute in H. discriminate H.
Qed.

(** C4, amended: [trackAnchor] replaces the record of an id that is
    already tracked; after the second call [createdAt] is the second
    call's clock reading, or the [createdAt] its metadata carries. *)
Theorem trackAnchor_twice_createdAt (svc : Service) (t1 t1' t2 t2' : Z)
    (a : string) (md1 md2 : Fields) :
  createdAt <$> getAnchor a
    (trackAnchor t2 t2' a md2 (trackAnchor t1 t1' a md1 svc).2).2
  = Some (default t2 (f_createdAt md2)).
Proof.
  unfold getAnchor, trackAnchor. cbn [snd anchors].
  rewrite lookup_insert_eq. reflexivity.
Qed.

(** C10 at the input on which it fails: when [Math.random()] returns
    [0], whose rendering in base 36 is ["0"], the suffix is empty and
    the validator rejects the generated id. *)
Theorem isValidAnchor_rejects_generated :
  (generateAnchor 1700000000000 "0" (create defaultConfig)).1
    = "msg_1700000000000_"
  /\ isValidAnchor (generateAnchor 1700000000000 "0" (create defaultConfig)).1
     = false.
Proof. split; vm_compute; reflexivity. Qed.

End Registry.


Section Completion.
Import Surface WebSocketExtractor SimpleExtraction.

Lemma detectResponseCompletion_true pages exec :
  detectResponseCompletion pages exec = Returns true
  <-> is_Some (findClaudePage pages)
      /\ exists d, exec = Returned d /\ claudeStillResponding d = false.
Proof.
  unfold detectResponseCompletion.
  destruct (findClaudePage pages) as [p|].
  - destruct exec as [| |d|]; cbn [cd_complete completionCheck].
    + split; [done | intros [_ (d & Hd & _)]; done].
    + split; [done | intros [_ (d & Hd & _)]; done].
    + split.
      * intros [= H]. apply negb_true_iff in H.
        split; [by eexists | by exists d].
      * intros [_ (d' & Hd & Hb)]. injection Hd as ->. by rewrite Hb.
    + split; [done | intros [_ (d & Hd & _)]; done].
  - split; [done | intros [[p Hp] _]; done].
Qed.

(** The probe of the monitor never throws; it answers unless the
    evaluation on a page that was found is never settled. *)
Lemma detectResponseCompletion_outcome pages exec :
  (exists b, detectResponseCompletion pages exec = Returns b
             /\ (is_Some (findClaudePage pages) -> exec <> Unsettled))
  \/ (detectResponseCompletion pages exec = Pending
      /\ is_Some (findClaudePage pages) /\ exec = Unsettled).
Proof.
  unfold detectResponseCompletion.
  destruct (findClaudePage pages) as [p|].
  - destruct exec as [| |d|];
      [left | left | left | right; by split; [| split; [eexists |]]];
      eexists; (split; [reflexivity | done]).
  - left. eexists. split; [reflexivity |]. by intros [p Hp].
Qed.

Lemma short_content_length content :
  String.eqb content "" || (Js.length content <? 20) = (Js.length content <? 20).
Proof. destruct content; reflexivity. Qed.

Lemma domInspectionCode_busy d :
  isResponding (domInspectionCode d) && stop_visible (domInspectionCode d)
  = claudeStillResponding d.
Proof.
  unfold domInspectionCode, claudeStillResponding.
  cbn [isResponding stop_visible].
  destruct (stopButton d); [| reflexivity].
  by rewrite bool_decide_eq_true_2.
Qed.

Lemma checkResponseCompletion_true body content exec :
  checkResponseCompletion body content exec = Returns true
  <-> 20 <= Js.length content
      /\ lastAnchorPosition body <> -1
      /\ exists d, exec = Returned d
                   /\ claudeStillResponding d = false
                   /\ 10 < Js.length (Js.trim content).
Proof.
  unfold checkResponseCompletion. rewrite short_content_length.
  destruct (Js.length content <? 20) eqn:Hlen.
  { apply Z.ltb_lt in Hlen. split; [done | lia]. }
  apply Z.ltb_ge in Hlen.
  destruct (lastAnchorPosition body =? -1) eqn:Hpos.
  { apply Z.eqb_eq in Hpos. split; [done | tauto]. }
  apply Z.eqb_neq in Hpos.
  destruct exec as [| |d|]; cbn [getDOMCompletionState].
  - split; [done | intros (_ & _ & d & Hd & _); done].
  - split; [done | intros (_ & _ & d & Hd & _); done].
  - rewrite domInspectionCode_busy.
    destruct (claudeStillResponding d) eqn:Hbusy; cbn [negb andb].
    + split; [done | intros (_ & _ & d' & Hd & Hb & _)].
      injection Hd as <-. congruence.
    + destruct (10 <? Js.length (Js.trim content)) eqn:Htrim.
      * apply Z.ltb_lt in Htrim. split; [| done].
        intros _. split; [done |]. split; [done |]. by exists d.
      * apply Z.ltb_ge in Htrim. split; [done |].
        intros (_ & _ & d' & _ & _ & Hlt). lia.
  - split; [done | intros (_ & _ & d & Hd & _); done].
Qed.

(** The text based check never throws, and it answers when the
    inspection is settled. *)
Lemma checkResponseCompletion_settled body content exec :
  exec <> Unsettled ->
  exists b, checkResponseCompletion body content exec = Returns b.
Proof.
  intros Hexec. unfold checkResponseCompletion.
  destruct (_ || _); [by eexists |].
  destruct (_ =? _); [by eexists |].
  destruct exec as [| |d|]; cbn [getDOMCompletionState];
    [by eexists | by eexists | | done].
  destruct (_ && _); by eexists.
Qed.

(** C2, as stated, fails: the completion probe of the monitor answers
    [true] on an idle page whatever was extracted, also nothing. *)
Lemma detectResponseCompletion_ignores_content :
  ~ (forall (pages : option (list Page)) (d : Dom) (content : string),
        is_Some (findClaudePage pages) ->
        detectResponseCompletion pages (Returned d)
        = Returns (negb (claudeStillResponding d)
                   && (10 <? Js.length content))).
Proof.
  intros H. specialize (H demoPages idleDom "" ltac:(by eexists)).
  vm_compute in H. discriminate H.
Qed.

(** C2, amended: [detectResponseCompletion] declares completion
    exactly when the probe returns a value and no stop button is
    displayed, without consulting the content; [checkResponseCompletion]
    exactly when the content has at least 20 characters, a bridge
    marker occurs in the page text, the inspection returns a value, no
    stop button is displayed and the trimmed content has more than 10
    characters.  Neither depends on the text input or the send
    button. *)
Theorem completion_decision :
  (forall pages exec,
      detectResponseCompletion pages exec = Returns true
      <-> is_Some (findClaudePage pages)
          /\ exists d, exec = Returned d /\ claudeStillResponding d = false)
  /\ (forall body content exec,
      checkResponseCompletion body content exec = Returns true
      <-> 20 <= Js.length content
          /\ lastAnchorPosition body <> -1
          /\ exists d, exec = Returned d
                       /\ claudeStillResponding d = false
                       /\ 10 < Js.length (Js.trim content))
  /\ (forall pages body content d input candidate,
      detectResponseCompletion pages (Returned (withInput d input candidate))
      = detectResponseCompletion pages (Returned d)
      /\ checkResponseCompletion body content
           (Returned (withInput d input candidate))
         = checkResponseCompletion body content (Returned d)).
Proof.
  split; [exact detectResponseCompletion_true |].
  split; [exact checkResponseCompletion_true |].
  intros pages body content d input candidate. split.
  - unfold detectResponseCompletion. by destruct (findClaudePage pages).
  - unfold checkResponseCompletion.
    destruct (_ || _); [reflexivity |].
    destruct (_ =? _); [reflexivity |].
    cbn [getDOMCompletionState].
    by rewrite !domInspectionCode_busy.
Qed.

(** C7: when the probe of the busy indicator is rejected, yields no
    value or is never settled, neither completion check answers
    [true], whatever the extracted content: a probe that is settled
    makes both answer [false], one that is not leaves the check
    pending.  [detectResponseCompletion] answers [false] as well when
    no page is found. *)
Theorem completion_needs_busy_indicator
    (pages : option (list Page)) (exec : Exec Dom) (body content : string) :
  (forall d, exec <> Returned d) ->
  checkResponseCompletion body content exec <> Returns true
  /\ detectResponseCompletion pages exec <> Returns true
  /\ (exec <> Unsettled ->
      checkResponseCompletion body content exec = Returns false
      /\ detectResponseCompletion pages exec = Returns false)
  /\ (forall exec', detectResponseCompletion None exec' = Returns false)
  /\ (forall exec', detectResponseCompletion (Some []) exec' = Returns false).
Proof.
  intros Hexec.
  assert (Hcheck : checkResponseCompletion body content exec <> Returns true).
  { rewrite checkResponseCompletion_true.
    intros (_ & _ & d & Hd & _). by apply (Hexec d). }
  assert (Hdetect : detectResponseCompletion pages exec <> Returns true).
  { rewrite detectResponseCompletion_true.
    intros (_ & d & Hd & _). by apply (Hexec d). }
  split; [exact Hcheck |]. split; [exact Hdetect |].
  split; [| by split].
  intros Hsettled. split.
  - destruct (checkResponseCompletion_settled body content exec Hsettled)
      as [[|] Hb]; [done | exact Hb].
  - destruct (detectResponseCompletion_outcome pages exec)
      as [([|] & Hb & _) | (_ & _ & Hun)]; done.
Qed.

Lemma completion_needs_busy_indicator_witness :
  checkResponseCompletion
    "[BRIDGE: #town | User: ben | 2025-08-09 12:34:56 | ANCHOR: msg_1700000000000_abc123]"
    "A response that is long enough to count as content." Rejected
  <> Returns true
  /\ detectResponseCompletion demoPages Rejected <> Returns true
  /\ (@Rejected Dom <> Unsettled ->
      checkResponseCompletion
        "[BRIDGE: #town | User: ben | 2025-08-09 12:34:56 | ANCHOR: msg_1700000000000_abc123]"
        "A response that is long enough to count as content." Rejected
      = Returns false
      /\ detectResponseCompletion demoPages Rejected = Returns false)
  /\ (forall exec', detectResponseCompletion None exec' = Returns false)
  /\ (forall exec', detectResponseCompletion (Some []) exec' = Returns false).
Proof.
  apply (completion_needs_busy_indicator demoPages Rejected).
  intros d. discriminate.
Defined.

End Completion.


Section Extraction.
Import Surface WebSocketExtractor.

(** A successful result of the inner loop is built from one of the
    answers of the page. *)
Lemma attempts_Some anchorHash queryIndex probe remaining :
  forall attempt r,
    attempts anchorHash queryIndex probe attempt remaining = Found r ->
    exists k v, probe k = Returned v
                /\ 10 < Js.length (ed_content v)
                /\ r = extracted anchorHash queryIndex k v.
Proof.
  induction remaining as [|remaining IH]; intros attempt r H; [done |].
  cbn [attempts] in H.
  destruct (probe attempt) as [| |v|] eqn:Hp; try (by apply IH in H);
    [| done].
  destruct (10 <? Js.length (ed_content v)) eqn:Hlen; [| by apply IH in H].
  injection H as <-. exists attempt, v.
  apply Z.ltb_lt in Hlen. done.
Qed.

Lemma queriesFrom_Some anchorHash retries probe remaining :
  forall queryIndex r,
    queriesFrom anchorHash retries probe queryIndex remaining = Found r ->
    exists q k v, (queryIndex <= q < queryIndex + remaining)%nat
                  /\ probe q k = Returned v
                  /\ 10 < Js.length (ed_content v)
                  /\ r = extracted anchorHash q k v.
Proof.
  induction remaining as [|remaining IH]; intros queryIndex r H; [done |].
  cbn [queriesFrom] in H.
  destruct (attempts anchorHash queryIndex (probe queryIndex) 0 retries)
    as [r'| |] eqn:Ha; [| | done].
  - injection H as <-. apply attempts_Some in Ha as (k & v & Hp & Hl & ->).
    exists queryIndex, k, v. split; [lia | done].
  - apply IH in H as (q & k & v & Hq & Hrest).
    exists q, k, v. split; [lia | done].
Qed.

Lemma extractWith_success anchorHash retries probe count r :
  extractWith anchorHash retries probe count = Returns r ->
  ex_success r = true ->
  exists q k v, (q < count)%nat
                /\ probe q k = Returned v
                /\ 10 < Js.length (ed_content v)
                /\ r = extracted anchorHash q k v.
Proof.
  unfold extractWith.
  destruct (queriesFrom anchorHash retries probe 0 count) as [r'| |] eqn:Hq;
    [| by intros [= <-] | done].
  intros [= <-] _.
  apply queriesFrom_Some in Hq as (q & k & v & Hlt & Hp & Hl & ->).
  exists q, k, v. split; [lia | done].
Qed.

(** None of the generated scripts puts a [complete] property in its
    value. *)
Lemma runQuery_complete q d v :
  (forall i a, q <> Pasted i a) ->
  runQuery q d = Some v -> ed_complete v = None.
Proof.
  destruct q as [a | a | | | i a]; cbn [runQuery]; intros Hq H.
  - destruct (AnchorService.match_msg a); [| by injection H as <-].
    destruct (afterAnchored _ _); [| by injection H as <-].
    destruct (firstResponse _ _); by injection H as <-.
  - destruct (conversationContainer d); [| by injection H as <-].
    destruct (afterAnchored _ _) as [[|t ts]|]; try by injection H as <-.
    destruct (_ && _); by injection H as <-.
  - destruct (last (latestMessages d)) as [[text tag]|]; [| done].
    by injection H as <-.
  - destruct (50 <? Js.length (bodyText d)); [| done].
    by injection H as <-.
  - by destruct (Hq i a).
Qed.

(** The scripts generated for a plain anchor are the intended ones. *)
Lemma generateExtractionQueries_intended anchorHash q i :
  plainAnchor anchorHash = true ->
  generateExtractionQueries anchorHash !! i = Some q ->
  forall j a, q <> Pasted j a.
Proof.
  unfold generateExtractionQueries, plainAnchor.
  destruct anchorHash as [[|c s]|]; intros Hplain; try rewrite Hplain;
    destruct i as [|[|i]]; cbn; intros [= <-] || intros [=]; done.
Qed.

Lemma answers_complete anchorHash view q k v :
  plainAnchor anchorHash = true ->
  answers (generateExtractionQueries anchorHash) view q k = Returned v ->
  ed_complete v = None.
Proof.
  intros Hplain. unfold answers.
  destruct (generateExtractionQueries anchorHash !! q) as [qu|] eqn:Hq;
    [| done].
  unfold evaluate. destruct (scripts view q k) as [| |d|]; try done.
  destruct (runQuery qu d) as [v'|] eqn:Hrun; [| done].
  intros H. injection H as <-.
  eapply runQuery_complete; [| exact Hrun].
  by eapply generateExtractionQueries_intended.
Qed.

(** C9: an anchor that closes the quotes it is pasted into makes the
    first script return what the anchor says, here twelve characters
    of content and [complete: false]; [extractContent] then returns a
    success that is reported as not complete.  The anchor reaches
    [extractContent] as any other: no caller looks at its
    characters. *)
Theorem extractContent_reports_incomplete :
  quotable craftedAnchor = false
  /\ generateExtractionQueries (Some craftedAnchor)
     = [Pasted 0 craftedAnchor; Pasted 1 craftedAnchor]
  /\ exists r,
       extractContent (Some craftedAnchor) 3 answeringView = Returns r
       /\ ex_success r = true
       /\ ex_content r = "0123456789ab"
       /\ ex_complete r = false.
Proof.
  split; [reflexivity |]. split; [reflexivity |].
  eexists. split; [vm_compute; reflexivity |]. done.
Qed.

(** A successful extraction is built from an answer of the page
    with more than ten characters of content, and its [complete] is
    [false] only when that answer carries [complete: false]; the
    scripts generated without an anchor, or for an anchor without
    quote, backslash and line break, never do, so every successful
    [extractContent] for such an anchor reports [complete = true],
    without any completion probe. *)
Lemma extractContent_reports_complete :
  (forall anchorHash retries probe count r,
      extractWith anchorHash retries probe count = Returns r ->
      ex_success r = true ->
      exists q k v,
        probe q k = Returned v
        /\ ex_content r = ed_content v
        /\ (ex_complete r = false <-> ed_complete v = Some false))
  /\ (forall anchorHash retries view r,
      plainAnchor anchorHash = true ->
      extractContent anchorHash retries view = Returns r ->
      ex_success r = true -> ex_complete r = true).
Proof.
  split.
  - intros anchorHash retries probe count r Hr Hs.
    destruct (extractWith_success _ _ _ _ _ Hr Hs)
      as (q & k & v & _ & Hp & _ & ->).
    exists q, k, v. split; [done |]. split; [done |].
    cbn [ex_complete extracted]. rewrite negb_false_iff.
    apply bool_decide_eq_true.
  - intros anchorHash retries view r Hplain H Hs.
    unfold extractContent in H.
    destruct (pages view); [| done].
    destruct (findClaudePage _); [| done].
    destruct (extractWith_success _ _ _ _ _ H Hs)
      as (q & k & v & _ & Hp & _ & ->).
    apply answers_complete in Hp; [| done].
    cbn [ex_complete extracted]. by rewrite Hp.
Qed.

End Extraction.


Section Monitor.
Import Surface WebSocketExtractor.

Variables (a : string) (timeout startTime : Z) (callback : bool).

Lemma chain_bounds lo ups hi : chain lo ups hi -> lo <= hi.
Proof.
  revert lo; induction ups as [|u ups IH]; intros lo; cbn [chain]; [done |].
  intros [H1 H2]. apply IH in H2. lia.
Qed.

Lemma chain_app lo ups mid ups' hi :
  chain lo ups mid -> chain mid ups' hi -> chain lo (ups ++ ups') hi.
Proof.
  revert lo; induction ups as [|u ups IH]; intros lo; cbn [chain app].
  - intros Hlo Hc. destruct ups' as [|v ups']; cbn [chain] in *; [lia |].
    split; [lia | tauto].
  - intros [H1 H2] Hc. split; [done | by apply IH].
Qed.

Lemma chain_lookup lo ups hi (i j : nat) u v :
  chain lo ups hi -> (i <= j)%nat ->
  ups !! i = Some u -> ups !! j = Some v -> size_of u <= size_of v.
Proof.
  revert lo i j. induction ups as [|w ups IH]; intros lo i j Hc Hij Hi Hj;
    [done |].
  cbn [chain] in Hc. destruct Hc as [Hlo Hc].
  destruct i as [|i]; cbn in Hi.
  - injection Hi as ->. destruct j as [|j]; cbn in Hj.
    + injection Hj as ->. lia.
    + clear -Hc Hj. revert j Hj. generalize dependent (size_of u).
      induction ups as [|x ups IH]; intros z Hc j Hj; [done |].
      cbn [chain] in Hc. destruct Hc as [Hz Hc].
      destruct j as [|j]; cbn in Hj.
      * injection Hj as ->. done.
      * specialize (IH _ Hc j Hj). lia.
  - destruct j as [|j]; [lia |]. cbn in Hj.
    eapply (IH _ i j); [exact Hc | lia | done | done].
Qed.

Lemma latest_app dflt ups ups' :
  latest dflt (ups ++ ups') = latest (latest dflt ups) ups'.
Proof.
  unfold latest. destruct ups' as [|v ups'] using rev_ind.
  - by rewrite app_nil_r.
  - by rewrite app_assoc, !last_snoc.
Qed.

(** The block that looks for new content sends at most one update,
    never a final one, and only content longer than the last. *)
Lemma newContent_spec tk result l ups l' thrown :
  newContent a callback tk result l = (ups, l', thrown) ->
  chain (gathered l) ups (gathered l')
  /\ (callback = true -> latest (lastContent l) ups = lastContent l')
  /\ Forall (fun u => su_complete u = false) ups
  /\ responseStarted l' = responseStarted l.
Proof.
  unfold newContent.
  destruct (ex_success result && negb (String.eqb (ex_content result) "")).
  2:{ intros H; injection H as <- <- <-. cbn [chain]. repeat split; [lia | done]. }
  destruct (isContentNew a (ex_content result) (extractor l)) as [isNew st].
  destruct (isNew && _) eqn:Hnew.
  2:{ intros H; injection H as <- <- <-. cbn [chain]. repeat split; [|done].
      unfold gathered. cbn. lia. }
  apply andb_true_iff in Hnew as [_ Hlt]. apply Z.ltb_lt in Hlt.
  destruct callback; intros H; injection H as <- <- <-.
  - cbn [chain]. unfold size_of, gathered. cbn. repeat split; try lia.
    by repeat constructor.
  - cbn [chain]. unfold gathered. cbn. repeat split; [lia | done | done].
Qed.

(** The final block keeps the order and, when it resolves, has just
    sent the final update. *)
Lemma finish_spec tk elapsed lo dflt ups l :
  chain lo ups (gathered l) ->
  (callback = true -> latest dflt ups = lastContent l) ->
  let r := finish a callback tk elapsed ups l in
  chain lo (emitted r) (gathered (after r))
  /\ (callback = true -> latest dflt (emitted r) = lastContent (after r))
  /\ (forall res, resolved r = Some res ->
        res = completeResult a (after r) elapsed
        /\ (callback = true ->
            last (emitted r) = Some (update a (after r) true))).
Proof.
  intros Hc Hl. unfold finish.
  destruct (extractContent (Some a) 2 (finalExtraction tk)) as [msg|fin|].
  { cbn [again emitted after resolved]. repeat split; done. }
  2:{ cbn [stall emitted after resolved]. repeat split; done. }
  set (l1 := if _ && _ then _ else l).
  assert (Hl1 : gathered l <= gathered l1).
  { subst l1. destruct (ex_success fin && _) eqn:E; [| lia].
    apply andb_true_iff in E as [_ E]. apply Z.ltb_lt in E.
    unfold gathered, setLastContent. cbn [lastContent]. lia. }
  assert (Hfinal : chain lo (ups ++ [update a l1 true]) (gathered l1)).
  { eapply chain_app; [exact Hc |].
    cbn [chain]. unfold size_of, gathered, update in *.
    cbn [su_content]. lia. }
  assert (Hlatest : latest dflt (ups ++ [update a l1 true])
                    = lastContent l1).
  { unfold latest. by rewrite last_snoc. }
  destruct callback.
  - destruct (finalThrows tk); cbn [again emitted after resolved].
    + repeat split; done.
    + repeat split; [done | done | congruence |].
      intros _. by rewrite last_snoc.
  - cbn [emitted after resolved]. repeat split.
    + eapply chain_app with (ups' := []) in Hc; [| exact Hl1].
      by rewrite app_nil_r in Hc.
    + done.
    + congruence.
    + done.
Qed.

(** One run of [streamMonitor]. *)
Lemma streamMonitor_spec tk l :
  let r := streamMonitor a timeout startTime callback tk l in
  chain (gathered l) (emitted r) (gathered (after r))
  /\ (callback = true -> latest (lastContent l) (emitted r)
                         = lastContent (after r))
  /\ (forall res, resolved r = Some res ->
        mr_content res = lastContent (after r)
        /\ (mr_complete res = true -> mr_success res = true)
        /\ (mr_complete res = true -> callback = true ->
            last (emitted r) = Some (update a (after r) true))).
Proof.
  unfold streamMonitor.
  destruct (timeout <=? now tk - startTime).
  { cbn [emitted after resolved chain]. split; [lia |]. split; [done |].
    intros res H. injection H as <-. done. }
  destruct (negb (responseStarted l) && negb (responding tk)).
  { cbn [again emitted after resolved chain]. split; [lia |]. done. }
  destruct (extractContent (Some a) 1 (extraction tk)) as [msg|result|].
  { cbn [again emitted after resolved chain].
    split; [unfold gathered, setStarted; cbn [lastContent]; lia |]. done. }
  2:{ cbn [stall emitted after resolved chain].
      split; [unfold gathered, setStarted; cbn [lastContent]; lia |]. done. }
  destruct (newContent a callback tk result (setStarted l))
    as [[ups l2] thrown] eqn:Hnew.
  apply newContent_spec in Hnew as (Hc & Hl & _ & _).
  change (gathered (setStarted l)) with (gathered l) in Hc.
  change (lastContent (setStarted l)) with (lastContent l) in Hl.
  destruct thrown; [cbn [again emitted after resolved]; done |].
  destruct (detectResponseCompletion _ _) as [msg|[|]|];
    [cbn [again emitted after resolved]; done
    | | cbn [again emitted after resolved]; done
    | cbn [stall emitted after resolved]; done].
  destruct (finish_spec tk (now tk - startTime) (gathered l) (lastContent l)
              ups l2 Hc Hl) as (H1 & H2 & H3).
  split; [done |]. split; [done |].
  intros res Hres. apply H3 in Hres as [-> Hlast]. done.
Qed.

(** The whole loop. *)
Lemma monitorLoop_spec ticks : forall l,
  let r := monitorLoop a timeout startTime callback ticks l in
  chain (gathered l) (emitted r) (gathered (after r))
  /\ (callback = true -> latest (lastContent l) (emitted r)
                         = lastContent (after r))
  /\ (forall res, resolved r = Some res ->
        mr_content res = lastContent (after r)
        /\ (mr_complete res = true -> mr_success res = true)
        /\ (mr_complete res = true -> callback = true ->
            exists u, last (emitted r) = Some u
                      /\ su_complete u = true
                      /\ su_content u = mr_content res)).
Proof.
  induction ticks as [|tk ticks IH]; intros l; cbn zeta.
  { cbn [monitorLoop again emitted after resolved chain].
    split; [lia |]. done. }
  cbn [monitorLoop].
  destruct (streamMonitor_spec tk l) as (Hc & Hl & Hres).
  destruct (resolved (streamMonitor a timeout startTime callback tk l))
    as [res|] eqn:Hr.
  - split; [done |]. split; [done |].
    intros res' Hres'. rewrite Hr in Hres'. injection Hres' as <-.
    destruct (Hres res eq_refl) as (H1 & H2 & H3).
    split; [done |]. split; [done |].
    intros Hcomplete Hcb. eexists. split; [by apply H3 |].
    by rewrite H1.
  - destruct (stalled (streamMonitor a timeout startTime callback tk l)).
    { split; [done |]. split; [done |]. intros res' Hres'. congruence. }
    destruct (IH (after (streamMonitor a timeout startTime callback tk l)))
      as (Hc' & Hl' & Hres').
    cbn [emitted after resolved]. split; [by eapply chain_app |].
    split.
    + intros Hcb. rewrite latest_app, (Hl Hcb). by apply Hl'.
    + intros res Hsome. destruct (Hres' res Hsome) as (H1 & H2 & H3).
      split; [done |]. split; [done |].
      intros Hcomplete Hcb.
      destruct (H3 Hcomplete Hcb) as (u & Hlast & Hu).
      exists u. split; [| done].
      destruct (emitted (monitorLoop _ _ _ _ ticks _)) as [|x xs]
        using rev_ind; [done |].
      rewrite last_snoc in Hlast. by rewrite app_assoc, last_snoc.
Qed.

(** Before the timeout, a run whose extraction ends and whose
    completion probe answers [false] sets the timer for the next
    run. *)
Lemma streamMonitor_pending tk l :
  now tk - startTime < timeout ->
  extractContent (Some a) 1 (extraction tk) <> Pending ->
  detectResponseCompletion (completionPages tk) (completionExec tk)
  = Returns false ->
  waiting (streamMonitor a timeout startTime callback tk l).
Proof.
  intros Hnow Hext Hdet. unfold streamMonitor, waiting.
  destruct (timeout <=? now tk - startTime) eqn:E;
    [apply Z.leb_le in E; lia |].
  destruct (_ && _); [done |].
  destruct (extractContent _ _ _); [done | | done].
  destruct (newContent _ _ _ _ _) as [[ups l2] thrown].
  destruct thrown; [done |]. by rewrite Hdet.
Qed.

Lemma monitorLoop_pending ticks : forall l,
  (forall tk, tk ∈ ticks -> now tk - startTime < timeout) ->
  (forall tk, tk ∈ ticks ->
     extractContent (Some a) 1 (extraction tk) <> Pending) ->
  (forall tk, tk ∈ ticks ->
     detectResponseCompletion (completionPages tk) (completionExec tk)
     = Returns false) ->
  waiting (monitorLoop a timeout startTime callback ticks l).
Proof.
  induction ticks as [|tk ticks IH]; intros l Hnow Hext Hdet; [done |].
  cbn [monitorLoop].
  destruct (streamMonitor_pending tk l) as [Hres Hrun];
    [apply Hnow | apply Hext | apply Hdet | ]; try apply list_elem_of_here.
  rewrite Hres, Hrun. unfold waiting. cbn [resolved stalled].
  apply IH; intros t Ht.
  - apply Hnow. by apply list_elem_of_further.
  - apply Hext. by apply list_elem_of_further.
  - apply Hdet. by apply list_elem_of_further.
Qed.

(** The loop over more observations goes on from where it stands. *)
Lemma monitorLoop_app ticks ticks' : forall l,
  waiting (monitorLoop a timeout startTime callback ticks l) ->
  let r := monitorLoop a timeout startTime callback ticks l in
  let r' := monitorLoop a timeout startTime callback ticks' (after r) in
  monitorLoop a timeout startTime callback (ticks ++ ticks') l
  = {| emitted := emitted r ++ emitted r'; after := after r';
       resolved := resolved r'; stalled := stalled r' |}.
Proof.
  unfold waiting.
  induction ticks as [|tk ticks IH]; intros l [Hnone Hrun]; cbn zeta.
  { cbn [app monitorLoop again emitted after].
    by destruct (monitorLoop _ _ _ _ ticks' l). }
  cbn [app monitorLoop] in *. revert Hnone Hrun.
  destruct (resolved (streamMonitor a timeout startTime callback tk l))
    eqn:E; [congruence |].
  destruct (stalled (streamMonitor a timeout startTime callback tk l))
    eqn:Es; [congruence |].
  cbn [resolved emitted after stalled]. intros Hnone Hrun.
  rewrite (IH _ (conj Hnone Hrun)). cbn [emitted after resolved stalled].
  by rewrite app_assoc.
Qed.

Lemma streamMonitor_timeout tk l :
  timeout <= now tk - startTime ->
  streamMonitor a timeout startTime callback tk l
  = {| emitted := []; after := l;
       resolved := Some (timeoutResult a l (now tk - startTime));
       stalled := false |}.
Proof.
  intros H. unfold streamMonitor.
  by destruct (timeout <=? now tk - startTime) eqn:E;
    [| apply Z.leb_gt in E; lia].
Qed.

(** A run in which the completion probe fires goes on to the final
    block. *)
Lemma streamMonitor_fires tk l :
  now tk - startTime < timeout ->
  fires a callback tk l ->
  exists result ups l2,
    extractContent (Some a) 1 (extraction tk) = Returns result
    /\ newContent a callback tk result (setStarted l) = (ups, l2, false)
    /\ streamMonitor a timeout startTime callback tk l
       = finish a callback tk (now tk - startTime) ups l2.
Proof.
  intros Hnow (Hstarted & (result & Hext & Hthrown) & Hdet).
  exists result.
  destruct (newContent a callback tk result (setStarted l))
    as [[ups l2] thrown] eqn:Hnew.
  cbn [snd] in Hthrown. subst thrown. exists ups, l2.
  split; [done |]. split; [done |].
  unfold streamMonitor.
  destruct (timeout <=? now tk - startTime) eqn:E;
    [apply Z.leb_le in E; lia |].
  destruct (negb (responseStarted l) && negb (responding tk)) eqn:Hs.
  { apply andb_true_iff in Hs as [H1 H2].
    apply negb_true_iff in H1, H2. destruct Hstarted; congruence. }
  by rewrite Hext, Hnew, Hdet.
Qed.

(** A stalled loop stays as it is, whatever would be observed. *)
Lemma monitorLoop_stalled ticks more : forall l,
  stalled (monitorLoop a timeout startTime callback ticks l) = true ->
  monitorLoop a timeout startTime callback (ticks ++ more) l
  = monitorLoop a timeout startTime callback ticks l.
Proof.
  induction ticks as [|tk ticks IH]; intros l Hst; [done |].
  cbn [app monitorLoop] in *.
  destruct (resolved (streamMonitor a timeout startTime callback tk l));
    [done |].
  destruct (stalled (streamMonitor a timeout startTime callback tk l));
    [done |].
  cbn [stalled] in Hst. by rewrite (IH _ Hst).
Qed.

(** A run whose extraction is never answered never ends: it sets no
    timer and resolves nothing, so the promise stays pending whatever
    would be observed later, the timeout included. *)
Lemma monitorLoop_never_answered before tk more l :
  waiting (monitorLoop a timeout startTime callback before l) ->
  now tk - startTime < timeout ->
  responseStarted (after (monitorLoop a timeout startTime callback before l))
  = true \/ responding tk = true ->
  extractContent (Some a) 1 (extraction tk) = Pending ->
  let r := monitorLoop a timeout startTime callback (before ++ tk :: more) l in
  resolved r = None /\ stalled r = true
  /\ emitted r = emitted (monitorLoop a timeout startTime callback before l).
Proof.
  intros Hwait Hnow Hstarted Hext. cbn zeta.
  rewrite (monitorLoop_app before (tk :: more) l Hwait).
  cbn [resolved stalled emitted]. cbn [monitorLoop].
  assert (Hrun : streamMonitor a timeout startTime callback tk
                   (after (monitorLoop a timeout startTime callback before l))
                 = stall [] (setStarted
                     (after (monitorLoop a timeout startTime callback
                               before l)))).
  { unfold streamMonitor.
    destruct (timeout <=? now tk - startTime) eqn:E;
      [apply Z.leb_le in E; lia |].
    destruct (negb _ && negb _) eqn:Hs; [| by rewrite Hext].
    apply andb_true_iff in Hs as [H1 H2].
    apply negb_true_iff in H1, H2. destruct Hstarted; congruence. }
  rewrite Hrun. cbn [stall resolved stalled emitted].
  by rewrite app_nil_r.
Qed.

End Monitor.

Section MonitorClaims.
Import Surface WebSocketExtractor.

(** C5, as stated, fails: the completion probe fires in a run begun
    before the timeout, but the final extraction of that run cannot
    reach the debugger and throws; the exception is caught, no final
    update is sent, and the next run meets the timeout.  The only
    update passed to the callback has [complete = false]. *)
Lemma monitorForResponse_final_update_lost :
  ~ (forall (a : string) (timeout startTime : Z) (callback : bool)
            (before : list Tick) (tk : Tick) (rest : list Tick) (st : State),
        waiting (monitorForResponse a timeout startTime callback before st) ->
        now tk - startTime < timeout ->
        fires a callback tk
          (after (monitorForResponse a timeout startTime callback before st)) ->
        exists u,
          last (emitted (monitorForResponse a timeout startTime callback
                           (before ++ tk :: rest) st)) = Some u
          /\ su_complete u = true).
Proof.
  intros H.
  destruct (H demoAnchor 2500 1700000000000 true [] lostFinalTick
              [demoTick 1700000003000 false
                 "Hello! How can I help you today?"]
              demoState) as (u & Hlast & Hu).
  - split; reflexivity.
  - cbn; lia.
  - split; [by right |]. split; [| vm_compute; reflexivity].
    exists (extracted (Some demoAnchor) 0 0
              (scriptValue "Hello! How can I help you today?" (Some 2)
                 None None)).
    split; vm_compute; reflexivity.
  - vm_compute in Hlast. injection Hlast as <-. discriminate Hu.
Qed.

(** C5, amended: the updates passed to the callback by one call of
    [monitorForResponse] come with contents of non-decreasing length;
    when the call resolves with [complete = true] and a callback was
    given, the last update passed has [complete = true] and the
    content of the result; and the call does so in the run in which
    the completion probe fires before the timeout, provided the final
    extraction of that run returns and the callback does not throw on
    the final update. *)
Theorem monitorForResponse_updates (a : string) (timeout startTime : Z)
    (callback : bool) (ticks : list Tick) (st : State) :
  let r := monitorForResponse a timeout startTime callback ticks st in
  (forall (i j : nat) (u v : StreamUpdate),
      (i <= j)%nat -> emitted r !! i = Some u -> emitted r !! j = Some v ->
      Js.length (su_content u) <= Js.length (su_content v))
  /\ (forall res, resolved r = Some res -> mr_complete res = true ->
        callback = true ->
        exists u, last (emitted r) = Some u
                  /\ su_complete u = true
                  /\ su_content u = mr_content res)
  /\ (forall before tk rest,
        ticks = before ++ tk :: rest ->
        waiting (monitorForResponse a timeout startTime callback before st) ->
        now tk - startTime < timeout ->
        fires a callback tk
          (after (monitorForResponse a timeout startTime callback before st)) ->
        (exists finalResult,
            extractContent (Some a) 2 (finalExtraction tk)
            = Returns finalResult) ->
        callback = true -> finalThrows tk = false ->
        exists u res,
          last (emitted r) = Some u /\ su_complete u = true
          /\ resolved r = Some res /\ mr_complete res = true
          /\ mr_success res = true
          /\ su_content u = mr_content res).
Proof.
  cbn zeta. unfold monitorForResponse.
  set (l0 := {| lastContent := ""; responseStarted := false;
                extractor := st |}).
  destruct (monitorLoop_spec a timeout startTime callback ticks l0)
    as (Hc & _ & Hres).
  split; [| split].
  - intros i j u v Hij Hi Hj. by eapply chain_lookup.
  - intros res Hsome Hcomplete Hcb.
    destruct (Hres res Hsome) as (_ & _ & H). by apply H.
  - intros before tk rest -> Hwait Hnow Hfires (fin & Hfin) Hcb Hft.
    rewrite (monitorLoop_app a timeout startTime callback before
               (tk :: rest) l0 Hwait).
    cbn [emitted resolved].
    destruct (streamMonitor_fires a timeout startTime callback tk _
                Hnow Hfires) as (result & ups & l2 & _ & _ & Hrun).
    cbn [monitorLoop]. rewrite Hrun. unfold finish.
    rewrite Hfin, Hcb, Hft. cbn [resolved emitted].
    eexists _, _. split; [by rewrite !app_assoc, last_snoc |].
    done.
Qed.

(** C6, as stated, fails.  [elapsed] is read once, when a run of
    [streamMonitor] begins, and the timeout is looked at nowhere else:
    a run begun before the timeout whose completion probe answers
    after it still resolves the promise with [success = true] and
    [complete = true].  Here [answered t] is the clock reading at
    which the completion probe of the run that observes [t] answers:
    three seconds after the run began, one millisecond before the
    timeout. *)
Lemma monitorForResponse_completes_late :
  ~ (forall (a : string) (timeout startTime : Z) (callback : bool)
            (ticks : list Tick) (st : State) (answered : Tick -> Z),
        (forall t, t ∈ ticks -> now t <= answered t) ->
        (forall t, t ∈ ticks ->
           detectResponseCompletion (completionPages t) (completionExec t)
           = Returns true ->
           timeout <= answered t - startTime) ->
        forall res,
          resolved (monitorForResponse a timeout startTime callback ticks st)
          = Some res ->
          mr_success res = false /\ mr_complete res = false).
Proof.
  intros H.
  destruct (H demoAnchor 2500 1700000000000 true
              [demoTick 1700000002499 false "Hello! How can I help you today?"]
              demoState (fun t => now t + 3000)
              ltac:(intros t _; cbv beta; lia)
              ltac:(intros t Ht _;
                    apply list_elem_of_singleton in Ht as ->; cbn; lia)
              {| mr_success := true;
                 mr_content := "Hello! How can I help you today?";
                 mr_complete := true; mr_anchor := demoAnchor;
                 mr_message := None; mr_elapsed := 2499 |})
    as [Hs _].
  - vm_compute; reflexivity.
  - discriminate Hs.
Qed.

(** C6, amended: when every run begun before the timeout has an
    extraction that ends and a completion probe that answers [false],
    the first run begun at or after the timeout resolves the promise
    with [success = false], [complete = false] and the content
    gathered so far, which is the content of the last update passed
    to the callback, if any. *)
Theorem monitorForResponse_timeout (a : string) (timeout startTime : Z)
    (callback : bool) (before : list Tick) (tk : Tick) (rest : list Tick)
    (st : State) :
  (forall t, t ∈ before -> now t - startTime < timeout) ->
  (forall t, t ∈ before ->
     extractContent (Some a) 1 (extraction t) <> Pending) ->
  (forall t, t ∈ before ->
     detectResponseCompletion (completionPages t) (completionExec t)
     = Returns false) ->
  timeout <= now tk - startTime ->
  let partial := monitorForResponse a timeout startTime callback before st in
  let r := monitorForResponse a timeout startTime callback
             (before ++ tk :: rest) st in
  resolved r
  = Some {| mr_success := false;
            mr_content := lastContent (after partial);
            mr_complete := false;
            mr_anchor := a;
            mr_message := Some "Response monitoring timeout";
            mr_elapsed := now tk - startTime |}
  /\ emitted r = emitted partial
  /\ (callback = true ->
      lastContent (after partial) = latest "" (emitted partial)).
Proof.
  intros Hnow Hext Hdet Hout. cbn zeta. unfold monitorForResponse.
  set (l0 := {| lastContent := ""; responseStarted := false;
                extractor := st |}).
  pose proof (monitorLoop_pending a timeout startTime callback before l0
                Hnow Hext Hdet) as Hpending.
  rewrite (monitorLoop_app a timeout startTime callback before (tk :: rest)
             l0 Hpending).
  cbn [monitorLoop]. rewrite streamMonitor_timeout by done.
  cbn [resolved emitted after]. rewrite app_nil_r.
  split; [reflexivity |]. split; [reflexivity |].
  intros Hcb.
  destruct (monitorLoop_spec a timeout startTime callback before l0)
    as (_ & Hl & _).
  symmetry. by apply Hl.
Qed.

Lemma monitorForResponse_updates_witness :
  let r := monitorForResponse demoAnchor 60000 1700000000000 true
             demoTicks demoState in
  (forall (i j : nat) (u v : StreamUpdate),
      (i <= j)%nat -> emitted r !! i = Some u -> emitted r !! j = Some v ->
      Js.length (su_content u) <= Js.length (su_content v))
  /\ exists u, last (emitted r) = Some u
               /\ su_complete u = true
               /\ su_content u = mr_content demoResult.
Proof.
  destruct (monitorForResponse_updates demoAnchor 60000 1700000000000 true
              demoTicks demoState) as (Horder & Hfinal & _).
  split; [exact Horder |].
  apply (Hfinal demoResult); vm_compute; reflexivity.
Defined.

Lemma monitorForResponse_timeout_witness :
  let partial := monitorForResponse demoAnchor 2500 1700000000000 true
                   (take 2 demoTicks) demoState in
  let r := monitorForResponse demoAnchor 2500 1700000000000 true
             demoTicks demoState in
  resolved r
  = Some {| mr_success := false;
            mr_content := lastContent (after partial);
            mr_complete := false;
            mr_anchor := demoAnchor;
            mr_message := Some "Response monitoring timeout";
            mr_elapsed := 1700000003000 - 1700000000000 |}
  /\ emitted r = emitted partial
  /\ (true = true ->
      lastContent (after partial) = latest "" (emitted partial)).
Proof.
  apply (monitorForResponse_timeout demoAnchor 2500 1700000000000 true
           (take 2 demoTicks)
           (demoTick 1700000003000 false "Hello! How can I help you today?")
           []).
  - intros t Ht. cbn [take demoTicks] in Ht.
    apply elem_of_cons in Ht as [-> | Ht]; [cbn; lia |].
    apply elem_of_cons in Ht as [-> | Ht]; [cbn; lia |].
    by apply elem_of_nil in Ht.
  - intros t Ht. cbn [take demoTicks] in Ht.
    apply elem_of_cons in Ht as [-> | Ht]; [by vm_compute |].
    apply elem_of_cons in Ht as [-> | Ht]; [by vm_compute |].
    by apply elem_of_nil in Ht.
  - intros t Ht. cbn [take demoTicks] in Ht.
    apply elem_of_cons in Ht as [-> | Ht]; [reflexivity |].
    apply elem_of_cons in Ht as [-> | Ht]; [reflexivity |].
    by apply elem_of_nil in Ht.
  - cbn; lia.
Defined.

End MonitorClaims.


Section SingleFlight.
Import Surface MessageService ClaudeDesktopAPIServer.

(** C3, as stated, fails: a second [streamResponse] for an anchor
    whose first stream is still running starts a second monitor. *)
Lemma streamResponse_starts_second_monitor :
  ~ (forall (s0 s1 s2 : Service) (t1 t2 : Z) (a : string),
        monitors s0 = [] ->
        streamResponse t1 a true s0 = Returns s1 ->
        streamResponse t2 a true s1 = Returns s2 ->
        (running a s2 <= 1)%nat).
Proof.
  intros H.
  specialize (H idleService
                {| initialized := true;
                   activeExtractions := {["msg_1700000000000_abc123" := 1000]};
                   monitors := ["msg_1700000000000_abc123"] |}
                {| initialized := true;
                   activeExtractions :=
                     <["msg_1700000000000_abc123" := 2000]>
                       {["msg_1700000000000_abc123" := 1000]};
                   monitors := ["msg_1700000000000_abc123";
                                "msg_1700000000000_abc123"] |}
                1000 2000 "msg_1700000000000_abc123"
                eq_refl eq_refl eq_refl).
  vm_compute in H. lia.
Qed.

Lemma running_cons a b l init act :
  running a {| initialized := init; activeExtractions := act;
               monitors := b :: l |}
  = ((if String.eqb a b then 1 else 0)
     + running a {| initialized := init; activeExtractions := act;
                    monitors := l |})%nat.
Proof.
  unfold running. cbn [monitors List.filter].
  by destruct (String.eqb a b).
Qed.

(** C3, amended: [startProactiveMonitoring] ignores a request for an
    anchor that is in [activeMonitoring], so no second interval is
    started for it; [streamResponse] has no such check: every call on
    an initialized service with a function as callback starts one
    more monitor for its anchor and overwrites the anchor's entry of
    [activeExtractions].  The only calls it turns down are those
    without a function as callback and those on a service that is not
    initialized, which throw before anything is recorded. *)
Theorem monitoring_requests (a : string) (now : Z)
    (srv : Server) (s : Service) :
  (forall active, activeMonitoring srv = Some active -> a ∈ active ->
      startProactiveMonitoring a srv = srv)
  /\ (initialized s = true ->
      exists s', streamResponse now a true s = Returns s'
                 /\ running a s' = S (running a s)
                 /\ activeExtractions s' !! a = Some now)
  /\ (forall callback s',
      streamResponse now a callback s = Returns s' ->
      initialized s = true /\ callback = true)
  /\ streamResponse now a false s
     = Throws (if initialized s
               then "Callback function required for streaming"
               else "MessageService is not initialized").
Proof.
  split; [| split; [| split]].
  - intros active Hact Hin. unfold startProactiveMonitoring.
    rewrite Hact. by rewrite decide_True.
  - intros Hinit. unfold streamResponse. rewrite Hinit.
    eexists. split; [reflexivity |]. split.
    + rewrite running_cons, String.eqb_refl.
      unfold running. reflexivity.
    + cbn [activeExtractions]. apply lookup_insert_eq.
  - intros callback s'. unfold streamResponse.
    by destruct (initialized s), callback.
  - unfold streamResponse. by destruct (initialized s).
Qed.

Lemma monitoring_requests_witness :
  startProactiveMonitoring "msg_1700000000000_abc123"
    (startProactiveMonitoring "msg_1700000000000_abc123"
       ClaudeDesktopAPIServer.create)
  = startProactiveMonitoring "msg_1700000000000_abc123"
      ClaudeDesktopAPIServer.create
  /\ exists s', streamResponse 1000 "msg_1700000000000_abc123" true
                  idleService
                = Returns s'
                /\ running "msg_1700000000000_abc123" s'
                   = S (running "msg_1700000000000_abc123" idleService)
                /\ activeExtractions s' !! "msg_1700000000000_abc123"
                   = Some 1000.
Proof.
  destruct (monitoring_requests "msg_1700000000000_abc123" 1000
              (startProactiveMonitoring "msg_1700000000000_abc123"
                 ClaudeDesktopAPIServer.create)
              idleService) as (Hguard & Hstream & _).
  split.
  - apply (Hguard {["msg_1700000000000_abc123"]}); [reflexivity |].
    by apply elem_of_singleton.
  - apply Hstream. reflexivity.
Defined.

End SingleFlight.


Section RegistryMore.
Import AnchorService.

(** X1: [updateAnchor] on a tracked id stores and returns the merged
    record with [lastActivity] set to the clock reading, also when the
    updates carry a [lastActivity]; the other ids, the configuration
    and the statistics are untouched. *)
Theorem updateAnchor_known now a updates svc r :
  getAnchor a svc = Some r ->
  exists r',
    (updateAnchor now a updates svc).1 = Some r'
    /\ getAnchor a (updateAnchor now a updates svc).2 = Some r'
    /\ lastActivity r' = now
    /\ createdAt r' = default (createdAt r) (f_createdAt updates)
    /\ status r' = default (status r) (f_status updates)
    /\ (forall b, b <> a ->
          getAnchor b (updateAnchor now a updates svc).2 = getAnchor b svc)
    /\ statistics (updateAnchor now a updates svc).2 = statistics svc
    /\ config (updateAnchor now a updates svc).2 = config svc.
Proof.
  unfold getAnchor, updateAnchor. intros ->. eexists.
  cbn [fst snd anchors statistics config].
  split; [reflexivity |]. split; [apply lookup_insert_eq |].
  split; [reflexivity |]. split; [reflexivity |]. split; [reflexivity |].
  split; [| done].
  intros b Hb. by apply lookup_insert_ne.
Qed.

Lemma updateAnchor_known_witness :
  exists r',
    (updateAnchor 1700000005000 "msg_1700000000000_abc123" noFields
       streamingService).1 = Some r'
    /\ getAnchor "msg_1700000000000_abc123"
         (updateAnchor 1700000005000 "msg_1700000000000_abc123" noFields
            streamingService).2 = Some r'
    /\ lastActivity r' = 1700000005000
    /\ createdAt r' = default (createdAt streamingRecord) (f_createdAt noFields)
    /\ status r' = default (status streamingRecord) (f_status noFields)
    /\ (forall b, b <> "msg_1700000000000_abc123" ->
          getAnchor b
            (updateAnchor 1700000005000 "msg_1700000000000_abc123" noFields
               streamingService).2 = getAnchor b streamingService)
    /\ statistics
         (updateAnchor 1700000005000 "msg_1700000000000_abc123" noFields
            streamingService).2 = statistics streamingService
    /\ config
         (updateAnchor 1700000005000 "msg_1700000000000_abc123" noFields
            streamingService).2 = config streamingService.
Proof.
  apply (updateAnchor_known 1700000005000 "msg_1700000000000_abc123" noFields
           streamingService streamingRecord).
  vm_compute; reflexivity.
Defined.

Lemma updateAnchor_stores t a updates svc r :
  getAnchor a svc = Some r ->
  exists r',
    getAnchor a (updateAnchor t a updates svc).2 = Some r'
    /\ lastActivity r' = t
    /\ config (updateAnchor t a updates svc).2 = config svc.
Proof.
  unfold getAnchor, updateAnchor. intros ->. eexists.
  cbn [snd anchors config].
  split; [apply lookup_insert_eq |]. done.
Qed.

(** X2: an anchor updated at [t] survives every sweep whose cutoff is
    not after [t], whatever its status. *)
Theorem updateAnchor_then_cleanup t now a updates svc r :
  getAnchor a svc = Some r ->
  now - maxAgeHours (config svc) * 60 * 60 * 1000 <= t ->
  exists r',
    getAnchor a (cleanupOldAnchors now (updateAnchor t a updates svc).2).2
    = Some r'
    /\ lastActivity r' = t.
Proof.
  intros Hr Hcut.
  destruct (updateAnchor_stores t a updates svc r Hr)
    as (r' & Hget & Hact & Hcfg).
  exists r'. split; [| done].
  unfold getAnchor in *. apply cleanupOldAnchors_lookup.
  split; [done |]. unfold cutoff. rewrite Hcfg, Hact. lia.
Qed.

Lemma updateAnchor_then_cleanup_witness :
  exists r',
    getAnchor "msg_1700000000000_abc123"
      (cleanupOldAnchors 1700086400000
         (updateAnchor 1700000005000 "msg_1700000000000_abc123" noFields
            streamingService).2).2 = Some r'
    /\ lastActivity r' = 1700000005000.
Proof.
  apply (updateAnchor_then_cleanup 1700000005000 1700086400000
           "msg_1700000000000_abc123" noFields streamingService
           streamingRecord).
  - vm_compute; reflexivity.
  - vm_compute. discriminate.
Defined.

Lemma filter_sizes (c : Z) (m : gmap string AnchorRecord) :
  (size (filter (expired c) m)
   + size (filter (fun kv => ~ expired c kv) m) = size m)%nat.
Proof.
  rewrite <- map_size_disj_union by apply map_disjoint_filter_complement.
  by rewrite map_filter_union_complement.
Qed.

Lemma cleanupOldAnchors_removed now svc :
  (cleanupOldAnchors now svc).1
  = Z.of_nat (size (anchors svc))
    - Z.of_nat (size (anchors (cleanupOldAnchors now svc).2)).
Proof.
  unfold cleanupOldAnchors. cbn [fst snd anchors].
  pose proof (filter_sizes (cutoff now svc) (anchors svc)). lia.
Qed.

(** X3: the sweep returns the number of records it removed, adds it to
    [totalCleaned], and what remains is a part of what was there. *)
Theorem cleanupOldAnchors_count now svc :
  (cleanupOldAnchors now svc).1
  = Z.of_nat (size (anchors svc))
    - Z.of_nat (size (anchors (cleanupOldAnchors now svc).2))
  /\ 0 <= (cleanupOldAnchors now svc).1
  /\ totalCleaned (statistics (cleanupOldAnchors now svc).2)
     = totalCleaned (statistics svc) + (cleanupOldAnchors now svc).1
  /\ anchors (cleanupOldAnchors now svc).2 ⊆ anchors svc.
Proof.
  split; [apply cleanupOldAnchors_removed |].
  unfold cleanupOldAnchors.
  cbn [fst snd anchors statistics totalCleaned].
  split; [lia |]. split; [reflexivity |].
  apply map_filter_subseteq.
Qed.

(** X4: a second sweep at the same or an earlier clock reading removes
    nothing. *)
Theorem cleanupOldAnchors_again now now' svc :
  now' <= now ->
  (cleanupOldAnchors now' (cleanupOldAnchors now svc).2).1 = 0
  /\ anchors (cleanupOldAnchors now' (cleanupOldAnchors now svc).2).2
     = anchors (cleanupOldAnchors now svc).2.
Proof.
  intros Hle.
  assert (Hsame : anchors (cleanupOldAnchors now' (cleanupOldAnchors now svc).2).2
                  = anchors (cleanupOldAnchors now svc).2).
  { apply map_eq. intros a.
    destruct (anchors (cleanupOldAnchors now svc).2 !! a) as [r|] eqn:E.
    - apply cleanupOldAnchors_lookup. split; [done |].
      apply cleanupOldAnchors_lookup in E as [_ E].
      unfold cutoff in *. cbn [cleanupOldAnchors snd config]. lia.
    - destruct (anchors (cleanupOldAnchors now' _).2 !! a) as [r|] eqn:E';
        [| done].
      apply cleanupOldAnchors_lookup in E' as [E' _]. congruence. }
  split; [| done].
  rewrite cleanupOldAnchors_removed, Hsame. lia.
Qed.

Lemma cleanupOldAnchors_again_witness :
  (cleanupOldAnchors 1700090001001
     (cleanupOldAnchors 1700090001001 streamingService).2).1 = 0
  /\ anchors (cleanupOldAnchors 1700090001001
                (cleanupOldAnchors 1700090001001 streamingService).2).2
     = anchors (cleanupOldAnchors 1700090001001 streamingService).2.
Proof. apply cleanupOldAnchors_again. lia. Defined.

End RegistryMore.


Section Validator.
Import AnchorService.

Lemma strip_prefix_Some p : forall s r,
  Js.strip_prefix p s = Some r -> s = p +:+ r.
Proof.
  induction p as [|c p IH]; intros s r H.
  - cbn in H. by injection H as ->.
  - destruct s as [|d s]; [done |]. cbn [Js.strip_prefix] in H.
    destruct (Ascii.eqb c d) eqn:E; [| done].
    apply Ascii.eqb_eq in E as ->. rewrite append_cons.
    f_equal. by apply IH.
Qed.

Lemma repeat_cls_Some cls n : forall s r,
  Js.repeat_cls n cls s = Some r ->
  exists ds, s = ds +:+ r /\ String.length ds = n /\ Js.all cls ds = true.
Proof.
  induction n as [|n IH]; intros s r H.
  - cbn in H. injection H as ->. by exists EmptyString.
  - cbn [Js.repeat_cls] in H. destruct s as [|c s]; [done |].
    destruct (cls c) eqn:Hc; [| done].
    apply IH in H as (ds & -> & Hlen & Hall).
    exists (String c ds). rewrite append_cons. cbn [String.length Js.all].
    rewrite Hc, Hall. by rewrite Hlen.
Qed.

Lemma valid_head_Some a suffix :
  valid_head a = Some suffix
  <-> exists ds, a = "msg_" +:+ ds +:+ "_" +:+ suffix
                 /\ String.length ds = 13%nat
                 /\ Js.all Js.is_digit ds = true.
Proof.
  unfold valid_head. split.
  - destruct (Js.strip_prefix "msg_" a) as [r|] eqn:Hp; [| done].
    apply strip_prefix_Some in Hp as ->.
    destruct (Js.repeat_cls 13 Js.is_digit r) as [[|c rest]|] eqn:Hr;
      try done.
    apply repeat_cls_Some in Hr as (ds & -> & Hlen & Hall).
    destruct (Ascii.eqb c "_") eqn:Hc.
    + apply Ascii.eqb_eq in Hc as ->. intros H. injection H as ->.
      by exists ds.
    + intros H. exfalso. revert H Hc. clear.
      destruct c as [[] [] [] [] [] [] [] []]; cbn; congruence.
  - intros (ds & -> & Hlen & Hall).
    rewrite strip_prefix_append, <- Hlen, repeat_cls_append by done.
    reflexivity.
Qed.

Lemma all_weaken (p q : ascii -> bool) s :
  (forall c, p c = true -> q c = true) ->
  Js.all p s = true -> Js.all q s = true.
Proof.
  intros Hpq. induction s as [|c s IH]; [done |]. cbn [Js.all].
  intros H. apply andb_true_iff in H as [Hc Hs].
  by rewrite (Hpq c Hc), (IH Hs).
Qed.

Lemma newFormat_legacyFormat a : newFormat a = true -> legacyFormat a = true.
Proof.
  unfold newFormat, legacyFormat.
  destruct (valid_head a) as [suffix|]; [| done].
  destruct (Js.repeat_cls 6 _ suffix) as [[|]|] eqn:Hr; try done.
  intros _. apply repeat_cls_Some in Hr as (ds & -> & Hlen & Hall).
  rewrite append_nil_r. destruct ds as [|c ds]; [done |].
  revert Hall. apply all_weaken. intros x Hx.
  apply orb_true_iff in Hx as [Hx | Hx]; rewrite Hx; by rewrite ?orb_true_r.
Qed.

Lemma isValidAnchor_shape a :
  isValidAnchor a = true
  <-> exists ds suffix,
        a = "msg_" +:+ ds +:+ "_" +:+ suffix
        /\ String.length ds = 13%nat
        /\ Js.all Js.is_digit ds = true
        /\ suffix <> EmptyString
        /\ Js.all is_alnum suffix = true.
Proof.
  assert (Hlegacy : legacyFormat a = true
                    <-> exists ds suffix,
                          a = "msg_" +:+ ds +:+ "_" +:+ suffix
                          /\ String.length ds = 13%nat
                          /\ Js.all Js.is_digit ds = true
                          /\ suffix <> EmptyString
                          /\ Js.all is_alnum suffix = true).
  { unfold legacyFormat. split.
    - destruct (valid_head a) as [[|c cs]|] eqn:Hh; try done.
      intros Hall. apply valid_head_Some in Hh as (ds & -> & Hlen & Hd).
      by exists ds, (String c cs).
    - intros (ds & suffix & Ha & Hlen & Hd & Hne & Hall).
      assert (valid_head a = Some suffix) as -> by (apply valid_head_Some; eauto).
      by destruct suffix. }
  unfold isValidAnchor. rewrite orb_true_iff, <- Hlegacy.
  split; [| tauto]. intros [H | H]; [by apply newFormat_legacyFormat | done].
Qed.

(** X5: the validator accepts exactly the strings
    [msg_<13 digits>_<one or more letters or digits>]; what the six
    character format accepts, the legacy format accepts too. *)
Theorem isValidAnchor_accepts a :
  (isValidAnchor a = true
   <-> exists ds suffix,
         a = "msg_" +:+ ds +:+ "_" +:+ suffix
         /\ String.length ds = 13%nat
         /\ Js.all Js.is_digit ds = true
         /\ suffix <> EmptyString
         /\ Js.all is_alnum suffix = true)
  /\ isValidAnchor a = legacyFormat a.
Proof.
  split; [apply isValidAnchor_shape |].
  unfold isValidAnchor. destruct (newFormat a) eqn:E; [| reflexivity].
  by rewrite (newFormat_legacyFormat a E).
Qed.

Lemma span_fst_unique cls (a b a' b' : string) :
  Js.all cls a = true -> Js.all cls a' = true ->
  match b with String c _ => cls c = false | EmptyString => True end ->
  match b' with String c _ => cls c = false | EmptyString => True end ->
  a +:+ b = a' +:+ b' -> a = a' /\ b = b'.
Proof.
  intros Ha Ha' Hb Hb' Heq.
  pose proof (span_append cls a b Ha Hb) as H1.
  pose proof (span_append cls a' b' Ha' Hb') as H2.
  rewrite Heq in H1. rewrite H1 in H2. by injection H2.
Qed.

(** X6: the id generated at a clock reading [now >= 0] passes the
    validator exactly when [now] has thirteen digits and the random
    suffix is a non-empty run of letters and digits. *)
Theorem isValidAnchor_generated now rnd svc :
  0 <= now ->
  isValidAnchor (generateAnchor now rnd svc).1 = true
  <-> 10 ^ 12 <= now < 10 ^ 13
      /\ Js.substring 2 8 rnd <> EmptyString
      /\ Js.all is_alnum (Js.substring 2 8 rnd) = true.
Proof.
  intros Hn. cbn [generateAnchor fst].
  destruct (decimal_rendering now Hn) as [Hd Hne Hv Hu Hl].
  rewrite isValidAnchor_shape. unfold anchorId.
  rewrite toString_nonneg by done. split.
  - intros (ds & suffix & Heq & Hlen & Hds & Hsuf & Hall).
    apply String.app_inj in Heq.
    apply (span_fst_unique Js.is_digit) in Heq as [Heq1 Heq2];
      [| done | done | done | done].
    apply String.app_inj in Heq2. subst ds suffix.
    split; [| done]. rewrite Hlen in Hu, Hl.
    destruct Hl as [-> | Hl]; [by vm_compute in Hlen |].
    split; [exact Hl | exact Hu].
  - intros (Hrange & Hsuf & Hall).
    exists (Js.decimal now), (Js.substring 2 8 rnd).
    split; [reflexivity |]. split; [by apply decimal_13_digits |]. done.
Qed.

Lemma isValidAnchor_generated_witness :
  isValidAnchor
    (generateAnchor 1700000000000 "0.4fzyo82mvyr" (create defaultConfig)).1
  = true
  <-> 10 ^ 12 <= 1700000000000 < 10 ^ 13
      /\ Js.substring 2 8 "0.4fzyo82mvyr" <> EmptyString
      /\ Js.all is_alnum (Js.substring 2 8 "0.4fzyo82mvyr") = true.
Proof. apply isValidAnchor_generated. lia. Defined.

(** X7: the age of an id generated at [t > 0] is the time passed since
    [t]; an id generated at the epoch itself has no age, as its
    timestamp [0] is falsy. *)
Theorem getAnchorAge_generated t rnd svc now :
  0 <= t ->
  getAnchorAge now (generateAnchor t rnd svc).1
  = if t =? 0 then None else Some (now - t).
Proof.
  intros Ht. unfold getAnchorAge. cbn [generateAnchor fst].
  by rewrite extractTimestamp_anchorId.
Qed.

Lemma getAnchorAge_generated_witness :
  getAnchorAge 1700000060000
    (generateAnchor 1700000000000 "0.4fzyo82mvyr" (create defaultConfig)).1
  = if 1700000000000 =? 0 then None else Some (1700000060000 - 1700000000000).
Proof. apply getAnchorAge_generated. lia. Defined.

Lemma anchorId_truthy t rnd : truthy (Some (anchorId t rnd)) = true.
Proof. reflexivity. Qed.

Lemma updateStatistics_bracketed st seen t rnd :
  0 <= t -> (forall d, d ∈ seen -> 0 <= d.1) ->
  bracketed st seen ->
  bracketed (updateStatistics (anchorId t rnd) st) (seen ++ [(t, rnd)]).
Proof.
  intros Ht Hseen [(-> & Ho & Hn) | (lo & rlo & hi & rhi & Ho & Hn & Hlo & Hhi & Hb)].
  - right. exists t, rnd, t, rnd. unfold updateStatistics.
    cbn [oldestAnchor newestAnchor]. rewrite Ho, Hn. cbn [truthy negb orb app].
    split; [done |]. split; [done |].
    split; [apply list_elem_of_here |]. split; [apply list_elem_of_here |].
    intros d Hd. apply list_elem_of_singleton in Hd as ->. cbn. lia.
  - right. unfold updateStatistics. cbn [oldestAnchor newestAnchor].
    assert (Hlo0 : 0 <= lo) by apply (Hseen _ Hlo).
    assert (Hhi0 : 0 <= hi) by apply (Hseen _ Hhi).
    pose proof (Hb _ Hlo) as Hlohi. cbn [fst] in Hlohi.
    rewrite Ho, Hn, !anchorId_truthy. unfold toNumber, default.
    cbn [negb orb from_option id].
    rewrite !extractTimestamp_anchorId by done.
    cbn [from_option id].
    assert (Hold : forall d, d ∈ seen ++ [(t, rnd)] ->
                     d ∈ seen \/ d = (t, rnd)).
    { intros d Hd. apply elem_of_app in Hd as [Hd | Hd]; [by left |].
      right. by apply list_elem_of_singleton in Hd. }
    assert (Hin : forall d, d ∈ seen -> d ∈ seen ++ [(t, rnd)]).
    { intros d Hd. apply elem_of_app. by left. }
    assert (Hnew : (t, rnd) ∈ seen ++ [(t, rnd)]).
    { apply elem_of_app. right. apply list_elem_of_here. }
    destruct (t <? lo) eqn:Elo; destruct (hi <? t) eqn:Ehi;
      try apply Z.ltb_lt in Elo; try apply Z.ltb_ge in Elo;
      try apply Z.ltb_lt in Ehi; try apply Z.ltb_ge in Ehi;
      cbn [oldestAnchor newestAnchor].
    + lia.
    + exists t, rnd, hi, rhi.
      split; [done |]. split; [done |]. split; [done |].
      split; [by apply Hin |].
      intros d Hd. apply Hold in Hd as [Hd | ->];
        [apply Hb in Hd; lia | cbn; lia].
    + exists lo, rlo, t, rnd.
      split; [done |]. split; [done |]. split; [by apply Hin |].
      split; [done |].
      intros d Hd. apply Hold in Hd as [Hd | ->];
        [apply Hb in Hd; lia | cbn; lia].
    + exists lo, rlo, hi, rhi.
      split; [done |]. split; [done |]. split; [by apply Hin |].
      split; [by apply Hin |].
      intros d Hd. apply Hold in Hd as [Hd | ->];
        [apply Hb in Hd; lia | cbn; lia].
Qed.

Lemma generateAll_bracketed draws : forall svc seen,
  (forall d, d ∈ seen -> 0 <= d.1) -> (forall d, d ∈ draws -> 0 <= d.1) ->
  bracketed (statistics svc) seen ->
  bracketed (statistics (generateAll draws svc)) (seen ++ draws)
  /\ totalGenerated (statistics (generateAll draws svc))
     = totalGenerated (statistics svc) + Z.of_nat (List.length draws)
  /\ anchors (generateAll draws svc) = anchors svc.
Proof.
  induction draws as [|[t rnd] draws IH]; intros svc seen Hseen Hdraws Hb.
  - cbn [generateAll List.length]. rewrite app_nil_r.
    split; [done |]. split; [lia | done].
  - cbn [generateAll].
    assert (Ht : 0 <= t) by (apply (Hdraws (t, rnd)), list_elem_of_here).
    destruct (IH (generateAnchor t rnd svc).2 (seen ++ [(t, rnd)]))
      as (H1 & H2 & H3).
    + intros d Hd. apply elem_of_app in Hd as [Hd | Hd];
        [by apply Hseen |].
      by apply list_elem_of_singleton in Hd as ->.
    + intros d Hd. by apply Hdraws, list_elem_of_further.
    + cbn [generateAnchor snd statistics].
      apply updateStatistics_bracketed; [done | done |].
      destruct Hb as [(-> & Ho & Hn) | Hb]; [by left | by right].
    + rewrite <- app_assoc in H1. cbn [app] in H1.
      split; [done |]. split; [| done].
      rewrite H2. cbn [generateAnchor snd statistics updateStatistics
                         totalGenerated List.length]. lia.
Qed.

(** X8: after any calls of [generateAnchor] on a new service, at
    clock readings from the epoch on, [totalGenerated] counts the
    calls, no anchor is tracked, and [oldestAnchor] and [newestAnchor]
    are generated ids whose timestamps are the least and the greatest
    clock reading met. *)
Theorem generateAnchor_statistics (c : Config) (draws : list (Z * string)) :
  (forall d, d ∈ draws -> 0 <= d.1) ->
  bracketed (statistics (generateAll draws (create c))) draws
  /\ totalGenerated (statistics (generateAll draws (create c)))
     = Z.of_nat (List.length draws)
  /\ anchors (generateAll draws (create c)) = ∅.
Proof.
  intros Hdraws.
  destruct (generateAll_bracketed draws (create c) []) as (H1 & H2 & H3);
    [by intros d Hd%elem_of_nil | done | by left |].
  split; [done |]. split; [| done].
  rewrite H2. cbn. lia.
Qed.

Lemma generateAnchor_statistics_witness :
  bracketed
    (statistics (generateAll [(1700000002000, "0.abc123x");
                              (1700000001000, "0.zzz999y")]
                             (create defaultConfig)))
    [(1700000002000, "0.abc123x"); (1700000001000, "0.zzz999y")]
  /\ totalGenerated
       (statistics (generateAll [(1700000002000, "0.abc123x");
                                 (1700000001000, "0.zzz999y")]
                                (create defaultConfig)))
     = Z.of_nat 2
  /\ anchors (generateAll [(1700000002000, "0.abc123x");
                           (1700000001000, "0.zzz999y")]
                          (create defaultConfig)) = ∅.
Proof.
  apply (generateAnchor_statistics defaultConfig
           [(1700000002000, "0.abc123x"); (1700000001000, "0.zzz999y")]).
  intros d Hd.
  apply elem_of_cons in Hd as [-> | Hd]; [cbn; lia |].
  apply elem_of_cons in Hd as [-> | Hd]; [cbn; lia |].
  by apply elem_of_nil in Hd.
Defined.

End Validator.


Section ExtractorState.
Import Surface WebSocketExtractor.

Lemma toInt32_repr z : exists q, Js.toInt32 z = z + 2 ^ 32 * q.
Proof.
  unfold Js.toInt32. exists (- ((z + 2 ^ 31) / 2 ^ 32)).
  pose proof (Z.div_mod (z + 2 ^ 31) (2 ^ 32) ltac:(lia)). lia.
Qed.

Lemma toInt32_congr x y q : x = y + 2 ^ 32 * q -> Js.toInt32 x = Js.toInt32 y.
Proof.
  intros ->. unfold Js.toInt32.
  replace (y + 2 ^ 32 * q + 2 ^ 31) with (y + 2 ^ 31 + q * 2 ^ 32) by lia.
  by rewrite Z_mod_plus_full.
Qed.

Lemma toInt32_range z : - 2 ^ 31 <= Js.toInt32 z < 2 ^ 31.
Proof.
  unfold Js.toInt32.
  pose proof (Z.mod_pos_bound (z + 2 ^ 31) (2 ^ 32) ltac:(lia)). lia.
Qed.

Lemma hashStep_31 h c : hashStep h c = Js.toInt32 (31 * h + Js.charCode c).
Proof.
  unfold hashStep. destruct (toInt32_repr (h * 2 ^ 5)) as [q Hq].
  apply (toInt32_congr _ _ q). rewrite Hq. lia.
Qed.

Lemma hashLoop_polynomial s : forall h,
  hashLoop s (Js.toInt32 h)
  = Js.toInt32 (h * 31 ^ Z.of_nat (String.length s) + polynomial s).
Proof.
  induction s as [|c s IH]; intros h.
  - cbn [hashLoop String.length polynomial]. f_equal. lia.
  - cbn [hashLoop polynomial]. rewrite hashStep_31, IH.
    destruct (toInt32_repr h) as [q Hq]. rewrite Hq.
    apply (toInt32_congr _ _ (31 * q * 31 ^ Z.of_nat (String.length s))).
    cbn [String.length]. rewrite Nat2Z.inj_succ, Z.pow_succ_r by lia. lia.
Qed.

(** X9: [hashContent] is the decimal rendering of the polynomial hash
    of base 31 over the character codes, wrapped to a signed 32-bit
    integer. *)
Theorem hashContent_polynomial content :
  hashContent content = Js.toString (Js.toInt32 (polynomial content))
  /\ - 2 ^ 31 <= Js.toInt32 (polynomial content) < 2 ^ 31.
Proof.
  split; [| apply toInt32_range].
  unfold hashContent. change 0 with (Js.toInt32 0) at 1.
  rewrite hashLoop_polynomial. do 2 f_equal; lia.
Qed.

Lemma toString_nonempty n : Js.toString n <> EmptyString.
Proof.
  unfold Js.toString. destruct (n <? 0) eqn:E; [done |].
  apply Z.ltb_ge in E. by destruct (decimal_rendering n E).
Qed.

(** X10: after [trackInjection] at a clock reading other than [0], the
    first content checked for the anchor counts as new, whatever it
    is; the marker stored at injection is no hash. *)
Theorem isContentNew_after_trackInjection now a content st :
  now <> 0 ->
  (isContentNew a content (trackInjection now a st).2).1 = true
  /\ lastContentHashes (isContentNew a content (trackInjection now a st).2).2
       !! a = Some (hashContent content).
Proof.
  intros Hnow. unfold isContentNew, trackInjection.
  cbn [snd injectionTimestamps lastContentHashes].
  rewrite !lookup_insert_eq.
  destruct (now =? 0) eqn:E; [apply Z.eqb_eq in E; done |].
  rewrite decide_False.
  - cbn [fst snd lastContentHashes]. by rewrite lookup_insert_eq.
  - intros H. injection H as H. symmetry in H.
    by apply toString_nonempty in H.
Qed.

Lemma isContentNew_after_trackInjection_witness :
  (isContentNew "msg_1700000000000_abc123" ""
     (trackInjection 1700000000000 "msg_1700000000000_abc123"
        WebSocketExtractor.create).2).1 = true
  /\ lastContentHashes
       (isContentNew "msg_1700000000000_abc123" ""
          (trackInjection 1700000000000 "msg_1700000000000_abc123"
             WebSocketExtractor.create).2).2
       !! "msg_1700000000000_abc123" = Some (hashContent "").
Proof. apply isContentNew_after_trackInjection. lia. Defined.

(** X11: content just checked is not new: whatever [isContentNew]
    answered, asking again with the same content answers [false] and
    changes nothing; an anchor without tracked injection always gets
    [false]. *)
Theorem isContentNew_repeated a content st :
  isContentNew a content (isContentNew a content st).2
  = (false, (isContentNew a content st).2)
  /\ (injectionTimestamps st !! a = None ->
      isContentNew a content st = (false, st)).
Proof.
  split; [| by unfold isContentNew; intros ->].
  unfold isContentNew at 2 3.
  destruct (injectionTimestamps st !! a) as [t|] eqn:Ht.
  2:{ cbn [snd]. unfold isContentNew. by rewrite Ht. }
  destruct (t =? 0) eqn:E.
  { cbn [snd]. unfold isContentNew. by rewrite Ht, E. }
  destruct (decide (lastContentHashes st !! a = Some (hashContent content)))
    as [Hsame | Hdiff]; cbn [snd]; unfold isContentNew.
  - rewrite Ht, E. by rewrite decide_True.
  - cbn [injectionTimestamps lastContentHashes]. rewrite Ht, E.
    by rewrite decide_True by apply lookup_insert_eq.
Qed.

Lemma findChatPage_Some ps p :
  findChatPage ps = Some p -> p ∈ ps /\ isChatPage p = true.
Proof.
  induction ps as [|q ps IH]; [done |]. cbn [findChatPage].
  destruct (Js.includes "claude.ai" (url q) && _) eqn:E1.
  { intros H. injection H as <-. split; [apply list_elem_of_here |].
    unfold isChatPage. by rewrite E1. }
  destruct (Js.includes "Claude" (title q) && _) eqn:E2.
  { intros H. injection H as <-. split; [apply list_elem_of_here |].
    unfold isChatPage. by rewrite E2, orb_true_r. }
  intros H. apply IH in H as [H1 H2].
  split; [by apply list_elem_of_further | done].
Qed.

Lemma findChatPage_None ps :
  findChatPage ps = None -> forall q, q ∈ ps -> isChatPage q = false.
Proof.
  induction ps as [|p ps IH]; intros H q Hq; [by apply elem_of_nil in Hq |].
  cbn [findChatPage] in H.
  destruct (Js.includes "claude.ai" (url p) && _) eqn:E1; [done |].
  destruct (Js.includes "Claude" (title p) && _) eqn:E2; [done |].
  apply elem_of_cons in Hq as [-> | Hq]; [| by apply IH].
  unfold isChatPage. by rewrite E1, E2.
Qed.

(** X12: [findClaudePage] finds no page exactly when the page list is
    [null] or empty; the page it returns is in the list, and it is a
    chat page unless the list has none, in which case it is the first
    page. *)
Theorem findClaudePage_result pages :
  (findClaudePage pages = None <-> pages = None \/ pages = Some [])
  /\ (forall ps p, pages = Some ps -> findClaudePage pages = Some p ->
        p ∈ ps
        /\ (isChatPage p = true
            \/ (head ps = Some p /\ forall q, q ∈ ps -> isChatPage q = false))).
Proof.
  split.
  - destruct pages as [ps|]; cbn [findClaudePage].
    + destruct (findChatPage ps) as [p|] eqn:E.
      * split; [done |]. intros [H | H]; [done |].
        injection H as ->. done.
      * destruct ps as [|q ps]; cbn [head].
        -- split; [by right | done].
        -- split; [done | intros [H | H]; done].
    + split; [by left | done].
  - intros ps p -> H. cbn [findClaudePage] in H.
    destruct (findChatPage ps) as [q|] eqn:E.
    + injection H as <-. apply findChatPage_Some in E as [E1 E2].
      split; [done | by left].
    + split.
      * destruct ps as [|q ps]; [done |]. cbn [head] in H.
        injection H as <-. apply list_elem_of_here.
      * right. split; [done |]. by apply findChatPage_None.
Qed.

(** X13: once more than two seconds have passed on the page's clock
    since the tracked injection, [detectResponseStart] answers [true]
    whenever its script runs, whatever the document shows. *)
Theorem detectResponseStart_time_elapsed nodeNow pageNow a st pages d t :
  injectionTimestamps st !! a = Some t -> t <> 0 ->
  is_Some (findClaudePage pages) ->
  2000 < pageNow - t ->
  detectResponseStart nodeNow pageNow a st pages (Returned d) = true.
Proof.
  intros Ht Hnz [p Hp] Hlate. unfold detectResponseStart.
  rewrite Hp. unfold scriptInjectionTime. rewrite Ht.
  destruct (t =? 0) eqn:E; [apply Z.eqb_eq in E; done |].
  unfold responseStartCheck.
  destruct (2000 <? pageNow - t) eqn:E2; [| apply Z.ltb_ge in E2; lia].
  destruct (match submitButton d with Some b => disabled b | None => false end);
    [reflexivity |].
  destruct (negb (Nat.eqb (loadingIndicators d) 0)); [reflexivity |].
  by destruct (match inputField d with
               | Some (isDisabled, isReadOnly) => isDisabled || isReadOnly
               | None => false
               end).
Qed.

Lemma detectResponseStart_time_elapsed_witness :
  detectResponseStart 1700000003000 1700000003000 demoAnchor demoState
    demoPages
    (Returned {| submitButton := None; loadingIndicators := 0;
                 inputField := None |}) = true.
Proof.
  apply (detectResponseStart_time_elapsed _ _ _ _ _ _ 1700000000000).
  - vm_compute; reflexivity.
  - lia.
  - by eexists.
  - lia.
Defined.

End ExtractorState.


Section ExtractionMore.
Import Surface WebSocketExtractor.

Lemma attempts_first anchorHash queryIndex probe remaining :
  forall attempt r,
    attempts anchorHash queryIndex probe attempt remaining = Found r ->
    exists k v, (attempt <= k < attempt + remaining)%nat
                /\ probe k = Returned v
                /\ usable (probe k) = true
                /\ r = extracted anchorHash queryIndex k v
                /\ forall k', (attempt <= k' < k)%nat -> passes (probe k').
Proof.
  induction remaining as [|remaining IH]; intros attempt r H; [done |].
  cbn [attempts] in H.
  assert (Hskip : passes (probe attempt) ->
                  attempts anchorHash queryIndex probe (S attempt) remaining
                  = Found r ->
                  exists k v, (attempt <= k < attempt + S remaining)%nat
                    /\ probe k = Returned v
                    /\ usable (probe k) = true
                    /\ r = extracted anchorHash queryIndex k v
                    /\ forall k', (attempt <= k' < k)%nat ->
                                  passes (probe k')).
  { intros Hu H'. apply IH in H' as (k & v & Hk & Hp & Hus & -> & Hfirst).
    exists k, v. split; [lia |]. split; [done |]. split; [done |].
    split; [done |]. intros k' Hk'.
    destruct (decide (k' = attempt)) as [-> | Hne]; [done |].
    apply Hfirst. lia. }
  destruct (probe attempt) as [| |v|] eqn:Hp;
    [by apply Hskip | by apply Hskip | | done].
  destruct (10 <? Js.length (ed_content v)) eqn:Hlen.
  - injection H as <-. exists attempt, v.
    split; [lia |]. split; [done |]. split; [by rewrite Hp |].
    split; [done |]. intros k' Hk'. lia.
  - apply Hskip; [| done]. by split.
Qed.

Lemma attempts_None anchorHash queryIndex probe remaining :
  forall attempt,
    attempts anchorHash queryIndex probe attempt remaining = Exhausted ->
    forall k, (attempt <= k < attempt + remaining)%nat -> passes (probe k).
Proof.
  induction remaining as [|remaining IH]; intros attempt H k Hk; [lia |].
  cbn [attempts] in H.
  destruct (decide (k = attempt)) as [-> | Hne].
  - destruct (probe attempt) as [| |v|]; [done | done | | done].
    split; [| done]. cbn [usable].
    by destruct (10 <? Js.length (ed_content v)).
  - apply (IH (S attempt)); [| lia].
    destruct (probe attempt) as [| |v|]; [done | done | | done].
    by destruct (10 <? Js.length (ed_content v)).
Qed.

Lemma attempts_Waiting anchorHash queryIndex probe remaining :
  forall attempt,
    attempts anchorHash queryIndex probe attempt remaining = Waiting ->
    exists k, (attempt <= k < attempt + remaining)%nat
              /\ probe k = Unsettled
              /\ forall k', (attempt <= k' < k)%nat -> passes (probe k').
Proof.
  induction remaining as [|remaining IH]; intros attempt H; [done |].
  cbn [attempts] in H.
  assert (Hskip : passes (probe attempt) ->
                  attempts anchorHash queryIndex probe (S attempt) remaining
                  = Waiting ->
                  exists k, (attempt <= k < attempt + S remaining)%nat
                    /\ probe k = Unsettled
                    /\ forall k', (attempt <= k' < k)%nat ->
                                  passes (probe k')).
  { intros Hu H'. apply IH in H' as (k & Hk & Hp & Hfirst).
    exists k. split; [lia |]. split; [done |]. intros k' Hk'.
    destruct (decide (k' = attempt)) as [-> | Hne]; [done |].
    apply Hfirst. lia. }
  destruct (probe attempt) as [| |v|] eqn:Hp;
    [by apply Hskip | by apply Hskip | |].
  - destruct (10 <? Js.length (ed_content v)) eqn:Hlen; [done |].
    apply Hskip; [| done]. by split.
  - exists attempt. split; [lia |]. split; [done |]. intros k' Hk'. lia.
Qed.

Lemma queriesFrom_first anchorHash retries probe remaining :
  forall queryIndex r,
    queriesFrom anchorHash retries probe queryIndex remaining = Found r ->
    exists q k v, (queryIndex <= q < queryIndex + remaining)%nat
                  /\ (k < retries)%nat
                  /\ probe q k = Returned v
                  /\ usable (probe q k) = true
                  /\ r = extracted anchorHash q k v
                  /\ forall q' k', (k' < retries)%nat ->
                       (queryIndex <= q' < q)%nat \/ (q' = q /\ (k' < k)%nat) ->
                       passes (probe q' k').
Proof.
  induction remaining as [|remaining IH]; intros queryIndex r H; [done |].
  cbn [queriesFrom] in H.
  destruct (attempts anchorHash queryIndex (probe queryIndex) 0 retries)
    as [r'| |] eqn:Ha; [| | done].
  - injection H as <-.
    apply attempts_first in Ha as (k & v & Hk & Hp & Hu & -> & Hfirst).
    exists queryIndex, k, v. split; [lia |]. split; [lia |].
    split; [done |]. split; [done |]. split; [done |].
    intros q' k' Hk' [Hq | [-> Hlt]]; [lia |]. apply Hfirst. lia.
  - apply IH in H as (q & k & v & Hq & Hk & Hp & Hu & -> & Hfirst).
    exists q, k, v. split; [lia |]. split; [done |].
    split; [done |]. split; [done |]. split; [done |].
    intros q' k' Hk' [Hq' | [-> Hlt]].
    + destruct (decide (q' = queryIndex)) as [-> | Hne].
      * apply (attempts_None _ _ _ _ _ Ha). lia.
      * apply Hfirst; [done |]. left. lia.
    + apply Hfirst; [done |]. by right.
Qed.

Lemma queriesFrom_None anchorHash retries probe remaining :
  forall queryIndex,
    queriesFrom anchorHash retries probe queryIndex remaining = Exhausted ->
    forall q k, (queryIndex <= q < queryIndex + remaining)%nat ->
                (k < retries)%nat -> passes (probe q k).
Proof.
  induction remaining as [|remaining IH]; intros queryIndex H q k Hq Hk;
    [lia |].
  cbn [queriesFrom] in H.
  destruct (attempts anchorHash queryIndex (probe queryIndex) 0 retries)
    eqn:Ha; [done | | done].
  destruct (decide (q = queryIndex)) as [-> | Hne].
  - apply (attempts_None _ _ _ _ _ Ha). lia.
  - apply (IH (S queryIndex)); [done | lia | done].
Qed.

Lemma queriesFrom_Waiting anchorHash retries probe remaining :
  forall queryIndex,
    queriesFrom anchorHash retries probe queryIndex remaining = Waiting ->
    exists q k, (queryIndex <= q < queryIndex + remaining)%nat
                /\ (k < retries)%nat
                /\ probe q k = Unsettled
                /\ forall q' k', (k' < retries)%nat ->
                     (queryIndex <= q' < q)%nat \/ (q' = q /\ (k' < k)%nat) ->
                     passes (probe q' k').
Proof.
  induction remaining as [|remaining IH]; intros queryIndex H; [done |].
  cbn [queriesFrom] in H.
  destruct (attempts anchorHash queryIndex (probe queryIndex) 0 retries)
    as [r'| |] eqn:Ha; [done | |].
  - apply IH in H as (q & k & Hq & Hk & Hp & Hfirst).
    exists q, k. split; [lia |]. split; [done |]. split; [done |].
    intros q' k' Hk' [Hq' | [-> Hlt]].
    + destruct (decide (q' = queryIndex)) as [-> | Hne].
      * apply (attempts_None _ _ _ _ _ Ha). lia.
      * apply Hfirst; [done |]. left. lia.
    + apply Hfirst; [done |]. by right.
  - apply attempts_Waiting in Ha as (k & Hk & Hp & Hfirst).
    exists queryIndex, k. split; [lia |]. split; [lia |]. split; [done |].
    intros q' k' Hk' [Hq | [-> Hlt]]; [lia |]. apply Hfirst. lia.
Qed.

(** The three ways in which the loops of [extractContent] end. *)
Lemma extractWith_outcome anchorHash retries probe count :
  let r := extractWith anchorHash retries probe count in
  (forall res, r = Returns res -> ex_success res = true ->
   exists q k v,
     (q < count)%nat /\ (k < retries)%nat
     /\ probe q k = Returned v
     /\ res = extracted anchorHash q k v
     /\ 10 < Js.length (ex_content res)
     /\ forall q' k', (k' < retries)%nat ->
          (q' < q)%nat \/ (q' = q /\ (k' < k)%nat) ->
          passes (probe q' k'))
  /\ ((exists res, r = Returns res /\ ex_success res = false) <->
      forall q k, (q < count)%nat -> (k < retries)%nat ->
                  passes (probe q k))
  /\ (forall res, r = Returns res -> ex_success res = false ->
      res = allFailed anchorHash)
  /\ (r = Pending <->
      exists q k,
        (q < count)%nat /\ (k < retries)%nat
        /\ probe q k = Unsettled
        /\ forall q' k', (k' < retries)%nat ->
             (q' < q)%nat \/ (q' = q /\ (k' < k)%nat) ->
             passes (probe q' k'))
  /\ (forall msg, r <> Throws msg).
Proof.
  cbn zeta. unfold extractWith.
  destruct (queriesFrom anchorHash retries probe 0 count) as [r| |] eqn:Hq.
  - apply queriesFrom_first in Hq
      as (q & k & v & Hlt & Hk & Hp & Hu & -> & Hfirst).
    split; [| split; [| split; [| split]]].
    + intros res [= <-] _. exists q, k, v. split; [lia |]. split; [done |].
      split; [done |]. split; [done |]. split.
      * rewrite Hp in Hu. cbn [usable] in Hu. apply Z.ltb_lt in Hu. done.
      * intros q' k' Hk' [Hq' | Hq']; apply Hfirst;
          [done | left; lia | done | by right].
    + split; [by intros (res & [= <-] & Hs) |]. intros Hnone.
      destruct (Hnone q k ltac:(lia) Hk) as [Hn _]. congruence.
    + by intros res [= <-] Hs.
    + split; [done |]. intros (q0 & k0 & Hq0 & Hk0 & Hun & Hbefore).
      assert (Hcmp : ((q < q0 \/ (q = q0 /\ k < k0)) \/ (q = q0 /\ k = k0)
                      \/ (0 <= q0 < q \/ (q0 = q /\ k0 < k)))%nat) by lia.
      destruct Hcmp as [Hlt' | [[-> ->] | Hgt]].
      * destruct (Hbefore q k Hk Hlt') as [Hn _]. congruence.
      * congruence.
      * destruct (Hfirst q0 k0 Hk0 Hgt) as [_ Hs]. congruence.
    + done.
  - pose proof (queriesFrom_None _ _ _ _ _ Hq) as Hall.
    split; [| split; [| split; [| split]]].
    + by intros res [= <-].
    + split; [| by eexists]. intros _ q k Hq' Hk. apply Hall; [lia | done].
    + by intros res [= <-].
    + split; [done |]. intros (q0 & k0 & Hq0 & Hk0 & Hun & _).
      destruct (Hall q0 k0 ltac:(lia) Hk0) as [_ Hs]. congruence.
    + done.
  - apply queriesFrom_Waiting in Hq as (q & k & Hlt & Hk & Hp & Hfirst).
    split; [| split; [| split; [| split]]].
    + done.
    + split; [by intros (res & [=] & _) |]. intros Hall.
      destruct (Hall q k ltac:(lia) Hk) as [_ Hs]. congruence.
    + done.
    + split; [| done]. intros _. exists q, k.
      split; [lia |]. split; [done |]. split; [done |].
      intros q' k' Hk' [Hq' | Hq']; apply Hfirst;
        [done | left; lia | done | by right].
    + done.
Qed.

(** X14: the loops of [extractContent] return the first usable answer
    in the order of the queries and, within a query, of the attempts:
    every attempt before the one named in the metadata of a
    successful result was answered and not usable; the result is the
    failure object exactly when every attempt of every query was
    answered and none was usable; and the loops stay pending exactly
    when an attempt is never answered and none before it was
    usable. *)
Theorem extractWith_first_usable anchorHash retries probe count :
  let r := extractWith anchorHash retries probe count in
  (forall res, r = Returns res -> ex_success res = true ->
   exists q k v,
     (q < count)%nat /\ (k < retries)%nat
     /\ probe q k = Returned v
     /\ res = extracted anchorHash q k v
     /\ 10 < Js.length (ex_content res)
     /\ forall q' k', (k' < retries)%nat ->
          (q' < q)%nat \/ (q' = q /\ (k' < k)%nat) ->
          passes (probe q' k'))
  /\ ((exists res, r = Returns res /\ ex_success res = false) <->
      forall q k, (q < count)%nat -> (k < retries)%nat ->
                  passes (probe q k))
  /\ (forall res, r = Returns res -> ex_success res = false ->
      res = allFailed anchorHash)
  /\ (r = Pending <->
      exists q k,
        (q < count)%nat /\ (k < retries)%nat
        /\ probe q k = Unsettled
        /\ forall q' k', (k' < retries)%nat ->
             (q' < q)%nat \/ (q' = q /\ (k' < k)%nat) ->
             passes (probe q' k'))
  /\ (forall msg, r <> Throws msg).
Proof. apply extractWith_outcome. Qed.

Lemma generateExtractionQueries_length anchorHash :
  List.length (generateExtractionQueries anchorHash) = 2%nat.
Proof.
  unfold generateExtractionQueries.
  destruct anchorHash as [[|c s]|]; [reflexivity | | reflexivity].
  by destruct (quotable (String c s)).
Qed.

Lemma answers_Unsettled anchorHash view q k :
  (q < 2)%nat ->
  answers (generateExtractionQueries anchorHash) view q k = Unsettled
  <-> scripts view q k = Unsettled.
Proof.
  intros Hq. unfold answers.
  destruct (generateExtractionQueries anchorHash !! q) as [qu|] eqn:E.
  - unfold evaluate. destruct (scripts view q k) as [| |d|]; try done.
    by destruct (runQuery qu d).
  - apply lookup_ge_None in E.
    rewrite generateExtractionQueries_length in E. lia.
Qed.

(** X15: [extractContent] throws exactly when the debugger gives no
    page list or an empty one.  Otherwise it stays pending exactly
    when a script is never answered and no attempt before it was
    usable, so it returns when every script is answered; and what it
    returns is either the failure object with empty content or a
    success with more than ten characters of content, metadata naming
    one of the two queries and an attempt between 1 and [retries]. *)
Theorem extractContent_outcome anchorHash retries view :
  match pages view with
  | None =>
      extractContent anchorHash retries view
      = Throws "Could not connect to Chrome Debug Protocol"
  | Some [] =>
      extractContent anchorHash retries view
      = Throws "Could not find Claude page"
  | Some (_ :: _) =>
      (forall msg, extractContent anchorHash retries view <> Throws msg)
      /\ (extractContent anchorHash retries view = Pending <->
          exists q k,
            (q < 2)%nat /\ (k < retries)%nat
            /\ scripts view q k = Unsettled
            /\ forall q' k', (k' < retries)%nat ->
                 (q' < q)%nat \/ (q' = q /\ (k' < k)%nat) ->
                 passes (answers (generateExtractionQueries anchorHash)
                                 view q' k'))
      /\ ((forall q k, scripts view q k <> Unsettled) ->
          exists r, extractContent anchorHash retries view = Returns r)
      /\ (forall r,
          extractContent anchorHash retries view = Returns r ->
          ex_anchor r = anchorHash
          /\ (r = allFailed anchorHash
              \/ (ex_success r = true
                  /\ 10 < Js.length (ex_content r)
                  /\ ex_message r = None
                  /\ exists md, ex_metadata r = Some md
                                /\ 0 <= em_queryIndex md < 2
                                /\ 1 <= em_attempt md <= Z.of_nat retries)))
  end.
Proof.
  unfold extractContent.
  destruct (pages view) as [[|p ps]|] eqn:Hp; [reflexivity | | reflexivity].
  assert (Hfound : is_Some (findClaudePage (Some (p :: ps)))).
  { cbn [findClaudePage]. destruct (findChatPage (p :: ps)); by eexists. }
  destruct Hfound as [page ->]. cbn zeta.
  rewrite generateExtractionQueries_length.
  destruct (extractWith_outcome anchorHash retries
              (answers (generateExtractionQueries anchorHash) view) 2)
    as (Hfirst & Hfail & Hobj & Hpend & Hthrow).
  assert (Hpending :
            extractWith anchorHash retries
              (answers (generateExtractionQueries anchorHash) view) 2
            = Pending <->
            exists q k,
              (q < 2)%nat /\ (k < retries)%nat
              /\ scripts view q k = Unsettled
              /\ forall q' k', (k' < retries)%nat ->
                   (q' < q)%nat \/ (q' = q /\ (k' < k)%nat) ->
                   passes (answers (generateExtractionQueries anchorHash)
                                   view q' k')).
  { rewrite Hpend. split; intros (q & k & Hq & Hk & Hun & Hb);
      exists q, k; (split; [done |]); (split; [done |]);
      (split; [| done]); by apply (answers_Unsettled anchorHash view q k). }
  split; [exact Hthrow |]. split; [exact Hpending |]. split.
  - intros Hsettled.
    destruct (extractWith anchorHash retries _ 2) as [msg|r|] eqn:E.
    + by destruct (Hthrow msg).
    + by exists r.
    + destruct (proj1 Hpending eq_refl) as (q & k & _ & _ & Hun & _).
      by destruct (Hsettled q k).
  - intros r Hr.
    destruct (ex_success r) eqn:Hs.
    + destruct (Hfirst r Hr Hs) as (q & k & v & Hq & Hk & Hpr & -> & Hlen & _).
      split; [reflexivity |]. right.
      split; [reflexivity |]. split; [done |]. split; [reflexivity |].
      eexists. split; [reflexivity |].
      cbn [em_queryIndex em_attempt]. lia.
    + rewrite (Hobj r Hr Hs). split; [reflexivity | by left].
Qed.

End ExtractionMore.


Section ScriptFacts.
Import Surface WebSocketExtractor.








End ScriptFacts.


Section MonitorMore.
Import Surface WebSocketExtractor.

Variables (a : string) (timeout startTime : Z).

Lemma extractContent_long anchorHash retries view r :
  extractContent anchorHash retries view = Returns r ->
  ex_success r = true -> 10 < Js.length (ex_content r).
Proof.
  unfold extractContent. destruct (pages view); [| done].
  destruct (findClaudePage _); [| done].
  intros H Hs.
  by destruct (extractWith_success _ _ _ _ _ H Hs)
    as (q & k & v & _ & _ & Hlen & ->).
Qed.

Lemma steps_chain lo ups hi : steps lo ups hi -> chain lo ups hi.
Proof.
  revert lo. induction ups as [|u ups IH]; intros lo; cbn [steps chain];
    [done |].
  intros [H1 H2]. split; [destruct (su_complete u); lia | by apply IH].
Qed.

Lemma steps_app lo ups mid ups' hi :
  steps lo ups mid -> steps mid ups' hi -> steps lo (ups ++ ups') hi.
Proof.
  revert lo; induction ups as [|u ups IH]; intros lo; cbn [steps app].
  - intros Hlo Hc. destruct ups' as [|v ups']; cbn [steps] in *; [lia |].
    split; [destruct (su_complete v); lia | tauto].
  - intros [H1 H2] Hc. split; [done | by apply IH].
Qed.

Lemma steps_lookup ups : forall lo hi (i j : nat) u v,
  steps lo ups hi -> (i < j)%nat ->
  ups !! i = Some u -> ups !! j = Some v -> su_complete v = false ->
  size_of u < size_of v.
Proof.
  induction ups as [|w ups IH]; intros lo hi i j u v Hs Hij Hi Hj Hv;
    [done |].
  cbn [steps] in Hs. destruct Hs as [_ Hs].
  destruct j as [|j]; [lia |]. cbn in Hj.
  destruct i as [|i]; cbn in Hi.
  - injection Hi as ->. clear IH Hij.
    revert j Hj. generalize dependent (size_of u).
    induction ups as [|x ups IH]; intros z Hs j Hj; [done |].
    cbn [steps] in Hs. destruct Hs as [Hz Hs].
    destruct j as [|j]; cbn in Hj.
    + injection Hj as ->. by rewrite Hv in Hz.
    + specialize (IH _ Hs j Hj).
      destruct (su_complete x); lia.
  - eapply (IH _ _ i j); [exact Hs | lia | done | done | done].
Qed.

(** One run of [streamMonitor], in detail. *)
Lemma streamMonitor_steps callback tk l :
  let r := streamMonitor a timeout startTime callback tk l in
  steps (gathered l) (emitted r) (gathered (after r))
  /\ Forall (fun u => su_success u = true /\ su_anchor u = a) (emitted r)
  /\ (callback = false -> emitted r = [])
  /\ (exists partials finals,
        emitted r = partials ++ finals
        /\ Forall (fun u => su_complete u = false
                            /\ 10 < size_of u) partials
        /\ (finals = []
            \/ exists u, finals = [u] /\ su_complete u = true
                         /\ (finalThrows tk = false ->
                             exists res, resolved r = Some res
                                         /\ mr_complete res = true))).
Proof.
  unfold streamMonitor.
  assert (Hnothing : forall l' b, gathered l <= gathered l' ->
            let r := {| emitted := []; after := l'; resolved := None;
                        stalled := b |} in
            steps (gathered l) (emitted r) (gathered (after r))
            /\ Forall (fun u => su_success u = true /\ su_anchor u = a)
                      (emitted r)
            /\ (callback = false -> emitted r = [])
            /\ (exists partials finals,
                  emitted r = partials ++ finals
                  /\ Forall (fun u => su_complete u = false
                                      /\ 10 < size_of u) partials
                  /\ (finals = []
                      \/ exists u, finals = [u] /\ su_complete u = true
                           /\ (finalThrows tk = false ->
                               exists res, resolved r = Some res
                                           /\ mr_complete res = true)))).
  { intros l' b Hl'. cbn [emitted after resolved steps].
    split; [done |]. split; [done |]. split; [done |].
    exists [], []. split; [done |]. split; [done | by left]. }
  destruct (timeout <=? now tk - startTime).
  { cbn [emitted after resolved steps].
    split; [lia |]. split; [done |]. split; [done |].
    exists [], []. split; [done |]. split; [done | by left]. }
  destruct (negb (responseStarted l) && negb (responding tk));
    [by apply (Hnothing l false) |].
  destruct (extractContent (Some a) 1 (extraction tk))
    as [msg|result|] eqn:Hex;
    [by apply (Hnothing (setStarted l) false) |
    | by apply (Hnothing (setStarted l) true)].
  (* the block that looks for new content *)
  assert (Hnew : exists ups l2 thrown,
            newContent a callback tk result (setStarted l) = (ups, l2, thrown)
            /\ steps (gathered l) ups (gathered l2)
            /\ Forall (fun u => su_success u = true /\ su_anchor u = a) ups
            /\ (callback = false -> ups = [])
            /\ Forall (fun u => su_complete u = false /\ 10 < size_of u) ups).
  { unfold newContent.
    destruct (ex_success result && _) eqn:Hok.
    2:{ do 3 eexists. split; [reflexivity |]. cbn [steps].
        split; [unfold gathered; cbn; lia | done]. }
    apply andb_true_iff in Hok as [Hok _].
    destruct (isContentNew a (ex_content result) _) as [isNew st'].
    destruct (isNew && _) eqn:Hfresh.
    2:{ do 3 eexists. split; [reflexivity |]. cbn [steps].
        split; [unfold gathered; cbn; lia | done]. }
    apply andb_true_iff in Hfresh as [_ Hlt]. apply Z.ltb_lt in Hlt.
    cbn [lastContent setStarted] in Hlt.
    assert (Hlong : 10 < Js.length (ex_content result)).
    { by eapply extractContent_long. }
    destruct callback; do 3 eexists; (split; [reflexivity |]).
    - cbn [steps update su_complete]. unfold size_of, gathered.
      cbn [su_content update lastContent setLastContent setExtractor setStarted].
      split; [lia |]. split; [by repeat constructor |].
      split; [done |]. repeat constructor. exact Hlong.
    - cbn [steps]. unfold gathered.
      cbn [lastContent setLastContent setExtractor setStarted].
      split; [lia | done]. }
  destruct Hnew as (ups & l2 & thrown & -> & Hsteps & Hfields & Hnocb & Hpartial).
  assert (Hpartials : forall b,
            let r := {| emitted := ups; after := l2; resolved := None;
                        stalled := b |} in
            steps (gathered l) (emitted r) (gathered (after r))
            /\ Forall (fun u => su_success u = true /\ su_anchor u = a)
                      (emitted r)
            /\ (callback = false -> emitted r = [])
            /\ (exists partials finals,
                  emitted r = partials ++ finals
                  /\ Forall (fun u => su_complete u = false
                                      /\ 10 < size_of u) partials
                  /\ (finals = []
                      \/ exists u, finals = [u] /\ su_complete u = true
                           /\ (finalThrows tk = false ->
                               exists res, resolved r = Some res
                                           /\ mr_complete res = true)))).
  { intros b. cbn [emitted after resolved].
    split; [done |]. split; [done |]. split; [done |].
    exists ups, []. rewrite app_nil_r. split; [done |]. split; [done | by left]. }
  destruct thrown; [exact (Hpartials false) |].
  destruct (detectResponseCompletion _ _) as [msg|[|]|];
    [exact (Hpartials false) | | exact (Hpartials false)
    | exact (Hpartials true)].
  unfold finish.
  destruct (extractContent (Some a) 2 (finalExtraction tk)) as [msg|fin|];
    [exact (Hpartials false) | | exact (Hpartials true)].
  set (l1 := if _ && _ then _ else l2).
  assert (Hl1 : gathered l2 <= gathered l1).
  { subst l1. destruct (ex_success fin && _) eqn:E; [| lia].
    apply andb_true_iff in E as [_ E]. apply Z.ltb_lt in E.
    unfold gathered, setLastContent. cbn [lastContent]. lia. }
  assert (Hfinal : steps (gathered l) (ups ++ [update a l1 true]) (gathered l1)).
  { eapply steps_app; [exact Hsteps |].
    cbn [steps update su_complete]. unfold size_of, gathered, update in *.
    cbn [su_content]. lia. }
  destruct callback.
  - assert (Hshape : forall res : option MonitorResult,
              (finalThrows tk = false ->
               exists res', res = Some res' /\ mr_complete res' = true) ->
              exists partials finals,
                ups ++ [update a l1 true] = partials ++ finals
                /\ Forall (fun u => su_complete u = false /\ 10 < size_of u)
                          partials
                /\ (finals = []
                    \/ exists u, finals = [u] /\ su_complete u = true
                         /\ (finalThrows tk = false ->
                             exists res', res = Some res'
                                          /\ mr_complete res' = true))).
    { intros res Hres. exists ups, [update a l1 true].
      split; [done |]. split; [done |]. right.
      exists (update a l1 true). done. }
    destruct (finalThrows tk) eqn:Hthrows; cbn [again emitted after resolved].
    + split; [done |]. split; [| split; [done |]].
      * apply Forall_app. split; [done | by repeat constructor].
      * apply Hshape. done.
    + split; [done |]. split; [| split; [done |]].
      * apply Forall_app. split; [done | by repeat constructor].
      * apply Hshape. intros _. by eexists.
  - cbn [emitted after resolved]. rewrite (Hnocb eq_refl) in *.
    cbn [steps]. split; [cbn [steps] in Hsteps; lia |].
    split; [done |]. split; [done |].
    exists [], []. split; [done |]. split; [done | by left].
Qed.

(** The whole loop, in detail. *)
Lemma monitorLoop_steps callback ticks : forall l,
  let r := monitorLoop a timeout startTime callback ticks l in
  steps (gathered l) (emitted r) (gathered (after r))
  /\ Forall (fun u => su_success u = true /\ su_anchor u = a) (emitted r)
  /\ (callback = false -> emitted r = [])
  /\ Forall (fun u => su_complete u = false -> 10 < size_of u) (emitted r)
  /\ ((forall tk, tk ∈ ticks -> finalThrows tk = false) ->
      exists partials finals,
        emitted r = partials ++ finals
        /\ Forall (fun u => su_complete u = false) partials
        /\ (finals = []
            \/ exists u res, finals = [u] /\ su_complete u = true
                             /\ resolved r = Some res
                             /\ mr_complete res = true)).
Proof.
  induction ticks as [|tk ticks IH]; intros l; cbn zeta.
  { cbn [monitorLoop again emitted after resolved steps].
    split; [lia |]. split; [done |]. split; [done |]. split; [done |].
    intros _. exists [], []. split; [done |]. split; [done | by left]. }
  cbn [monitorLoop].
  destruct (streamMonitor_steps callback tk l)
    as (Hs & Hf & Hn & partials & finals & Heq & Hp & Hfin).
  assert (Hlong : Forall (fun u => su_complete u = false -> 10 < size_of u)
                    (emitted (streamMonitor a timeout startTime callback tk l))).
  { rewrite Heq. apply Forall_app. split.
    - eapply Forall_impl; [exact Hp |]. by intros u [_ Hu] _.
    - destruct Hfin as [-> | (u & -> & Hu & _)]; [done |].
      repeat constructor. congruence. }
  assert (Hpart : Forall (fun u => su_complete u = false) partials).
  { eapply Forall_impl; [exact Hp |]. by intros u [Hu _]. }
  destruct (resolved (streamMonitor a timeout startTime callback tk l))
    as [res|] eqn:Hr.
  - split; [done |]. split; [done |]. split; [done |]. split; [done |].
    intros Hthrows. exists partials, finals. split; [done |].
    split; [done |].
    destruct Hfin as [-> | (u & -> & Hu & Hres)]; [by left |]. right.
    destruct Hres as (res' & Hres' & Hc);
      [apply Hthrows, list_elem_of_here |].
    exists u, res'. rewrite Hr. done.
  - destruct (stalled (streamMonitor a timeout startTime callback tk l)).
    { split; [done |]. split; [done |]. split; [done |]. split; [done |].
      intros Hthrows. exists partials, finals. split; [done |].
      split; [done |].
      destruct Hfin as [-> | (u & -> & Hu & Hres)]; [by left |].
      destruct Hres as (res' & Hres' & _);
        [apply Hthrows, list_elem_of_here | congruence]. }
    destruct (IH (after (streamMonitor a timeout startTime callback tk l)))
      as (Hs' & Hf' & Hn' & Hlong' & Hd').
    cbn [emitted after resolved].
    split; [by eapply steps_app |].
    split; [by apply Forall_app |].
    split; [intros Hcb; by rewrite (Hn Hcb), (Hn' Hcb) |].
    split; [by apply Forall_app |].
    intros Hthrows.
    destruct Hd' as (partials' & finals' & Heq' & Hp' & Hfin').
    { intros t Ht. by apply Hthrows, list_elem_of_further. }
    assert (finals = []) as ->.
    { destruct Hfin as [-> | (u & -> & Hu & Hres)]; [done |].
      destruct Hres as (res' & Hres' & _);
        [apply Hthrows, list_elem_of_here | congruence]. }
    exists (partials ++ partials'), finals'.
    split; [by rewrite Heq, Heq', app_nil_r, app_assoc |].
    split; [by apply Forall_app | done].
Qed.

Lemma monitorLoop_resolved_stops callback ticks more : forall l,
  resolved (monitorLoop a timeout startTime callback ticks l) <> None ->
  monitorLoop a timeout startTime callback (ticks ++ more) l
  = monitorLoop a timeout startTime callback ticks l.
Proof.
  induction ticks as [|tk ticks IH]; intros l H; [done |].
  cbn [app monitorLoop] in *.
  destruct (resolved (streamMonitor a timeout startTime callback tk l))
    eqn:Hr; [done |].
  destruct (stalled (streamMonitor a timeout startTime callback tk l));
    [congruence |].
  cbn [resolved] in H. by rewrite IH.
Qed.

End MonitorMore.

Section MonitorExtras.
Import Surface WebSocketExtractor.

(** X17: each update that is not final carries more than ten
    characters and is strictly longer than every update passed
    before it, so the same content is never streamed twice as a
    partial update; every update carries [success = true] and the
    anchor, and without a callback there is no update at all. *)
Theorem monitorForResponse_partial_updates (a : string)
    (timeout startTime : Z) (callback : bool) (ticks : list Tick)
    (st : State) :
  let r := monitorForResponse a timeout startTime callback ticks st in
  (forall (i j : nat) (u v : StreamUpdate),
      (i < j)%nat -> emitted r !! i = Some u -> emitted r !! j = Some v ->
      su_complete v = false ->
      Js.length (su_content u) < Js.length (su_content v))
  /\ (forall u, u ∈ emitted r ->
        su_success u = true /\ su_anchor u = a
        /\ (su_complete u = false -> 10 < Js.length (su_content u)))
  /\ (callback = false -> emitted r = []).
Proof.
  cbn zeta. unfold monitorForResponse.
  destruct (monitorLoop_steps a timeout startTime callback ticks
              {| lastContent := ""; responseStarted := false;
                 extractor := st |}) as (Hs & Hf & Hn & Hlong & _).
  split; [| split; [| done]].
  - intros i j u v Hij Hi Hj Hv. by eapply steps_lookup.
  - intros u Hu. rewrite Forall_forall in Hf, Hlong.
    destruct (Hf u Hu). split; [done |]. split; [done |]. by apply Hlong.
Qed.

(** X18: when the callback never throws on a final update, the updates
    are some partial updates followed by at most one final update, and
    a final update is sent only when the promise is resolved with
    [complete = true]. *)
Theorem monitorForResponse_one_final (a : string) (timeout startTime : Z)
    (callback : bool) (ticks : list Tick) (st : State) :
  (forall tk, tk ∈ ticks -> finalThrows tk = false) ->
  let r := monitorForResponse a timeout startTime callback ticks st in
  exists partials finals,
    emitted r = partials ++ finals
    /\ Forall (fun u => su_complete u = false) partials
    /\ (finals = []
        \/ exists u res, finals = [u] /\ su_complete u = true
                         /\ resolved r = Some res
                         /\ mr_complete res = true).
Proof.
  intros Hthrows. cbn zeta. unfold monitorForResponse.
  destruct (monitorLoop_steps a timeout startTime callback ticks
              {| lastContent := ""; responseStarted := false;
                 extractor := st |}) as (_ & _ & _ & _ & H).
  by apply H.
Qed.

Lemma monitorForResponse_one_final_witness :
  let r := monitorForResponse demoAnchor 60000 1700000000000 true
             demoTicks demoState in
  exists partials finals,
    emitted r = partials ++ finals
    /\ Forall (fun u => su_complete u = false) partials
    /\ (finals = []
        \/ exists u res, finals = [u] /\ su_complete u = true
                         /\ resolved r = Some res
                         /\ mr_complete res = true).
Proof.
  apply (monitorForResponse_one_final demoAnchor 60000 1700000000000 true
           demoTicks demoState).
  intros tk Htk. cbn [demoTicks] in Htk.
  repeat (apply elem_of_cons in Htk as [-> | Htk]; [reflexivity |]).
  by apply elem_of_nil in Htk.
Defined.

(** X19: once the promise is resolved, later observations change
    nothing: the loop has stopped. *)
Theorem monitorForResponse_stops (a : string) (timeout startTime : Z)
    (callback : bool) (ticks more : list Tick) (st : State) :
  resolved (monitorForResponse a timeout startTime callback ticks st)
    <> None ->
  monitorForResponse a timeout startTime callback (ticks ++ more) st
  = monitorForResponse a timeout startTime callback ticks st.
Proof. apply monitorLoop_resolved_stops. Qed.

Lemma monitorForResponse_stops_witness :
  monitorForResponse demoAnchor 60000 1700000000000 true
    (demoTicks ++ demoTicks) demoState
  = monitorForResponse demoAnchor 60000 1700000000000 true demoTicks demoState.
Proof.
  apply (monitorForResponse_stops demoAnchor 60000 1700000000000 true
           demoTicks demoTicks demoState).
  vm_compute. discriminate.
Defined.

End MonitorExtras.


Section MonitorResults.
Import Surface WebSocketExtractor.

Variables (a : string) (timeout startTime : Z) (callback : bool).

(** The two ways a run of [streamMonitor] resolves the promise. *)
Lemma streamMonitor_resolved tk l res :
  resolved (streamMonitor a timeout startTime callback tk l) = Some res ->
  mr_anchor res = a
  /\ mr_elapsed res = now tk - startTime
  /\ ((mr_success res = true /\ mr_complete res = true
       /\ mr_message res = None /\ mr_elapsed res < timeout
       /\ detectResponseCompletion (completionPages tk) (completionExec tk)
          = Returns true
       /\ is_Some (findClaudePage (pages (extraction tk)))
       /\ is_Some (findClaudePage (pages (finalExtraction tk))))
      \/ (mr_success res = false /\ mr_complete res = false
          /\ mr_message res = Some "Response monitoring timeout"
          /\ timeout <= mr_elapsed res
          /\ mr_content res = lastContent l)).
Proof.
  unfold streamMonitor.
  destruct (timeout <=? now tk - startTime) eqn:E.
  { apply Z.leb_le in E. cbn [resolved]. intros H. injection H as <-.
    cbn. split; [done |]. split; [done |]. by right. }
  apply Z.leb_gt in E.
  destruct (negb (responseStarted l) && negb (responding tk)); [done |].
  destruct (extractContent (Some a) 1 (extraction tk))
    as [msg|result|] eqn:Hex; [done | | done].
  destruct (newContent a callback tk result (setStarted l))
    as [[ups l2] thrown].
  destruct thrown; [done |].
  destruct (detectResponseCompletion _ _) as [msg|[|]|] eqn:Hdet;
    [done | | done | done].
  unfold finish.
  destruct (extractContent (Some a) 2 (finalExtraction tk))
    as [msg|fin|] eqn:Hfin; [done | | done].
  assert (Hpage : forall n v x, extractContent (Some a) n v = Returns x ->
                                is_Some (findClaudePage (pages v))).
  { intros n v x. unfold extractContent. destruct (pages v); [| done].
    destruct (findClaudePage _); [by eexists | done]. }
  intros H.
  assert (Hres : res = completeResult a
                   (if ex_success fin
                       && (Js.length (lastContent l2) <? Js.length (ex_content fin))
                    then setLastContent l2 (ex_content fin) else l2)
                   (now tk - startTime)).
  { destruct callback; [destruct (finalThrows tk); [done |] |];
      cbn [resolved] in H; by injection H as <-. }
  rewrite Hres. cbn [completeResult mr_anchor mr_elapsed mr_success
                       mr_complete mr_message].
  split; [done |]. split; [done |]. left.
  repeat split; try done; by eapply Hpage.
Qed.

(** A run that starts nothing or cannot reach the page. *)
Lemma streamMonitor_silent tk l :
  (responseStarted l = false /\ responding tk = false)
  \/ findClaudePage (pages (extraction tk)) = None ->
  let r := streamMonitor a timeout startTime callback tk l in
  emitted r = []
  /\ lastContent (after r) = lastContent l
  /\ extractor (after r) = extractor l
  /\ (responding tk = false ->
      responseStarted (after r) = responseStarted l)
  /\ forall res, resolved r = Some res -> mr_success res = false.
Proof.
  intros H. cbn zeta. unfold streamMonitor.
  destruct (timeout <=? now tk - startTime).
  { cbn [emitted after resolved]. repeat split; try done.
    intros res Hr. by injection Hr as <-. }
  destruct H as [[Hs Hr] | Hp].
  - rewrite Hs, Hr. cbn [negb andb again emitted after resolved]. done.
  - destruct (negb (responseStarted l) && negb (responding tk)) eqn:E.
    { cbn [again emitted after resolved]. done. }
    unfold extractContent.
    destruct (pages (extraction tk)) as [ps|] eqn:Hps.
    + rewrite Hp. cbn [again emitted after resolved setStarted
                         lastContent extractor responseStarted].
      repeat split; try done.
      intros Hr. rewrite Hr in E. cbn in E.
      by destruct (responseStarted l).
    + cbn [again emitted after resolved setStarted
             lastContent extractor responseStarted].
      repeat split; try done.
      intros Hr. rewrite Hr in E. cbn in E.
      by destruct (responseStarted l).
Qed.

(** A run for an anchor whose injection was not tracked. *)
Lemma streamMonitor_untracked tk l :
  injectionTimestamps (extractor l) !! a = None ->
  let r := streamMonitor a timeout startTime callback tk l in
  Forall (fun u => su_complete u = true) (emitted r)
  /\ extractor (after r) = extractor l.
Proof.
  intros Hnone. cbn zeta. unfold streamMonitor.
  destruct (timeout <=? now tk - startTime); [done |].
  destruct (negb (responseStarted l) && negb (responding tk)); [done |].
  destruct (extractContent (Some a) 1 (extraction tk)) as [msg|result|];
    [done | | done].
  assert (Hnew : exists l2,
            newContent a callback tk result (setStarted l) = ([], l2, false)
            /\ extractor l2 = extractor l).
  { unfold newContent. destruct (ex_success result && _); [| by eexists].
    unfold isContentNew. cbn [extractor setStarted]. rewrite Hnone.
    cbn [andb]. by eexists. }
  destruct Hnew as (l2 & -> & Hext).
  destruct (detectResponseCompletion _ _) as [msg|[|]|];
    [done | | done | done].
  unfold finish.
  destruct (extractContent (Some a) 2 (finalExtraction tk)) as [msg|fin|];
    [done | | done].
  assert (Hext' : extractor
                    (if ex_success fin
                        && (Js.length (lastContent l2)
                              <? Js.length (ex_content fin))
                     then setLastContent l2 (ex_content fin) else l2)
                  = extractor l).
  { by destruct (_ && _). }
  destruct callback; [destruct (finalThrows tk) |];
    cbn [again emitted after resolved app]; (split; [| done]);
    by repeat constructor.
Qed.

Lemma monitorLoop_resolved ticks : forall l res,
  resolved (monitorLoop a timeout startTime callback ticks l) = Some res ->
  mr_anchor res = a
  /\ exists tk,
       tk ∈ ticks
       /\ mr_elapsed res = now tk - startTime
       /\ ((mr_success res = true /\ mr_complete res = true
            /\ mr_message res = None /\ mr_elapsed res < timeout
            /\ detectResponseCompletion (completionPages tk)
                 (completionExec tk) = Returns true
            /\ is_Some (findClaudePage (pages (extraction tk)))
            /\ is_Some (findClaudePage (pages (finalExtraction tk))))
           \/ (mr_success res = false /\ mr_complete res = false
               /\ mr_message res = Some "Response monitoring timeout"
               /\ timeout <= mr_elapsed res)).
Proof.
  induction ticks as [|tk ticks IH]; intros l res; [done |].
  cbn [monitorLoop].
  destruct (resolved (streamMonitor a timeout startTime callback tk l))
    as [res'|] eqn:Hr.
  - intros H. rewrite Hr in H. injection H as ->.
    apply streamMonitor_resolved in Hr as (H1 & H2 & H3).
    split; [done |]. exists tk. split; [apply list_elem_of_here |].
    split; [done |]. destruct H3 as [H3 | H3]; [by left | right; tauto].
  - destruct (stalled (streamMonitor a timeout startTime callback tk l));
      [by rewrite Hr |].
    cbn [resolved]. intros H. apply IH in H as (H1 & tk' & Hin & H2).
    split; [done |]. exists tk'. split; [by apply list_elem_of_further | done].
Qed.

Lemma monitorLoop_silent ticks : forall l,
  (responseStarted l = false /\ forall tk, tk ∈ ticks -> responding tk = false)
  \/ (forall tk, tk ∈ ticks -> findClaudePage (pages (extraction tk)) = None) ->
  let r := monitorLoop a timeout startTime callback ticks l in
  emitted r = []
  /\ lastContent (after r) = lastContent l
  /\ extractor (after r) = extractor l
  /\ forall res, resolved r = Some res -> mr_success res = false.
Proof.
  induction ticks as [|tk ticks IH]; intros l H; cbn zeta; [done |].
  cbn [monitorLoop].
  destruct (streamMonitor_silent tk l) as (He & Hc & Hx & Hs & Hres).
  { destruct H as [[H1 H2] | H].
    - left. split; [done |]. apply H2, list_elem_of_here.
    - right. apply H, list_elem_of_here. }
  destruct (resolved (streamMonitor a timeout startTime callback tk l))
    as [res|] eqn:Hr.
  { split; [done |]. split; [done |]. split; [done |].
    intros res' Hres'. rewrite Hr in Hres'. injection Hres' as <-.
    by apply Hres. }
  destruct (stalled (streamMonitor a timeout startTime callback tk l)).
  { split; [done |]. split; [done |]. split; [done |].
    intros res' Hres'. congruence. }
  destruct (IH (after (streamMonitor a timeout startTime callback tk l)))
    as (He' & Hc' & Hx' & Hres').
  { destruct H as [[H1 H2] | H].
    - left. split.
      + rewrite Hs; [done |]. apply H2, list_elem_of_here.
      + intros t Ht. by apply H2, list_elem_of_further.
    - right. intros t Ht. by apply H, list_elem_of_further. }
  cbn [emitted after resolved]. rewrite He, He', Hc', Hx'. done.
Qed.

Lemma monitorLoop_untracked ticks : forall l,
  injectionTimestamps (extractor l) !! a = None ->
  let r := monitorLoop a timeout startTime callback ticks l in
  Forall (fun u => su_complete u = true) (emitted r)
  /\ extractor (after r) = extractor l.
Proof.
  induction ticks as [|tk ticks IH]; intros l H; cbn zeta; [done |].
  cbn [monitorLoop].
  destruct (streamMonitor_untracked tk l H) as (Hf & Hx).
  destruct (resolved (streamMonitor a timeout startTime callback tk l));
    [done |].
  destruct (stalled (streamMonitor a timeout startTime callback tk l));
    [done |].
  destruct (IH (after (streamMonitor a timeout startTime callback tk l)))
    as (Hf' & Hx'); [by rewrite Hx |].
  cbn [emitted after]. split; [by apply Forall_app | by rewrite Hx', Hx].
Qed.

End MonitorResults.

Section MonitorResultExtras.
Import Surface WebSocketExtractor.

(** X20: the object [monitorForResponse] resolves with carries the
    anchor and the time elapsed at one of the runs; it is either a
    completion ([success] and [complete] both true, no message) reached
    before the timeout at a run where the completion probe answered
    [true] and both extractions found a page, or the timeout object
    ([success] and [complete] both false) at a run at or after the
    timeout. *)
Theorem monitorForResponse_result (a : string) (timeout startTime : Z)
    (callback : bool) (ticks : list Tick) (st : State) (res : MonitorResult) :
  resolved (monitorForResponse a timeout startTime callback ticks st)
  = Some res ->
  mr_anchor res = a
  /\ exists tk,
       tk ∈ ticks
       /\ mr_elapsed res = now tk - startTime
       /\ ((mr_success res = true /\ mr_complete res = true
            /\ mr_message res = None /\ mr_elapsed res < timeout
            /\ detectResponseCompletion (completionPages tk)
                 (completionExec tk) = Returns true
            /\ is_Some (findClaudePage (pages (extraction tk)))
            /\ is_Some (findClaudePage (pages (finalExtraction tk))))
           \/ (mr_success res = false /\ mr_complete res = false
               /\ mr_message res = Some "Response monitoring timeout"
               /\ timeout <= mr_elapsed res)).
Proof. apply monitorLoop_resolved. Qed.

Lemma monitorForResponse_result_witness :
  mr_anchor demoResult = demoAnchor
  /\ exists tk,
       tk ∈ demoTicks
       /\ mr_elapsed demoResult = now tk - 1700000000000
       /\ ((mr_success demoResult = true /\ mr_complete demoResult = true
            /\ mr_message demoResult = None /\ mr_elapsed demoResult < 60000
            /\ detectResponseCompletion (completionPages tk)
                 (completionExec tk) = Returns true
            /\ is_Some (findClaudePage (pages (extraction tk)))
            /\ is_Some (findClaudePage (pages (finalExtraction tk))))
           \/ (mr_success demoResult = false /\ mr_complete demoResult = false
               /\ mr_message demoResult = Some "Response monitoring timeout"
               /\ 60000 <= mr_elapsed demoResult)).
Proof.
  apply (monitorForResponse_result demoAnchor 60000 1700000000000 true
           demoTicks demoState demoResult).
  vm_compute; reflexivity.
Defined.

(** X21: as long as no run detects the start of the response, or as
    long as the extraction finds no page, nothing is emitted, the
    extractor's maps stay as they are, and the promise can only be
    resolved by the timeout, with empty content. *)
Theorem monitorForResponse_silent (a : string) (timeout startTime : Z)
    (callback : bool) (ticks : list Tick) (st : State) :
  (forall tk, tk ∈ ticks -> responding tk = false)
  \/ (forall tk, tk ∈ ticks ->
        findClaudePage (pages (extraction tk)) = None) ->
  let r := monitorForResponse a timeout startTime callback ticks st in
  emitted r = []
  /\ extractor (after r) = st
  /\ forall res, resolved r = Some res ->
       mr_success res = false /\ mr_content res = EmptyString.
Proof.
  intros H. cbn zeta. unfold monitorForResponse.
  set (l0 := {| lastContent := ""; responseStarted := false;
                extractor := st |}).
  destruct (monitorLoop_silent a timeout startTime callback ticks l0)
    as (He & Hc & Hx & Hres).
  { destruct H as [H | H]; [left | right]; done. }
  split; [done |]. split; [done |].
  intros res Hr. split; [by apply Hres |].
  destruct (monitorLoop_spec a timeout startTime callback ticks l0)
    as (_ & _ & Hcontent).
  destruct (Hcontent res Hr) as (-> & _). done.
Qed.

Lemma monitorForResponse_silent_witness :
  let r := monitorForResponse demoAnchor 500 1700000000000 true
             [{| now := 1700000001000; responding := false;
                 extraction := demoView (demoDom true "");
                 completionPages := demoPages;
                 completionExec := Rejected;
                 finalExtraction := demoView (demoDom true "");
                 updateThrows := false; finalThrows := false |}]
             demoState in
  emitted r = []
  /\ extractor (after r) = demoState
  /\ forall res, resolved r = Some res ->
       mr_success res = false /\ mr_content res = EmptyString.
Proof.
  apply (monitorForResponse_silent demoAnchor 500 1700000000000 true).
  left. intros tk Htk.
  apply list_elem_of_singleton in Htk as ->. reflexivity.
Defined.

(** X22: for an anchor whose injection was never tracked no content
    counts as new: the monitor passes no partial update, only final
    ones, and leaves the extractor's maps as they are. *)
Theorem monitorForResponse_untracked (a : string) (timeout startTime : Z)
    (callback : bool) (ticks : list Tick) (st : State) :
  injectionTimestamps st !! a = None ->
  let r := monitorForResponse a timeout startTime callback ticks st in
  Forall (fun u => su_complete u = true) (emitted r)
  /\ extractor (after r) = st.
Proof.
  intros H. cbn zeta. unfold monitorForResponse.
  by apply (monitorLoop_untracked a timeout startTime callback ticks
              {| lastContent := ""; responseStarted := false;
                 extractor := st |}).
Qed.

Lemma monitorForResponse_untracked_witness :
  let r := monitorForResponse demoAnchor 60000 1700000000000 true demoTicks
             WebSocketExtractor.create in
  Forall (fun u => su_complete u = true) (emitted r)
  /\ extractor (after r) = WebSocketExtractor.create.
Proof.
  apply (monitorForResponse_untracked demoAnchor 60000 1700000000000 true
           demoTicks WebSocketExtractor.create).
  reflexivity.
Defined.

End MonitorResultExtras.


Section Marker.
Import Surface SimpleExtraction.

Lemma bridgeHere_empty : bridgeHere EmptyString = None.
Proof. reflexivity. Qed.

Lemma suffixFrom_empty p : suffixFrom p EmptyString = EmptyString.
Proof. by destruct p. Qed.

(** The result of the scan is the index found before, or an index of
    the scanned text at which the pattern matches. *)
Lemma lastMatch_result s : forall pos skip found,
  lastMatch s pos skip found = found
  \/ exists k, lastMatch s pos skip found = pos + Z.of_nat k
               /\ (k < String.length s)%nat
               /\ is_Some (bridgeHere (suffixFrom k s)).
Proof.
  induction s as [|c s IH]; intros pos skip found; [by left |].
  cbn [lastMatch].
  assert (Hshift : forall sk fd,
            (exists k, lastMatch s (pos + 1) sk fd = pos + 1 + Z.of_nat k
                       /\ (k < String.length s)%nat
                       /\ is_Some (bridgeHere (suffixFrom k s))) ->
            exists k, lastMatch s (pos + 1) sk fd = pos + Z.of_nat k
                      /\ (k < String.length (String c s))%nat
                      /\ is_Some (bridgeHere (suffixFrom k (String c s)))).
  { intros sk fd (k & Hk & Hlt & Hm). exists (S k).
    cbn [String.length suffixFrom]. split; [lia |]. split; [lia | done]. }
  destruct skip as [|skip].
  - destruct (bridgeHere (String c s)) as [rest|] eqn:Hb.
    + right.
      destruct (IH (pos + 1)
                  (String.length (String c s) - String.length rest - 1)%nat
                  pos) as [-> | H].
      * exists O. cbn [suffixFrom String.length]. rewrite Hb.
        split; [lia |]. split; [lia | by eexists].
      * by apply Hshift.
    + destruct (IH (pos + 1) O found) as [-> | H]; [by left |].
      right. by apply Hshift.
  - destruct (IH (pos + 1) skip found) as [-> | H]; [by left |].
    right. by apply Hshift.
Qed.

(** A scan that starts outside a match finds every text that has a
    match. *)
Lemma lastMatch_finds s : forall pos found k,
  is_Some (bridgeHere (suffixFrom k s)) ->
  pos <= lastMatch s pos O found.
Proof.
  induction s as [|c s IH]; intros pos found k Hk.
  { rewrite suffixFrom_empty, bridgeHere_empty in Hk. by destruct Hk. }
  cbn [lastMatch].
  destruct (bridgeHere (String c s)) as [rest|] eqn:Hb.
  - destruct (lastMatch_result s (pos + 1)
                (String.length (String c s) - String.length rest - 1)%nat pos)
      as [-> | (j & -> & _)]; lia.
  - destruct k as [|k]; [cbn [suffixFrom] in Hk; rewrite Hb in Hk;
                         by destruct Hk |].
    cbn [suffixFrom] in Hk. specialize (IH (pos + 1) found k Hk). lia.
Qed.

(** X23: [lastAnchorPosition] is [-1] exactly when the bridge pattern
    matches nowhere in the page text; otherwise it is an index of the
    text at which the pattern matches. *)
Theorem lastAnchorPosition_marker bodyText :
  (lastAnchorPosition bodyText = -1
   <-> forall p, bridgeHere (suffixFrom p bodyText) = None)
  /\ (lastAnchorPosition bodyText <> -1 ->
      0 <= lastAnchorPosition bodyText < Js.length bodyText
      /\ is_Some (bridgeHere
                    (suffixFrom (Z.to_nat (lastAnchorPosition bodyText))
                                bodyText))).
Proof.
  unfold lastAnchorPosition.
  destruct (lastMatch_result bodyText 0 O (-1))
    as [Hnone | (k & Hk & Hlt & Hm)].
  - split; [| congruence]. split; [| done].
    intros _ p.
    destruct (bridgeHere (suffixFrom p bodyText)) eqn:E; [| done].
    pose proof (lastMatch_finds bodyText 0 (-1) p ltac:(by eexists)). lia.
  - rewrite Hk. split.
    + split; [lia |]. intros Hall. rewrite Hall in Hm. by destruct Hm.
    + intros _. unfold Js.length. split; [lia |].
      by replace (Z.to_nat (0 + Z.of_nat k)) with k by lia.
Qed.

End Marker.


Section ServerFacts.
Import ClaudeDesktopAPIServer.

Lemma filter_length_le {A} (f : A -> bool) l :
  (List.length (List.filter f l) <= List.length l)%nat.
Proof. induction l as [|x l IH]; cbn; [lia |]. destruct (f x); cbn; lia. Qed.

Lemma filter_filter_length {A} (f g : A -> bool) l :
  (List.length (List.filter f (List.filter g l))
   <= List.length (List.filter f l))%nat.
Proof.
  induction l as [|x l IH]; cbn; [lia |].
  destruct (g x), (f x) eqn:E; cbn; rewrite ?E; cbn; lia.
Qed.

Lemma filter_none {A} (f : A -> bool) l :
  (forall x, x ∈ l -> f x = false) -> List.filter f l = [].
Proof.
  induction l as [|x l IH]; intros H; [done |]. cbn.
  rewrite (H x) by apply list_elem_of_here.
  apply IH. intros y Hy. by apply H, list_elem_of_further.
Qed.

Lemma filter_two {A} (f : A -> bool) l x y :
  x ∈ l -> y ∈ l -> x <> y -> f x = true -> f y = true ->
  (2 <= List.length (List.filter f l))%nat.
Proof.
  induction l as [|z l IH]; intros Hx Hy Hne Hfx Hfy;
    [by apply elem_of_nil in Hx |].
  assert (Hone : forall w, w ∈ l -> f w = true ->
                           (1 <= List.length (List.filter f l))%nat).
  { clear. intros w Hw Hf. induction l as [|v l IH];
      [by apply elem_of_nil in Hw |].
    cbn. apply elem_of_cons in Hw as [<- | Hw]; [rewrite Hf; cbn; lia |].
    destruct (f v); cbn; [lia | by apply IH]. }
  cbn. apply elem_of_cons in Hx as [-> | Hx];
    apply elem_of_cons in Hy as [-> | Hy].
  - done.
  - rewrite Hfx. cbn. pose proof (Hone y Hy Hfy). lia.
  - rewrite Hfy. cbn. pose proof (Hone x Hx Hfx). lia.
  - specialize (IH Hx Hy Hne Hfx Hfy). destruct (f z); cbn; lia.
Qed.

Lemma elem_of_clearInterval e i l :
  e ∈ clearInterval i l <-> e ∈ l /\ fst e <> i.
Proof.
  unfold clearInterval. rewrite !list_elem_of_In, filter_In.
  rewrite negb_true_iff, Nat.eqb_neq. done.
Qed.

Lemma single_flight_create : single_flight create.
Proof.
  split; [intros a; cbn; lia |]. split; [| split].
  - intros a. unfold active. cbn. split; [set_solver |].
    intros [i H]. by apply elem_of_nil in H.
  - intros i a H. by apply elem_of_nil in H.
  - intros i a b H. by apply elem_of_nil in H.
Qed.

Lemma polling_zero a s :
  single_flight s -> a ∉ active s -> polling a s = 0%nat.
Proof.
  intros (_ & Hact & _) Hna. unfold polling. rewrite filter_none; [done |].
  intros [i b] Hin. cbn [snd].
  destruct (String.eqb a b) eqn:E; [| done].
  apply String.eqb_eq in E as <-. destruct Hna. apply Hact. by exists i.
Qed.

Lemma polling_one a i s :
  (i, a) ∈ intervals s -> (1 <= polling a s)%nat.
Proof.
  unfold polling. generalize (intervals s). intros l Hin.
  induction l as [|[j b] l IH]; [by apply elem_of_nil in Hin |].
  cbn. apply elem_of_cons in Hin as [Hin | Hin].
  - injection Hin as <- <-. rewrite String.eqb_refl. cbn. lia.
  - destruct (String.eqb a b); cbn; [lia | by apply IH].
Qed.

Lemma polling_cons a i b s l act cl n :
  s = {| activeMonitoring := act; intervals := (i, b) :: l;
         cleanups := cl; nextId := n |} ->
  polling a s
  = ((if String.eqb a b then 1 else 0)
     + List.length (List.filter (fun e => String.eqb a (snd e)) l))%nat.
Proof. intros ->. unfold polling. cbn. by destruct (String.eqb a b). Qed.

Lemma single_flight_request a s :
  single_flight s -> single_flight (startProactiveMonitoring a s).
Proof.
  intros Hs. pose proof Hs as (Hpoll & Hact & Hfresh & Hids).
  unfold startProactiveMonitoring.
  assert (Hstart : forall act',
            a ∉ active s -> act' = {[a]} ∪ active s ->
            single_flight
              {| activeMonitoring := Some act';
                 intervals := (nextId s, a) :: intervals s;
                 cleanups := (nextId s, a) :: cleanups s;
                 nextId := S (nextId s) |}).
  { intros act' Hna ->. split; [| split; [| split]].
    - intros b. erewrite polling_cons by reflexivity.
      destruct (String.eqb b a) eqn:E.
      + apply String.eqb_eq in E as ->.
        pose proof (polling_zero a s Hs Hna) as Hz. unfold polling in Hz.
        rewrite Hz. lia.
      + specialize (Hpoll b). unfold polling in Hpoll. lia.
    - intros b.
      match goal with
      | |- _ ∈ active ?r <-> _ =>
          change (active r) with ({[a]} ∪ active s : gset string)
      end.
      cbn [intervals].
      rewrite elem_of_union, elem_of_singleton, Hact. split.
      + intros [-> | [i Hi]]; [exists (nextId s); apply list_elem_of_here |].
        exists i. by apply list_elem_of_further.
      + intros [i Hi]. apply elem_of_cons in Hi as [Hi | Hi];
          [left; congruence | right; by exists i].
    - intros i b Hb. cbn [intervals nextId] in *.
      apply elem_of_cons in Hb as [Hb | Hb]; [injection Hb as -> _; lia |].
      apply Hfresh in Hb. lia.
    - intros i b c Hb Hc. cbn [intervals] in *.
      apply elem_of_cons in Hb as [Hb | Hb];
        apply elem_of_cons in Hc as [Hc | Hc].
      + congruence.
      + injection Hb as -> _. apply Hfresh in Hc. lia.
      + injection Hc as -> _. apply Hfresh in Hb. lia.
      + by apply (Hids i). }
  destruct (activeMonitoring s) as [act|] eqn:E.
  - destruct (decide (a ∈ act)) as [Hin | Hna]; [done |].
    apply Hstart; unfold active; by rewrite E.
  - replace ({[a]} : gset string) with ({[a]} ∪ active s : gset string).
    + apply Hstart; [| done]. unfold active. rewrite E. cbn. set_solver.
    + unfold active. rewrite E. cbn. set_solver.
Qed.

Lemma single_flight_stop i a s cl :
  single_flight s -> (i, a) ∈ intervals s ->
  single_flight
    {| activeMonitoring := (fun m => m ∖ {[a]}) <$> activeMonitoring s;
       intervals := clearInterval i (intervals s);
       cleanups := cl;
       nextId := nextId s |}.
Proof.
  intros (Hpoll & Hact & Hfresh & Hids) Hin.
  assert (Hother : forall j b, (j, b) ∈ intervals s -> j <> i -> b <> a).
  { intros j b Hb Hne ->. specialize (Hpoll a). unfold polling in Hpoll.
    pose proof (filter_two (fun e => String.eqb a (snd e)) (intervals s)
                  (i, a) (j, a) Hin Hb) as H2.
    cbn [snd] in H2. rewrite String.eqb_refl in H2.
    specialize (H2 ltac:(congruence) eq_refl eq_refl). lia. }
  assert (Hactive : active {| activeMonitoring :=
                                (fun m => m ∖ {[a]}) <$> activeMonitoring s;
                              intervals := clearInterval i (intervals s);
                              cleanups := cl; nextId := nextId s |}
                    = active s ∖ {[a]}).
  { unfold active. cbn [activeMonitoring].
    destruct (activeMonitoring s); cbn; set_solver. }
  split; [| split; [| split]].
  - intros b. specialize (Hpoll b). unfold polling in *. cbn [intervals].
    unfold clearInterval.
    pose proof (filter_filter_length (fun e => String.eqb b (snd e))
                  (fun e => negb (Nat.eqb (fst e) i)) (intervals s)). lia.
  - intros b. rewrite Hactive, elem_of_difference, elem_of_singleton, Hact.
    cbn [intervals]. split.
    + intros [[j Hj] Hne]. exists j. apply elem_of_clearInterval.
      split; [done |]. cbn [fst]. intros ->. apply Hne. by apply (Hids i).
    + intros [j Hj]. apply elem_of_clearInterval in Hj as [Hj Hne].
      split; [by exists j | by apply (Hother j)].
  - intros j b Hb. cbn [intervals nextId] in *.
    apply elem_of_clearInterval in Hb as [Hb _]. by apply Hfresh in Hb.
  - intros j b c Hb Hc. cbn [intervals] in *.
    apply elem_of_clearInterval in Hb as [Hb _].
    apply elem_of_clearInterval in Hc as [Hc _]. by apply (Hids j).
Qed.

Lemma single_flight_run events : forall s,
  single_flight s -> live events s -> single_flight (run events s).
Proof.
  induction events as [|e events IH]; intros s Hs Hlive; [done |].
  cbn [run live] in *. destruct Hlive as [He Hlive].
  apply IH; [| done].
  destruct e as [a | i a | i a]; cbn [step].
  - by apply single_flight_request.
  - by apply single_flight_stop.
  - by apply single_flight_stop.
Qed.

(** X24: starting from a new server, as long as every completion and
    every auto-cleanup that happens belongs to an interval still
    running, at most one polling interval runs per anchor, the anchors
    in [activeMonitoring] are exactly the anchors polled, and after a
    request for an anchor exactly one interval polls for it. *)
Theorem startProactiveMonitoring_single_flight events a :
  live events create ->
  (polling a (run events create) <= 1)%nat
  /\ (a ∈ active (run events create)
      <-> polling a (run events create) = 1%nat)
  /\ polling a (startProactiveMonitoring a (run events create)) = 1%nat.
Proof.
  intros Hlive.
  pose proof (single_flight_run events create single_flight_create Hlive)
    as Hs.
  assert (Hiff : forall s, single_flight s ->
                   (a ∈ active s <-> polling a s = 1%nat)).
  { intros s Hs'. pose proof Hs' as (Hle & Hact & _). split.
    - intros Hin. apply Hact in Hin as [i Hi].
      pose proof (polling_one a i s Hi). specialize (Hle a). lia.
    - intros Hone. destruct (decide (a ∈ active s)) as [| Hna]; [done |].
      pose proof (polling_zero a s Hs' Hna). lia. }
  split; [apply Hs |]. split; [by apply Hiff |].
  pose proof (single_flight_request a _ Hs) as Hs'.
  apply Hiff; [done |]. apply Hs'.
  unfold startProactiveMonitoring.
  destruct (activeMonitoring (run events create)) as [act|] eqn:E.
  - destruct (decide (a ∈ act)) as [Hin | Hna].
    + destruct Hs as (_ & Hact & _). apply Hact.
      unfold active. by rewrite E.
    + exists (nextId (run events create)). apply list_elem_of_here.
  - exists (nextId (run events create)). apply list_elem_of_here.
Qed.

Lemma startProactiveMonitoring_single_flight_witness :
  (polling "a"
     (run [Request "a"; Request "a"; Completes 0 "a"; Request "a"] create)
   <= 1)%nat
  /\ ("a" ∈ active (run [Request "a"; Request "a"; Completes 0 "a";
                         Request "a"] create)
      <-> polling "a" (run [Request "a"; Request "a"; Completes 0 "a";
                            Request "a"] create) = 1%nat)
  /\ polling "a"
       (startProactiveMonitoring "a"
          (run [Request "a"; Request "a"; Completes 0 "a"; Request "a"]
               create)) = 1%nat.
Proof.
  apply (startProactiveMonitoring_single_flight
           [Request "a"; Request "a"; Completes 0 "a"; Request "a"] "a").
  cbn [live step]. split; [done |]. split; [done |].
  split; [| done]. vm_compute. apply list_elem_of_here.
Defined.

End ServerFacts.


Section MessagingFacts.
Import Surface WebSocketExtractor MessageService.

(** X25: a stream that starts, with a function as callback, while
    no stream of its anchor is recorded and then ends leaves
    [activeExtractions] and the running monitors as they were; when a
    stream of the anchor was already recorded, the end of the second
    one removes the entry although the first monitor still runs.
    Without a function as callback the call throws and records
    nothing. *)
Theorem streamResponse_then_done now a s :
  initialized s = true ->
  (exists s1,
      streamResponse now a true s = Returns s1
      /\ monitors (streamResponseDone a s1) = monitors s
      /\ activeExtractions (streamResponseDone a s1) !! a = None
      /\ (activeExtractions s !! a = None ->
          activeExtractions (streamResponseDone a s1) = activeExtractions s)
      /\ (forall b, b <> a ->
            activeExtractions (streamResponseDone a s1) !! b
            = activeExtractions s !! b))
  /\ streamResponse now a false s
     = Throws "Callback function required for streaming".
Proof.
  intros Hinit. unfold streamResponse. rewrite Hinit.
  split; [| reflexivity]. eexists.
  split; [reflexivity |].
  unfold streamResponseDone. cbn [monitors activeExtractions removeOne].
  rewrite String.eqb_refl.
  split; [reflexivity |]. split; [apply lookup_delete_eq |].
  split.
  - intros Hnone. rewrite delete_insert_eq. by apply delete_id.
  - intros b Hb. by rewrite lookup_delete_ne, lookup_insert_ne.
Qed.

Lemma streamResponse_then_done_witness :
  (exists s1,
      streamResponse 1000 demoAnchor true idleService = Returns s1
      /\ monitors (streamResponseDone demoAnchor s1) = monitors idleService
      /\ activeExtractions (streamResponseDone demoAnchor s1) !! demoAnchor
         = None
      /\ (activeExtractions idleService !! demoAnchor = None ->
          activeExtractions (streamResponseDone demoAnchor s1)
          = activeExtractions idleService)
      /\ (forall b, b <> demoAnchor ->
            activeExtractions (streamResponseDone demoAnchor s1) !! b
            = activeExtractions idleService !! b))
  /\ streamResponse 1000 demoAnchor false idleService
     = Throws "Callback function required for streaming".
Proof.
  apply (streamResponse_then_done 1000 demoAnchor idleService). reflexivity.
Defined.

(** X26: [extractResponse] returns only successes of [extractContent],
    each with more than ten characters of content and, for an anchor
    without quote, backslash and line break, reported as complete; a
    failed extraction is thrown as an error, never returned. *)
Theorem extractResponse_returns a retries view m r :
  (extractResponse a retries view m).1 = Returns r ->
  er_success r = true
  /\ 10 < Js.length (er_content r)
  /\ ready m = true
  /\ extractContent (Some a) retries view
     = Returns {| ex_success := true; ex_content := er_content r;
                  ex_complete := er_complete r; ex_anchor := Some a;
                  ex_metadata := er_metadata r; ex_message := None |}
  /\ (quotable a = true -> er_complete r = true).
Proof.
  unfold extractResponse. destruct (ready m); [| done].
  destruct (extractContent (Some a) retries view) as [msg|result|] eqn:Hex;
    [done | | done].
  destruct (ex_success result) eqn:Hs; [| done].
  cbn [fst]. intros H. injection H as <-.
  cbn [er_success er_complete er_content er_metadata].
  pose proof Hex as Hex'. unfold extractContent in Hex'.
  destruct (pages view); [| done].
  destruct (findClaudePage _); [| done].
  destruct (extractWith_success _ _ _ _ _ Hex' Hs)
    as (q & k & v & _ & Hp & Hlen & Heq).
  subst result. unfold extracted in *.
  cbn [ex_content ex_complete ex_metadata] in *.
  split; [done |]. split; [done |]. split; [done |]. split; [done |].
  intros Hquot. apply answers_complete in Hp; [| exact Hquot].
  rewrite Hp.
  change (negb (bool_decide (None = Some false))) with true.
  done.
Qed.

Lemma extractResponse_returns_witness :
  er_success
    {| er_success := true; er_content := "Hello! How can I help you today?";
       er_complete := true;
       er_metadata := Some {| em_queryIndex := 0; em_attempt := 1;
                              em_messageCount := Some 2;
                              em_selector := None; em_source := None;
                              em_element := None |} |} = true
  /\ 10 < Js.length "Hello! How can I help you today?"
  /\ ready {| ready := true; counters := counters newMessaging;
              extractorState := demoState |} = true
  /\ extractContent (Some demoAnchor) 1 answeringView
     = Returns {| ex_success := true;
                  ex_content := "Hello! How can I help you today?";
                  ex_complete := true; ex_anchor := Some demoAnchor;
                  ex_metadata := Some {| em_queryIndex := 0; em_attempt := 1;
                                         em_messageCount := Some 2;
                                         em_selector := None;
                                         em_source := None;
                                         em_element := None |};
                  ex_message := None |}
  /\ (quotable demoAnchor = true ->
      er_complete
        {| er_success := true;
           er_content := "Hello! How can I help you today?";
           er_complete := true;
           er_metadata := Some {| em_queryIndex := 0; em_attempt := 1;
                                  em_messageCount := Some 2;
                                  em_selector := None; em_source := None;
                                  em_element := None |} |} = true).
Proof.
  apply (extractResponse_returns demoAnchor 1%nat answeringView
           {| ready := true; counters := counters newMessaging;
              extractorState := demoState |}).
  vm_compute; reflexivity.
Defined.

Lemma call_counters c m :
  let n := counters m in
  let n' := counters (call c m) in
  ready (call c m) = ready m
  /\ (ready m = false -> call c m = m)
  /\ (ready m = true ->
      match c with
      | Inject _ _ _ =>
          injectionsCount n' = injectionsCount n + 1
          /\ extractionsCount n' = extractionsCount n
          /\ successfulInjections n <= successfulInjections n'
             <= successfulInjections n + 1
          /\ successfulExtractions n' = successfulExtractions n
      | Extract _ _ _ =>
          injectionsCount n' = injectionsCount n
          /\ extractionsCount n' = extractionsCount n + 1
          /\ successfulInjections n' = successfulInjections n
          /\ successfulExtractions n <= successfulExtractions n'
             <= successfulExtractions n + 1
      end).
Proof.
  cbn zeta. destruct c as [now a injection | a retries view]; cbn [call].
  - unfold injectMessage. destruct (ready m) eqn:Hr; [| done].
    destruct injection as [msg | [] method]; cbn; rewrite ?Hr;
      (split; [done |]); (split; [done |]); intros _; lia.
  - unfold extractResponse. destruct (ready m) eqn:Hr; [| done].
    destruct (extractContent (Some a) retries view) as [msg|result|];
      [| destruct (ex_success result) |]; cbn; rewrite ?Hr;
      (split; [done |]); (split; [done |]); intros _; lia.
Qed.

(** X27: whatever calls are made on an initialized service, the
    counters count every injection and every extraction attempted, and
    the successes never exceed the attempts; on a service that is not
    initialized the calls change nothing. *)
Theorem counters_account cs m :
  let n := counters m in
  let n' := counters (calls cs m) in
  (ready m = true ->
   injectionsCount n' = injectionsCount n + Z.of_nat (List.length (injections cs))
   /\ extractionsCount n'
      = extractionsCount n + Z.of_nat (List.length (extractions cs))
   /\ successfulInjections n <= successfulInjections n'
      <= successfulInjections n + Z.of_nat (List.length (injections cs))
   /\ successfulExtractions n <= successfulExtractions n'
      <= successfulExtractions n + Z.of_nat (List.length (extractions cs)))
  /\ (ready m = false -> calls cs m = m).
Proof.
  cbn zeta. revert m. induction cs as [|c cs IH]; intros m.
  { cbn. split; [intros _; lia | done]. }
  cbn [calls]. destruct (call_counters c m) as (Hready & Hoff & Hon).
  cbn zeta in Hon. destruct (IH (call c m)) as (IHon & IHoff).
  split.
  - intros Hr. specialize (Hon Hr). rewrite Hr in Hready.
    specialize (IHon Hready).
    destruct c; cbn [injections extractions List.filter List.length] in *;
      fold (injections cs) in *; fold (extractions cs) in *; lia.
  - intros Hr. rewrite (Hoff Hr). apply IH. done.
Qed.

End MessagingFacts.


Section TextFacts.
Import Surface SimpleExtraction.

Lemma responseLines_boundary mid stop post :
  boundary stop = true ->
  responseLines (mid ++ stop :: post) = responseLines mid.
Proof.
  intros Hstop. induction mid as [| line mid IH].
  - cbn [app responseLines]. unfold boundary in Hstop.
    destruct (isBridgeMessage stop); [done |].
    cbn [orb] in Hstop. by rewrite Hstop.
  - cbn [app responseLines]. rewrite IH. reflexivity.
Qed.

Lemma following_app (pre : list string) b rest :
  drop (S (List.length pre)) (pre ++ b :: rest) = rest.
Proof.
  induction pre as [| x pre IH]; [reflexivity |].
  cbn [app List.length]. exact IH.
Qed.

Lemma responseLines_take n mid stop post :
  boundary stop = true ->
  responseLines (take n (mid ++ stop :: post)) = responseLines (take n mid).
Proof.
  intros Hstop. revert n. induction mid as [| line mid IH]; intros n.
  - cbn [app]. destruct n as [| n]; [reflexivity |].
    cbn [take]. apply (responseLines_boundary [] stop (take n post) Hstop).
  - destruct n as [| n]; [reflexivity |].
    cbn [app take responseLines]. rewrite IH. reflexivity.
Qed.

(** X28: what follows the next bridge message or the footer line is
    not part of the response. *)
Theorem extractResponseAfterBridge_boundary pre b mid stop post :
  boundary stop = true ->
  extractResponseAfterBridge (pre ++ b :: mid ++ stop :: post)
    (List.length pre)
  = extractResponseAfterBridge (pre ++ b :: mid) (List.length pre).
Proof.
  intros Hstop. unfold extractResponseAfterBridge.
  rewrite !following_app. by rewrite responseLines_take.
Qed.

Lemma extractResponseAfterBridge_boundary_witness :
  boundary demoFooter = true
  /\ extractResponseAfterBridge
       (["New chat"; demoBridge] ++ ["The answer, line one."; "OK"]
          ++ demoFooter :: ["trailing text of the page"])%list 1
     = extractResponseAfterBridge
         (["New chat"; demoBridge] ++ ["The answer, line one."; "OK"])%list 1.
Proof.
  split; [vm_compute; reflexivity |].
  apply (extractResponseAfterBridge_boundary ["New chat"] demoBridge
           ["The answer, line one."; "OK"] demoFooter
           ["trailing text of the page"]).
  vm_compute; reflexivity.
Defined.

Lemma lastBridge_none lines index found :
  Forall (fun line => isBridgeMessage line = false) lines ->
  lastBridge lines index found = found.
Proof.
  intros Hall. revert index.
  induction Hall as [| line lines Hline _ IH]; intros index; [reflexivity |].
  cbn [lastBridge]. rewrite Hline. apply IH.
Qed.

Lemma lastBridge_latest pre b post index found :
  isBridgeMessage b = true ->
  Forall (fun line => isBridgeMessage line = false) post ->
  lastBridge (pre ++ b :: post) index found
  = Some (index + List.length pre)%nat.
Proof.
  intros Hb Hpost. revert index found.
  induction pre as [| x pre IH]; intros index found.
  - cbn [app lastBridge List.length]. rewrite Hb, lastBridge_none by done.
    f_equal; lia.
  - cbn [app lastBridge List.length]. rewrite IH. f_equal; lia.
Qed.

(** X29: the text before the latest bridge message has no part in the
    parsed response. *)
Theorem parseConversationFromText_latest_bridge bodyText pre b post :
  textLines bodyText = (pre ++ b :: post)%list ->
  isBridgeMessage b = true ->
  Forall (fun line => isBridgeMessage line = false) post ->
  parseConversationFromText bodyText
  = extractResponseAfterBridge (b :: post) 0.
Proof.
  intros Hlines Hb Hpost. unfold parseConversationFromText.
  rewrite Hlines, (lastBridge_latest pre b post 0 None Hb Hpost).
  cbn [Nat.add]. unfold extractResponseAfterBridge.
  rewrite following_app. reflexivity.
Qed.

Lemma parseConversationFromText_latest_bridge_witness :
  parseConversationFromText demoBody
  = extractResponseAfterBridge
      [demoBridge; "Hello there, this is the answer."; "OK";
       "Second line of the answer"; demoFooter; "trailing"] 0.
Proof.
  apply (parseConversationFromText_latest_bridge demoBody ["New chat"]).
  - vm_compute; reflexivity.
  - vm_compute; reflexivity.
  - repeat constructor.
Defined.

(** X30: [extractContentSimple] never throws, and what it returns
    reports a complete response only with a page text that holds a
    bridge message, parsed content of at least 20 characters and a
    document without a shown stop button; every failure carries an
    error, no content and no completion. *)
Theorem extractContentSimple_outcome pages bodyExec domExec :
  (forall msg, extractContentSimple pages bodyExec domExec <> Throws msg)
  /\ forall r,
       extractContentSimple pages bodyExec domExec = Returns r ->
       (sr_complete r = Some true ->
        exists bodyText d,
          bodyExec = Returned bodyText /\ domExec = Returned d
          /\ sr_content r = parseConversationFromText bodyText
          /\ 20 <= sr_contentLength r
          /\ lastAnchorPosition bodyText <> -1
          /\ WebSocketExtractor.claudeStillResponding d = false)
       /\ (sr_success r = false ->
           sr_error r <> None /\ sr_content r = EmptyString
           /\ sr_contentLength r = 0 /\ sr_complete r = None)
       /\ (sr_success r = true ->
           sr_error r = None /\ sr_contentLength r = Js.length (sr_content r)
           /\ sr_complete r <> None).
Proof.
  unfold extractContentSimple.
  destruct pages as [msg | ps |];
    [split; [done |]; by intros r [= <-] | | by split].
  destruct (claudePage ps); [| split; [done |]; by intros r [= <-]].
  destruct bodyExec as [| | [| c text] |].
  1-3: split; [done |]; by intros r [= <-].
  2: by split.
  destruct (checkResponseCompletion (String c text)
              (parseConversationFromText (String c text)) domExec)
    as [msg|isComplete|] eqn:Hcheck;
    [split; [done |]; by intros r [= <-] | | by split].
  split; [done |]. intros r [= <-].
  cbn [sr_complete sr_success sr_error sr_content sr_contentLength].
  split; [| split; done].
  intros [= ->].
  apply checkResponseCompletion_true in Hcheck
    as (Hlen & Hpos & d & -> & Hidle & _).
  eauto 10.
Qed.

End TextFacts.
